(** * Cooler_Power: the hardware-control stack, embedded and verified

    A shallow embedding of the control stack of the Cooler_Power
    repository:

    - [CRC16], [ModbusResponse] and [ModbusRTU] follow
      [src/drivers/modbus_rtu.py];
    - [Driver] follows [src/drivers/cl500w_driver.py] and the validation
      helpers of [src/protocol/power_supply_base.py];
    - [PID] and [AutoTuner] follow [src/pid_controller.py];
    - [Worker] follows the control tick and the safety supervision of
      [src/workers/hardware_worker.py];
    - [DataBridge] follows the histories and the command queue of
      [src/server/data_bridge.py].

    Conventions.  Python [int]s are [Z], [bytes] are [list byte], Python
    [float]s are idealised as exact rationals [Q] (so equalities between
    floats are stated with [==]).  The wall clock ([time.time()]) and the
    serial link are the environment: the clock is an explicit argument and
    the link is a script of per-attempt outcomes that the transport
    consumes.  Logging and [time.sleep] change nothing that is modelled
    and are left out.  A call returns, raises, or never returns because
    it waits for a lock ([outcome]). *)

From Stdlib Require Import String ZArith List Bool Lia.
From Stdlib.Strings Require Import Byte.
From Stdlib Require Import QArith Qround Lqa.
Import ListNotations.

Local Open Scope Z_scope.

(* ===================================================================== *)
(** * Bytes and [struct] packing                                          *)
(* ===================================================================== *)

(** The integer value of a byte, [0 .. 255]. *)
Definition byte_val (b : byte) : Z := Z.of_N (Byte.to_N b).

(** The byte whose value is [z mod 256]. *)
Definition byte_of_Z (z : Z) : byte :=
  match Byte.of_N (Z.to_N (z mod 256)) with
  | Some b => b
  | None => x00
  end.

(** [struct.pack('<H', v)]: two bytes, low byte first; [struct.error] (here
    [None]) when [v] does not fit in 16 bits. *)
Definition pack_le_H (v : Z) : option (list byte) :=
  if (0 <=? v) && (v <=? 65535)
  then Some [byte_of_Z v; byte_of_Z (Z.shiftr v 8)]
  else None.

(** [struct.unpack('<H', bs)[0]]; [struct.error] unless [bs] has exactly two
    bytes. *)
Definition unpack_le_H (bs : list byte) : option Z :=
  match bs with
  | [lo; hi] => Some (byte_val lo + 256 * byte_val hi)
  | _ => None
  end.

(** [struct.unpack('>H', bs)[0]]. *)
Definition unpack_be_H (bs : list byte) : option Z :=
  match bs with
  | [hi; lo] => Some (256 * byte_val hi + byte_val lo)
  | _ => None
  end.

(** [struct.pack('>BBHH', a, f, x, y)]: the fixed-width request encoding;
    [None] when a field is out of range. *)
Definition pack_BBHH (a f x y : Z) : option (list byte) :=
  if (0 <=? a) && (a <=? 255) && (0 <=? f) && (f <=? 255)
     && (0 <=? x) && (x <=? 65535) && (0 <=? y) && (y <=? 65535)
  then Some [byte_of_Z a; byte_of_Z f;
             byte_of_Z (Z.shiftr x 8); byte_of_Z x;
             byte_of_Z (Z.shiftr y 8); byte_of_Z y]
  else None.

(** Python slices [data[i:j]] for [0 <= i], [0 <= j]. *)
Definition slice {A} (l : list A) (i j : nat) : list A :=
  firstn (j - i) (skipn i l).

(* ===================================================================== *)
(** * CRC16                                                               *)
(* ===================================================================== *)

Module CRC16.

(** One round of the inner loop of [_init_table]. *)
Definition table_round (crc : Z) : Z :=
  if negb (Z.land crc 1 =? 0)
  then Z.lxor (Z.shiftr crc 1) 0xA001
  else Z.shiftr crc 1.

(** The table entry for index [i]: eight rounds starting from [i]. *)
Definition table_entry (i : Z) : Z :=
  Nat.iter 8 table_round i.

(** [_TABLE] after [_init_table]: the entries for [0 .. 255]. *)
Definition _TABLE : list Z :=
  Eval vm_compute in map (fun i => table_entry (Z.of_nat i)) (seq 0 256).

(** [_TABLE[i]]; the index is always masked with [0xFF] by the caller. *)
Definition table_get (i : Z) : Z := nth (Z.to_nat i) _TABLE 0.

(** One iteration of the loop of [calculate]. *)
Definition calc_step (crc : Z) (b : byte) : Z :=
  Z.lxor (Z.shiftr crc 8) (table_get (Z.land (Z.lxor crc (byte_val b)) 0xFF)).

Definition calculate (data : list byte) : Z :=
  fold_left calc_step data 0xFFFF.

(** [append]: the data followed by its CRC, low byte first. *)
Definition append (data : list byte) : option (list byte) :=
  match pack_le_H (calculate data) with
  | Some tail => Some (data ++ tail)
  | None => None
  end.

(** [verify]: false below three bytes, else compare the embedded checksum
    (the last two bytes) with the one computed over the rest. *)
Definition verify (data : list byte) : bool :=
  if (length data <? 3)%nat then false
  else
    let payload := firstn (length data - 2) data in
    match unpack_le_H (skipn (length data - 2) data) with
    | Some received_crc => received_crc =? calculate payload
    | None => false
    end.

End CRC16.

(** Unsigned 16-bit range. *)
Definition u16 (z : Z) : Prop := 0 <= z < 65536.

(* ===================================================================== *)
(** * Effects: states, exceptions and a thread that waits for ever        *)
(* ===================================================================== *)

(** A call either returns a value, raises a Python exception (carrying
    its text), or never returns because the calling thread waits for a
    lock that nobody will release.  Every outcome carries the state
    reached. *)
Inductive outcome (S A : Type) : Type :=
| Returns (a : A) (s : S)
| Raises (e : string) (s : S)
| Blocks (s : S).
Arguments Returns {S A} a s.
Arguments Raises {S A} e s.
Arguments Blocks {S A} s.

Definition M (S A : Type) : Type := S -> outcome S A.

Definition ret {S A} (a : A) : M S A := fun s => Returns a s.

Definition bind {S A B} (c : M S A) (k : A -> M S B) : M S B :=
  fun s => match c s with
           | Returns a s' => k a s'
           | Raises e s' => Raises e s'
           | Blocks s' => Blocks s'
           end.

Definition raise {S A} (e : string) : M S A := fun s => Raises e s.
Definition get {S} : M S S := fun s => Returns s s.
Definition put {S} (s : S) : M S unit := fun _ => Returns tt s.
Definition modify {S} (f : S -> S) : M S unit := fun s => Returns tt (f s).

(** [try: c except Exception as e: h e]. *)
Definition try_except {S A} (c : M S A) (h : string -> M S A) : M S A :=
  fun s => match c s with
           | Raises e s' => h e s'
           | r => r
           end.

(** Run a computation on a component [T] of the state [S]. *)
Definition zoom {S T A} (proj : S -> T) (upd : T -> S -> S) (c : M T A)
  : M S A :=
  fun s => match c (proj s) with
           | Returns a t => Returns a (upd t s)
           | Raises e t => Raises e (upd t s)
           | Blocks t => Blocks (upd t s)
           end.

(** The state an outcome ends in. *)
Definition final {S A} (r : outcome S A) : S :=
  match r with
  | Returns _ s => s
  | Raises _ s => s
  | Blocks s => s
  end.

Declare Scope m_scope.
Delimit Scope m_scope with m.
Notation "x <- c ;; k" := (bind c (fun x => k))
  (at level 61, c at next level, right associativity) : m_scope.
Notation "c ;; k" := (bind c (fun _ => k))
  (at level 61, right associativity) : m_scope.

(* ===================================================================== *)
(** * ModbusResponse                                                      *)
(* ===================================================================== *)

Module ModbusResponse.

Record t : Type := mk {
  slave_address : Z;
  function_code : Z;
  data : list byte;
  is_error : bool;
  error_code : Z
}.

(** [range(0, n, 2)]. *)
Definition range_step2 (n : nat) : list nat :=
  map (fun k => (2 * k)%nat) (seq 0 ((n + 1) / 2)).

(** The body of the loop of [registers] at index [i]: the big-endian
    value of [data[i:i+2]] when [i + 1 < len(data)], nothing otherwise. *)
Definition register_at (d : list byte) (i : nat) : list Z :=
  if (i + 1 <? length d)%nat
  then match unpack_be_H (slice d i (i + 2)) with
       | Some value => [value]
       | None => []
       end
  else [].

(** The [registers] property. *)
Definition registers (r : t) : list Z :=
  flat_map (register_at (data r)) (range_step2 (length (data r))).

End ModbusResponse.

(* ===================================================================== *)
(** * ModbusRTU: the serial master                                        *)
(* ===================================================================== *)

Module ModbusRTU.

Definition DEFAULT_RETRY_COUNT : nat := 3.
Definition MAX_CONSECUTIVE_FAILURES : Z := 5.
Definition MIN_RESPONSE_LENGTH : nat := 5.

(** What the serial line does on one attempt (the environment). *)
Inductive attempt : Type :=
| WriteFault                  (* [serial.write] raises or writes short *)
| NoReply                     (* too few bytes arrive before the timeout *)
| Reply (arrived : list byte) (* the bytes [_receive_frame] gets to read *).

(** The transport object together with the line it talks to. *)
Record t : Type := mk {
  retry_count : nat;
  port_open : bool;             (* [_serial is not None and _serial.is_open] *)
  consecutive_failures : Z;     (* [_consecutive_failures] *)
  io_lock : bool;               (* [_io_lock] is held *)
  reopen_ok : bool;             (* environment: reopening the port succeeds *)
  script : list attempt;        (* environment: the coming attempts *)
  written : list (list byte)    (* frames given to [serial.write],
                                   newest first *)
}.

Definition set_failures (n : Z) (s : t) : t :=
  mk (retry_count s) (port_open s) n (io_lock s) (reopen_ok s) (script s)
     (written s).
Definition set_lock (b : bool) (s : t) : t :=
  mk (retry_count s) (port_open s) (consecutive_failures s) b (reopen_ok s)
     (script s) (written s).
Definition set_port (b : bool) (s : t) : t :=
  mk (retry_count s) b (consecutive_failures s) (io_lock s) (reopen_ok s)
     (script s) (written s).
Definition set_script (l : list attempt) (s : t) : t :=
  mk (retry_count s) (port_open s) (consecutive_failures s) (io_lock s)
     (reopen_ok s) l (written s).
Definition log_write (frame : list byte) (s : t) : t :=
  mk (retry_count s) (port_open s) (consecutive_failures s) (io_lock s)
     (reopen_ok s) (script s) (frame :: written s).

Definition is_connected (s : t) : bool := port_open s.

(** [with self._io_lock:] around [body].  [threading.Lock] is not
    re-entrant: acquiring it while it is held waits for ever. *)
Definition with_io_lock {A} (body : M t A) : M t A :=
  fun s =>
    if io_lock s then Blocks s
    else match body (set_lock true s) with
         | Returns a s' => Returns a (set_lock false s')
         | Raises e s' => Raises e (set_lock false s')
         | Blocks s' => Blocks s'
         end.

(** [_reset_serial_port]: under the lock, close the port, reopen it and
    clear the failure counter; any exception makes it return [False]. *)
Definition _reset_serial_port : M t bool :=
  try_except
    (with_io_lock
       (fun s =>
          let s1 := set_port false s in
          if reopen_ok s then Returns true (set_failures 0 (set_port true s1))
          else Raises "SerialException" s1))
    (fun _ => ret false).

(** [_send_frame]: nothing is written on a closed port; otherwise the
    frame is given to [serial.write], and the result tells whether all of
    it was written. *)
Definition _send_frame (frame : list byte) : M t bool :=
  fun s =>
    if negb (is_connected s) then Returns false s
    else match script s with
         | WriteFault :: rest =>
             Returns false (set_script rest (log_write frame s))
         | _ => Returns true (log_write frame s)
         end.

(** [_receive_frame]: [None] unless at least [MIN_RESPONSE_LENGTH] bytes
    arrive before the timeouts; otherwise the header followed by whatever
    else is waiting. *)
Definition _receive_frame : M t (option (list byte)) :=
  fun s =>
    if negb (is_connected s) then Returns None s
    else match script s with
         | Reply arrived :: rest =>
             if (length arrived <? MIN_RESPONSE_LENGTH)%nat
             then Returns None (set_script rest s)
             else Returns (Some arrived) (set_script rest s)
         | _ :: rest => Returns None (set_script rest s)
         | [] => Returns None s
         end.

Local Open Scope m_scope.

Definition count_failure : M t unit :=
  modify (fun s => set_failures (consecutive_failures s + 1) s).

(** The reset check that follows a failed receive or a failed CRC. *)
Definition reset_if_needed : M t unit :=
  s <- get ;;
  if MAX_CONSECUTIVE_FAILURES <=? consecutive_failures s
  then (_ <- _reset_serial_port ;; ret tt)
  else ret tt.

(** The parse at the end of an attempt whose CRC is right: [None] stands
    for [continue]. *)
Definition parse_response (response : list byte)
  : M t (option ModbusResponse.t) :=
  match response with
  | slave_addr :: func_code :: rest =>
      match rest with
      | [] => ret None                     (* [len(response) < 3] *)
      | code :: _ =>
          if negb (Z.land (byte_val func_code) 0x80 =? 0)
          then
            (modify (set_failures 0) ;;
             ret (Some (ModbusResponse.mk (byte_val slave_addr)
                          (Z.land (byte_val func_code) 0x7F) []
                          true (byte_val code))))
          else
            (modify (set_failures 0) ;;
             ret (Some (ModbusResponse.mk (byte_val slave_addr)
                          (byte_val func_code)
                          (slice response 2 (length response - 2))
                          false 0)))
      end
  | _ => ret None
  end.

(** One pass through the body of the retry loop; [None] stands for
    [continue].  The sleeps between retries change nothing here. *)
Definition attempt_once (frame : list byte)
  : M t (option ModbusResponse.t) :=
  sent <- _send_frame frame ;;
  if negb sent then (count_failure ;; ret None)
  else
    response <- _receive_frame ;;
    match response with
    | None => count_failure ;; reset_if_needed ;; ret None
    | Some response =>
        if negb (CRC16.verify response)
        then (count_failure ;; reset_if_needed ;; ret None)
        else parse_response response
    end.

(** [for attempt in range(n): ...], returning at the first response. *)
Fixpoint attempts (n : nat) (frame : list byte)
  : M t (option ModbusResponse.t) :=
  match n with
  | O => ret None
  | S n' =>
      r <- attempt_once frame ;;
      match r with
      | Some resp => ret (Some resp)
      | None => attempts n' frame
      end
  end.

(** [_transact]. *)
Definition _transact (request : list byte) : M t (option ModbusResponse.t) :=
  match CRC16.append request with
  | None => raise "struct.error"
  | Some frame =>
      with_io_lock (s <- get ;; attempts (retry_count s) frame)
  end.

Definition READ_HOLDING_REGISTERS : Z := 0x03.
Definition READ_INPUT_REGISTERS : Z := 0x04.
Definition WRITE_SINGLE_REGISTER : Z := 0x06.

(** The tail shared by the two register reads: strip the length byte of a
    successful response. *)
Definition strip_byte_count (response : option ModbusResponse.t)
  : option ModbusResponse.t :=
  match response with
  | Some r =>
      if negb (ModbusResponse.is_error r)
      then match ModbusResponse.data r with
           | byte_count :: _ =>
               Some (ModbusResponse.mk
                       (ModbusResponse.slave_address r)
                       (ModbusResponse.function_code r)
                       (slice (ModbusResponse.data r) 1
                          (1 + Z.to_nat (byte_val byte_count)))
                       (ModbusResponse.is_error r)
                       (ModbusResponse.error_code r))
           | [] => Some r
           end
      else Some r
  | None => None
  end.

Definition read_registers_with (code slave_address start_address count : Z)
  : M t (option ModbusResponse.t) :=
  match pack_BBHH slave_address code start_address count with
  | None => raise "struct.error"
  | Some request =>
      response <- _transact request ;;
      ret (strip_byte_count response)
  end.

Definition read_holding_registers :=
  read_registers_with READ_HOLDING_REGISTERS.

Definition read_input_registers :=
  read_registers_with READ_INPUT_REGISTERS.

Definition write_single_register (slave_address address value : Z)
  : M t bool :=
  match pack_BBHH slave_address WRITE_SINGLE_REGISTER address value with
  | None => raise "struct.error"
  | Some request =>
      response <- _transact request ;;
      ret (match response with
           | Some r => negb (ModbusResponse.is_error r)
           | None => false
           end)
  end.

(** A transport just after [connect()] succeeded. *)
Definition connected (line : list attempt) : t :=
  mk DEFAULT_RETRY_COUNT true 0 false true line [].

End ModbusRTU.

(* ===================================================================== *)
(** * Numbers: Python floats as rationals                                 *)
(* ===================================================================== *)

Definition Qlt_bool (x y : Q) : bool := negb (Qle_bool y x).

(** Python's [max(a, b)] and [min(a, b)]: the first argument wins ties. *)
Definition pymax (a b : Q) : Q := if Qlt_bool a b then b else a.
Definition pymin (a b : Q) : Q := if Qlt_bool b a then b else a.

(** Python's [abs]. *)
Definition pyabs (x : Q) : Q := if Qlt_bool x 0 then - x else x.

(** Python's [int(x)] on a float: truncation towards zero. *)
Definition py_int (x : Q) : Z :=
  if Qle_bool 0 x then Qfloor x else Qceiling x.

(* ===================================================================== *)
(** * The power-supply interface (power_supply_base.py)                   *)
(* ===================================================================== *)

Module PowerSupply.

Inductive PowerMode : Type := CV | CC | UNKNOWN.
Inductive ProtectionStatus : Type := NORMAL | OVP | OCP | OTP | SCP.

Record PowerStatus : Type := mkStatus {
  voltage_real : Q;
  current_real : Q;
  power_real : Q;
  voltage_set : Q;
  current_set : Q;
  is_output_on : bool;
  mode : PowerMode;
  protection : ProtectionStatus;
  temperature : Q;
  is_connected : bool;
  error_message : string
}.

(** [PowerStatus(is_connected=c)]: the defaults; [__post_init__] computes
    the power from the (default) voltage and current. *)
Definition new_status (c : bool) : PowerStatus :=
  mkStatus 0 0 (0 * 0) 0 0 false UNKNOWN NORMAL 0 c "".

Definition set_real (v i : Q) (m : PowerMode) (temp : Q) (st : PowerStatus) :=
  mkStatus v i (power_real st) (voltage_set st) (current_set st)
    (is_output_on st) m (protection st) temp (is_connected st)
    (error_message st).
Definition set_protection (p : ProtectionStatus) (st : PowerStatus) :=
  mkStatus (voltage_real st) (current_real st) (power_real st)
    (voltage_set st) (current_set st) (is_output_on st) (mode st) p
    (temperature st) (is_connected st) (error_message st).
Definition set_output_on (b : bool) (st : PowerStatus) :=
  mkStatus (voltage_real st) (current_real st) (power_real st)
    (voltage_set st) (current_set st) b (mode st) (protection st)
    (temperature st) (is_connected st) (error_message st).
Definition set_voltage_set (v : Q) (st : PowerStatus) :=
  mkStatus (voltage_real st) (current_real st) (power_real st)
    v (current_set st) (is_output_on st) (mode st) (protection st)
    (temperature st) (is_connected st) (error_message st).
Definition set_current_set (i : Q) (st : PowerStatus) :=
  mkStatus (voltage_real st) (current_real st) (power_real st)
    (voltage_set st) i (is_output_on st) (mode st) (protection st)
    (temperature st) (is_connected st) (error_message st).
Definition set_is_connected (c : bool) (st : PowerStatus) :=
  mkStatus (voltage_real st) (current_real st) (power_real st)
    (voltage_set st) (current_set st) (is_output_on st) (mode st)
    (protection st) (temperature st) c (error_message st).
Definition set_error_message (e : string) (st : PowerStatus) :=
  mkStatus (voltage_real st) (current_real st) (power_real st)
    (voltage_set st) (current_set st) (is_output_on st) (mode st)
    (protection st) (temperature st) (is_connected st) e.

Record PowerSpecification : Type := mkSpec {
  voltage_min : Q;
  voltage_max : Q;
  current_min : Q;
  current_max : Q;
  power_max : Q
}.

(** [validate_voltage] and [validate_current]: a chained comparison
    against the specification. *)
Definition validate_voltage (spec : PowerSpecification) (voltage : Q) : bool :=
  Qle_bool (voltage_min spec) voltage && Qle_bool voltage (voltage_max spec).

Definition validate_current (spec : PowerSpecification) (current : Q) : bool :=
  Qle_bool (current_min spec) current && Qle_bool current (current_max spec).

End PowerSupply.

(* ===================================================================== *)
(** * The CL-500W driver (cl500w_driver.py)                               *)
(* ===================================================================== *)

Module Driver.

Import PowerSupply.

Module Register.
Definition VOLTAGE_REAL : Z := 1024.
Definition CURRENT_REAL : Z := 1025.
Definition CC_CV_STATUS : Z := 1026.
Definition TEMPERATURE : Z := 1027.
Definition OTP_STATUS : Z := 1028.
Definition VOLTAGE_SET : Z := 1280.
Definition CURRENT_SET : Z := 1281.
Definition OUTPUT_SWITCH : Z := 1282.
Definition DEVICE_ADDRESS : Z := 1283.
Definition SAVE_SETTINGS : Z := 1284.
End Register.

(** The messages given to the error callbacks by [_notify_error]. *)
Inductive notice : Type :=
| NotConnected                 (* "未连接电源" *)
| Timeout                      (* "通信超时" *)
| ModbusFault (code : Z)       (* "MODBUS错误: {code}" *)
| WriteFailed                  (* "写入失败" *)
| VoltageOutOfRange (v : Q)    (* "电压超出范围: {v}V" *)
| CurrentOutOfRange (i : Q)    (* "电流超出范围: {i}A" *)
| AddressOutOfRange            (* "地址超出范围 (1-127)" *).

Record t : Type := mk {
  slave_address : Z;
  modbus : option ModbusRTU.t;   (* [_modbus] *)
  notified : list notice         (* what the error callbacks received,
                                    newest first *)
}.

(** The specification set by [__init__]. *)
Definition specification : PowerSpecification :=
  mkSpec 0 60 0 20 500.

Definition is_connected (d : t) : bool :=
  match modbus d with
  | Some m => ModbusRTU.is_connected m
  | None => false
  end.

Definition _notify_error (n : notice) : M t unit :=
  modify (fun d => mk (slave_address d) (modbus d) (n :: notified d)).

(** A call on [self._modbus]. *)
Definition on_modbus {A} (c : M ModbusRTU.t A) : M t A :=
  fun d =>
    match modbus d with
    | None => Raises "AttributeError" d
    | Some m =>
        match c m with
        | Returns a m' =>
            Returns a (mk (slave_address d) (Some m') (notified d))
        | Raises e m' =>
            Raises e (mk (slave_address d) (Some m') (notified d))
        | Blocks m' => Blocks (mk (slave_address d) (Some m') (notified d))
        end
    end.

Local Open Scope m_scope.

Definition _read_registers (start_address count : Z)
  (use_input_register : bool) : M t (option (list Z)) :=
  d <- get ;;
  if negb (is_connected d) then (_notify_error NotConnected ;; ret None)
  else
    response <-
      on_modbus
        (if use_input_register
         then ModbusRTU.read_input_registers (slave_address d)
                start_address count
         else ModbusRTU.read_holding_registers (slave_address d)
                start_address count) ;;
    match response with
    | None => _notify_error Timeout ;; ret None
    | Some r =>
        if ModbusResponse.is_error r
        then (_notify_error (ModbusFault (ModbusResponse.error_code r)) ;;
              ret None)
        else ret (Some (ModbusResponse.registers r))
    end.

Definition _write_register (address value : Z) : M t bool :=
  d <- get ;;
  if negb (is_connected d) then (_notify_error NotConnected ;; ret false)
  else
    success <-
      on_modbus (ModbusRTU.write_single_register (slave_address d)
                   address value) ;;
    if negb success then (_notify_error WriteFailed ;; ret false)
    else ret true.

(** [x / 1000.0] on a register value. *)
Definition milli (v : Z) : Q := (inject_Z v / 1000)%Q.

(** The updates of [get_status] after each read. *)
Definition fill_real (real_values : option (list Z)) (st : PowerStatus)
  : PowerStatus :=
  match real_values with
  | Some (v0 :: v1 :: v2 :: v3 :: v4 :: _) =>
      let st1 :=
        set_real (milli v0) (milli v1)
          (if v2 =? 0 then CV else CC) (inject_Z v3) st in
      if v4 =? 0 then st1 else set_protection OTP st1
  | _ => st
  end.

Definition fill_output (output_values : option (list Z)) (st : PowerStatus)
  : PowerStatus :=
  match output_values with
  | Some (v :: _) => set_output_on (negb (v =? 0)) st
  | _ => st
  end.

Definition fill_vset (vset_values : option (list Z)) (st : PowerStatus)
  : PowerStatus :=
  match vset_values with
  | Some (v :: _) => set_voltage_set (milli v) st
  | _ => st
  end.

Definition fill_iset (iset_values : option (list Z)) (st : PowerStatus)
  : PowerStatus :=
  match iset_values with
  | Some (v :: _) => set_current_set (milli v) st
  | _ => st
  end.

(** The driver together with the [status] object under construction. *)
Definition on_driver {A} (c : M t A) : M (t * PowerStatus) A :=
  zoom fst (fun d p => (d, snd p)) c.
Definition update_status (f : PowerStatus -> PowerStatus)
  : M (t * PowerStatus) unit :=
  modify (fun p => (fst p, f (snd p))).

(** The [try] block of [get_status]. *)
Definition get_status_reads : M (t * PowerStatus) unit :=
  real_values <- on_driver (_read_registers Register.VOLTAGE_REAL 5 false) ;;
  update_status (fill_real real_values) ;;
  output_values <- on_driver (_read_registers Register.OUTPUT_SWITCH 1 false) ;;
  update_status (fill_output output_values) ;;
  vset_values <- on_driver (_read_registers Register.VOLTAGE_SET 1 false) ;;
  update_status (fill_vset vset_values) ;;
  iset_values <- on_driver (_read_registers Register.CURRENT_SET 1 false) ;;
  update_status (fill_iset iset_values) ;;
  update_status (set_is_connected true).

Definition get_status : M t PowerStatus :=
  fun d =>
    let status := new_status (is_connected d) in
    if negb (is_connected d)
    then Returns (set_error_message "未连接" status) d
    else
      match try_except get_status_reads
              (fun e => update_status (set_error_message e)) (d, status)
      with
      | Returns _ (d', st) => Returns st d'
      | Raises e (d', _) => Raises e d'
      | Blocks (d', _) => Blocks d'
      end.

Definition set_voltage (voltage : Q) : M t bool :=
  if negb (validate_voltage specification voltage)
  then (_notify_error (VoltageOutOfRange voltage) ;; ret false)
  else _write_register Register.VOLTAGE_SET (py_int (voltage * 1000)).

Definition set_current (current : Q) : M t bool :=
  if negb (validate_current specification current)
  then (_notify_error (CurrentOutOfRange current) ;; ret false)
  else _write_register Register.CURRENT_SET (py_int (current * 1000)).

(** [get_voltage], [get_current] and [get_temperature]: one register
    each; [values and len(values) >= 1] fails on [None] and on []. *)
Definition get_voltage : M t (option Q) :=
  values <- _read_registers Register.VOLTAGE_REAL 1 false ;;
  ret (match values with
       | Some (v :: _) => Some (milli v)
       | _ => None
       end).

Definition get_current : M t (option Q) :=
  values <- _read_registers Register.CURRENT_REAL 1 false ;;
  ret (match values with
       | Some (v :: _) => Some (milli v)
       | _ => None
       end).

Definition get_temperature : M t (option Q) :=
  values <- _read_registers Register.TEMPERATURE 1 false ;;
  ret (match values with
       | Some (v :: _) => Some (inject_Z v)
       | _ => None
       end).

Definition output_on : M t bool := _write_register Register.OUTPUT_SWITCH 1.
Definition output_off : M t bool := _write_register Register.OUTPUT_SWITCH 0.
Definition set_output (on : bool) : M t bool :=
  if on then output_on else output_off.

Definition save_settings : M t bool :=
  _write_register Register.SAVE_SETTINGS 255.

Definition set_device_address (address : Z) : M t bool :=
  if negb ((1 <=? address) && (address <=? 127))
  then (_notify_error AddressOutOfRange ;; ret false)
  else _write_register Register.DEVICE_ADDRESS address.

(** A driver just after [connect()] succeeded on a line that will behave
    as [line]. *)
Definition connected (addr : Z) (line : list ModbusRTU.attempt) : t :=
  mk addr (Some (ModbusRTU.connected line)) [].

End Driver.

(* ===================================================================== *)
(** * The PID controller (pid_controller.py)                              *)
(* ===================================================================== *)

Module PID.

Local Open Scope Q_scope.

Record t : Type := mk {
  kp : Q;
  ki : Q;
  kd : Q;
  output_min : Q;
  output_max : Q;
  _integral : Q;
  _last_error : Q;
  _last_derivative : Q;
  _output : Q;
  _last_time : option Q;
  reverse : bool;
  derivative_filter : Q;
  output_rate_limit : Q
}.

(** [PIDController(kp, ki, kd, output_min, output_max)]. *)
Definition init (kp ki kd output_min output_max : Q) : t :=
  mk kp ki kd output_min output_max 0 0 0 0 None false 0.3 2.0.

(** [PIDController()]: the default arguments. *)
Definition default : t := init 1.0 0.05 0.5 0.0 7.0.

Definition reset (p : t) : t :=
  mk (kp p) (ki p) (kd p) (output_min p) (output_max p) 0 0 0 0 None
     (reverse p) (derivative_filter p) (output_rate_limit p).

(** [compute(setpoint, measured)] when [time.time()] reads [now]: the
    output and the controller afterwards.  Every divisor is non-zero by
    the guard in front of it ([max(ki, 0.001)], [dt > 0],
    [abs(ki) > 0.0001]). *)
Definition compute (now setpoint measured : Q) (p : t) : Q * t :=
  let dt := match _last_time p with
            | None => 1.0
            | Some last => pymax 0.01 (now - last)
            end in
  let error := if reverse p then setpoint - measured
               else measured - setpoint in
  let p_term := kp p * error in
  let integral0 := _integral p + error * dt in
  let i_limit := output_max p / pymax (ki p) 0.001 in
  let integral1 := pymax (- i_limit) (pymin i_limit integral0) in
  let i_term := ki p * integral1 in
  let raw_derivative := if Qlt_bool 0 dt
                        then (error - _last_error p) / dt
                        else 0.0 in
  let alpha := derivative_filter p in
  let filtered_d := alpha * raw_derivative
                    + (1 - alpha) * _last_derivative p in
  let d_term := kd p * filtered_d in
  let raw_output := p_term + i_term + d_term in
  let new_output := pymax (output_min p) (pymin (output_max p) raw_output) in
  let integral2 :=
    if Qlt_bool 0.001 (pyabs (new_output - raw_output))
       && Qlt_bool 0.0001 (pyabs (ki p))
    then integral1 - (raw_output - new_output) / ki p * 0.5
    else integral1 in
  let limited :=
    if Qlt_bool 0 (output_rate_limit p) && Qlt_bool 0 dt
    then
      let max_change := output_rate_limit p * dt in
      let change := new_output - _output p in
      if Qlt_bool max_change (pyabs change)
      then _output p + max_change * (if Qlt_bool 0 change then 1 else -1)
      else new_output
    else new_output in
  (limited,
   mk (kp p) (ki p) (kd p) (output_min p) (output_max p)
      integral2 error filtered_d limited (Some now)
      (reverse p) (derivative_filter p) (output_rate_limit p)).

(** A sequence of [compute] calls, each [(now, setpoint, measured)]: the
    outputs in order and the controller at the end. *)
Fixpoint run (calls : list (Q * Q * Q)) (p : t) : list Q * t :=
  match calls with
  | [] => ([], p)
  | (now, setpoint, measured) :: rest =>
      let (out, p') := compute now setpoint measured p in
      let (outs, p'') := run rest p' in
      (out :: outs, p'')
  end.

End PID.

(* ===================================================================== *)
(** * The auto-tuner (pid_controller.py)                                  *)
(* ===================================================================== *)

Module AutoTuner.

Local Open Scope Q_scope.

Inductive State : Type := IDLE | STEP_RESPONSE | ANALYZING | DONE | FAILED.

Definition State_eqb (a b : State) : bool :=
  match a, b with
  | IDLE, IDLE | STEP_RESPONSE, STEP_RESPONSE | ANALYZING, ANALYZING
  | DONE, DONE | FAILED, FAILED => true
  | _, _ => false
  end.

(** The status texts, by kind, with the numbers they are formatted from. *)
Inductive text : Type :=
| NoText
| Waiting                                   (* set by [start] *)
| TimedOut (max_time : Q)
| Settling (elapsed : Q)
| StepApplied (measured : Q)
| Collecting (elapsed temp_change : Q) (points : nat)
| Tuned (K L T kp ki kd : Q)
| AnalysisError (e : string)
| Empirical (delta_T elapsed_step kp ki kd : Q)
| Defaults
| Applied (kp ki kd : Q)                    (* set by the worker *).

Record t : Type := mk {
  setpoint : Q;
  output_high : Q;
  output_low : Q;
  max_time : Q;
  min_change : Q;
  heating : bool;
  state : State;
  _start_time : Q;
  _current_output : Q;
  _initial_temp : option Q;
  _time_data : list Q;
  _temp_data : list Q;
  _step_start_time : Q;
  _step_applied : bool;
  _settle_wait : Q;
  kp : Q;
  ki : Q;
  kd : Q;
  dead_time : Q;
  time_constant : Q;
  message : text
}.

(** [PIDAutoTuner(setpoint, output_high, output_low, max_time, min_change,
    heating)]. *)
Definition init (setpoint output_high output_low max_time min_change : Q)
  (heating : bool) : t :=
  mk setpoint output_high output_low max_time min_change heating
     IDLE 0 0.0 None [] [] 0 false 5.0 0.0 0.0 0.0 0.0 0.0 NoText.

(** Field updates. *)
Definition set_state (x : State) (s : t) : t :=
  mk (setpoint s) (output_high s) (output_low s) (max_time s) (min_change s)
     (heating s) x (_start_time s) (_current_output s) (_initial_temp s)
     (_time_data s) (_temp_data s) (_step_start_time s) (_step_applied s)
     (_settle_wait s) (kp s) (ki s) (kd s) (dead_time s) (time_constant s)
     (message s).
Definition set_message (x : text) (s : t) : t :=
  mk (setpoint s) (output_high s) (output_low s) (max_time s) (min_change s)
     (heating s) (state s) (_start_time s) (_current_output s)
     (_initial_temp s) (_time_data s) (_temp_data s) (_step_start_time s)
     (_step_applied s) (_settle_wait s) (kp s) (ki s) (kd s) (dead_time s)
     (time_constant s) x.
Definition set_current_output (x : Q) (s : t) : t :=
  mk (setpoint s) (output_high s) (output_low s) (max_time s) (min_change s)
     (heating s) (state s) (_start_time s) x (_initial_temp s)
     (_time_data s) (_temp_data s) (_step_start_time s) (_step_applied s)
     (_settle_wait s) (kp s) (ki s) (kd s) (dead_time s) (time_constant s)
     (message s).
Definition set_gains (p i d : Q) (s : t) : t :=
  mk (setpoint s) (output_high s) (output_low s) (max_time s) (min_change s)
     (heating s) (state s) (_start_time s) (_current_output s)
     (_initial_temp s) (_time_data s) (_temp_data s) (_step_start_time s)
     (_step_applied s) (_settle_wait s) p i d (dead_time s)
     (time_constant s) (message s).
Definition set_dead_time (x : Q) (s : t) : t :=
  mk (setpoint s) (output_high s) (output_low s) (max_time s) (min_change s)
     (heating s) (state s) (_start_time s) (_current_output s)
     (_initial_temp s) (_time_data s) (_temp_data s) (_step_start_time s)
     (_step_applied s) (_settle_wait s) (kp s) (ki s) (kd s) x
     (time_constant s) (message s).
Definition set_time_constant (x : Q) (s : t) : t :=
  mk (setpoint s) (output_high s) (output_low s) (max_time s) (min_change s)
     (heating s) (state s) (_start_time s) (_current_output s)
     (_initial_temp s) (_time_data s) (_temp_data s) (_step_start_time s)
     (_step_applied s) (_settle_wait s) (kp s) (ki s) (kd s) (dead_time s)
     x (message s).
Definition apply_step (now measured : Q) (s : t) : t :=
  mk (setpoint s) (output_high s) (output_low s) (max_time s) (min_change s)
     (heating s) (state s) (_start_time s) (output_high s) (Some measured)
     (_time_data s) (_temp_data s) now true
     (_settle_wait s) (kp s) (ki s) (kd s) (dead_time s) (time_constant s)
     (StepApplied measured).
Definition add_sample (time temp : Q) (s : t) : t :=
  mk (setpoint s) (output_high s) (output_low s) (max_time s) (min_change s)
     (heating s) (state s) (_start_time s) (output_high s) (_initial_temp s)
     (_time_data s ++ [time]) (_temp_data s ++ [temp]) (_step_start_time s)
     (_step_applied s) (_settle_wait s) (kp s) (ki s) (kd s) (dead_time s)
     (time_constant s) (message s).

(** [start()] when the clock reads [now]. *)
Definition start (now : Q) (s : t) : t :=
  mk (setpoint s) (output_high s) (output_low s) (max_time s) (min_change s)
     (heating s) STEP_RESPONSE now 0.0 None [] [] 0 false
     (_settle_wait s) (kp s) (ki s) (kd s) (dead_time s) (time_constant s)
     Waiting.

Local Open Scope m_scope.

(** Division, raising [ZeroDivisionError] as Python does. *)
Definition div {S} (a b : Q) : M S Q :=
  if Qeq_bool b 0 then raise "ZeroDivisionError" else ret (a / b)%Q.

(** [l[i]], raising [IndexError]. *)
Definition index {S} (l : list Q) (i : nat) : M S Q :=
  match nth_error l i with
  | Some x => ret x
  | None => raise "IndexError"
  end.

(** Has the sample reached the target?  Upwards when heating, downwards
    when cooling. *)
Definition reached (heating : bool) (temp target : Q) : bool :=
  if heating then Qle_bool target temp else Qle_bool temp target.

(** One pass through the loop that looks for the two crossing times. *)
Definition crossing_step (heating : bool) (times temps : list Q)
  (target_283 target_632 : Q) (i : nat) (acc : option Q * option Q)
  : M t (option Q * option Q) :=
  temp <- index temps i ;;
  t_283 <- match fst acc with
           | None => if reached heating temp target_283
                     then (x <- index times i ;; ret (Some x))
                     else ret None
           | Some x => ret (Some x)
           end ;;
  t_632 <- match snd acc with
           | None => if reached heating temp target_632
                     then (x <- index times i ;; ret (Some x))
                     else ret None
           | Some x => ret (Some x)
           end ;;
  ret (t_283, t_632).

(** [for i in range(len(temps)): ...]. *)
Fixpoint crossing_loop (heating : bool) (times temps : list Q)
  (target_283 target_632 : Q) (range : list nat) (acc : option Q * option Q)
  : M t (option Q * option Q) :=
  match range with
  | [] => ret acc
  | i :: rest =>
      acc' <- crossing_step heating times temps target_283 target_632 i acc ;;
      crossing_loop heating times temps target_283 target_632 rest acc'
  end.

(** The temperature change seen and the two targets derived from it. *)
Definition delta_of (heating : bool) (T0 T_final : Q) : Q :=
  if heating then T_final - T0 else T0 - T_final.
Definition target_of (heating : bool) (T0 delta_T fraction : Q) : Q :=
  if heating then T0 + delta_T * fraction else T0 - delta_T * fraction.

(** From the identified [dead_time] and [time_constant] to the clamped
    Cohen-Coon gains and state [DONE]. *)
Definition cohen_coon (delta_T : Q) : M t unit :=
  s <- get ;;
  let delta_U := output_high s - output_low s in
  let K := delta_T / pymax delta_U 0.01 in
  let L := dead_time s in
  let T := time_constant s in
  r0 <- div L T ;;
  let r := if Qlt_bool r0 0.01 then 0.01 else r0 in
  inv_K <- div 1.0 K ;;
  T_over_L <- div T L ;;
  let kp0 := inv_K * T_over_L * (0.9 + r / 12.0) in
  ti <- div (L * (30.0 + 3.0 * r)) (9.0 + 20.0 * r) ;;
  td <- div (L * 4.0) (11.0 + 2.0 * r) ;;
  ki0 <- (if Qlt_bool 0 ti then div kp0 ti else ret 0) ;;
  let kd0 := kp0 * td in
  let kp1 := pymax 0.1 (pymin 15.0 kp0) in
  let ki1 := pymax 0.001 (pymin 1.0 ki0) in
  let kd1 := pymax 0.0 (pymin 15.0 kd0) in
  modify (set_gains kp1 ki1 kd1) ;;
  modify (set_state DONE) ;;
  modify (set_message (Tuned K L T kp1 ki1 kd1)).

(** The [try] block of [_analyze_response]. *)
Definition analyze_body : M t unit :=
  s <- get ;;
  if (length (_time_data s) <? 10)%nat then ret tt
  else
    match _initial_temp s with
    | None => ret tt
    | Some T0 =>
        let times := _time_data s in
        let temps := _temp_data s in
        T_final <- match temps with
                   | [] => raise "IndexError"
                   | _ => ret (last temps 0)
                   end ;;
        let delta_T := delta_of (heating s) T0 T_final in
        if Qlt_bool delta_T 0.5 then ret tt
        else
          let target_283 := target_of (heating s) T0 delta_T 0.283 in
          let target_632 := target_of (heating s) T0 delta_T 0.632 in
          found <- crossing_loop (heating s) times temps target_283 target_632
                     (seq 0 (length temps)) (None, None) ;;
          match found with
          | (Some t_283, Some t_632) =>
              let tc := pymax 5.0 (1.5 * (t_632 - t_283)) in
              modify (set_time_constant tc) ;;
              modify (set_dead_time (pymax 1.0 (t_632 - tc))) ;;
              cohen_coon delta_T
          | (Some t_283, None) =>
              let tau_est := t_283 * 2.5 in
              let L_est := t_283 * 0.5 in
              modify (set_dead_time (pymax 1.0 L_est)) ;;
              modify (set_time_constant (pymax 5.0 tau_est)) ;;
              cohen_coon delta_T
          | (None, _) => ret tt
          end
    end.

(** [_analyze_response]: any exception ends the session in [FAILED]. *)
Definition _analyze_response : M t unit :=
  try_except analyze_body
    (fun e => modify (set_state FAILED) ;;
              modify (set_message (AnalysisError e))).

(** [_use_fallback_params(last_temp)]. *)
Definition _use_fallback_params (last_temp : Q) : M t unit :=
  s <- get ;;
  let defaults :=
    modify (set_gains 1.5 0.02 2.0) ;;
    modify (set_state DONE) ;;
    modify (set_message Defaults) in
  match _initial_temp s with
  | Some T0 =>
      if (5 <? length (_time_data s))%nat
      then
        let delta_T := pyabs (T0 - last_temp) in
        let elapsed_step := last (_time_data s) 60 in
        let delta_U := output_high s in
        if Qlt_bool 0.5 delta_T && Qlt_bool 10 elapsed_step
        then
          let K := delta_T / pymax delta_U 0.01 in
          let T_est := elapsed_step * 0.8 in
          let L_est := elapsed_step * 0.1 in
          q1 <- div (0.9 * T_est) (K * L_est) ;;
          let kp1 := pymax 0.3 (pymin 5.0 q1) in
          q2 <- div kp1 (T_est * 1.2) ;;
          let ki1 := pymax 0.005 (pymin 0.5 q2) in
          let kd1 := pymax 0.0 (pymin 5.0 (kp1 * L_est * 0.5)) in
          modify (set_gains kp1 ki1 kd1) ;;
          modify (set_state DONE) ;;
          modify (set_message (Empirical delta_T elapsed_step kp1 ki1 kd1))
        else defaults
      else defaults
  | None => defaults
  end.

(** The end of the timeout branch of [step]: mark the session failed,
    then compute fallback gains. *)
Definition timeout_fallback (measured : Q) : M t Q :=
  s <- get ;;
  put (set_message (TimedOut (max_time s)) (set_state FAILED s)) ;;
  _use_fallback_params measured ;;
  ret 0.0.

(** The branch of [step] taken once the global timeout has passed. *)
Definition step_timeout (measured : Q) : M t Q :=
  s <- get ;;
  if (20 <? length (_time_data s))%nat
  then
    (_analyze_response ;;
     s' <- get ;;
     if State_eqb (state s') DONE then ret 0.0
     else timeout_fallback measured)
  else timeout_fallback measured.

(** The collecting phase of [step]. *)
Definition step_collect (now elapsed measured : Q) : M t Q :=
  s <- get ;;
  let time := now - _step_start_time s in
  put (add_sample time measured s) ;;
  T0 <- match _initial_temp s with
        | Some x => ret x
        | None => raise "TypeError"
        end ;;
  let temp_change := pyabs (T0 - measured) in
  let points := length (_time_data s ++ [time]) in
  modify (set_message (Collecting elapsed temp_change points)) ;;
  let finish :=
    _analyze_response ;;
    s' <- get ;;
    if State_eqb (state s') DONE then ret 0.0
    else ret (_current_output s') in
  if Qle_bool (min_change s) temp_change && (30 <=? points)%nat
  then finish
  else if Qle_bool (min_change s * 0.6) temp_change && (60 <=? points)%nat
  then finish
  else (s' <- get ;; ret (_current_output s')).

(** [step(measured)] when the clock reads [now] (one reading for the
    whole call). *)
Definition step (now measured : Q) : M t Q :=
  s <- get ;;
  let elapsed := now - _start_time s in
  if Qlt_bool (max_time s) elapsed then step_timeout measured
  else if State_eqb (state s) STEP_RESPONSE
  then
    if negb (_step_applied s)
    then
      if Qlt_bool elapsed (_settle_wait s)
      then
        put (set_message (Settling elapsed)
               (set_current_output (output_low s) s)) ;;
        ret (output_low s)
      else
        (put (apply_step now measured s) ;; ret (output_high s))
    else step_collect now elapsed measured
  else ret 0.0.

End AutoTuner.

(* ===================================================================== *)
(** * The hardware worker (hardware_worker.py)                            *)
(* ===================================================================== *)

Module Worker.

Local Open Scope Q_scope.

(** The latest values of one temperature sensor.  The program keeps the
    captured text; [None] stands for ['--'] and for text that [float]
    rejects, which the fusion skips alike. *)
Record sensor : Type := mkSensor {
  hot : option Q;
  ds18b20 : option Q;
  cold : option Q
}.

Definition no_reading : sensor := mkSensor None None None.

(** The control parameters set through [_apply_params]. *)
Record params : Type := mkParams {
  target_temp : Q;
  safety_temp : Q;
  kp : Q;
  ki : Q;
  kd : Q;
  max_current : Q;
  max_voltage : Q;
  control_interval : Q;
  fusion_mode : Z;
  control_mode : Z
}.

(** A [params] dictionary: each key may be absent. *)
Record params_dict : Type := mkDict {
  d_target_temp : option Q;
  d_safety_temp : option Q;
  d_kp : option Q;
  d_ki : option Q;
  d_kd : option Q;
  d_max_current : option Q;
  d_max_voltage : option Q;
  d_control_interval : option Q;
  d_fusion_mode : option Z;
  d_control_mode : option Z
}.

(** The signals sent to the user interface. *)
Inductive signal : Type :=
| power_connect_result (ok : bool)
| power_disconnected
| control_start_result (ok : bool)
| control_stopped_sig
| control_status_sig (measured target error output elapsed : Q)
    (is_auto_tuning : bool)
| auto_tune_start_result (ok : bool)
| auto_tune_msg_sig (msg : AutoTuner.text)
| auto_tune_done_sig (kp ki kd : Q) (msg : AutoTuner.text)
| auto_tune_failed_sig (msg : AutoTuner.text)
| safety_triggered_sig (measured limit : Q) (count : Z)
| safety_recovered_sig (measured : Q).

(** The timers, by whether they are running. *)
Record timers : Type := mkTimers {
  poll_timer : bool;
  control_timer : bool;
  safety_recovery_timer : bool;
  restart_shots : nat;  (* pending [singleShot(1000, _auto_restart_tune)] *)
  start_shots : nat     (* pending [singleShot(500, _auto_start_after_tune)] *)
}.

Record t : Type := mk {
  power : option Driver.t;
  temp_connected_1 : bool;   (* [_temp_running_1] and a serial port held *)
  temp_connected_2 : bool;
  temp_data_1 : sensor;
  temp_data_2 : sensor;
  pid : PID.t;
  pid_enabled : bool;
  auto_tuning : bool;
  auto_tuner : option AutoTuner.t;
  safety_triggered : bool;
  safety_stop_count : Z;
  control_start_time : Q;
  config : params;
  auto_tune_msg : AutoTuner.text;
  clock : timers;
  signals : list signal      (* emitted, newest first *)
}.

(** [HardwareWorker()] after [startup()]. *)
Definition init : t :=
  mk None false false no_reading no_reading PID.default false false None
     false 0 0.0
     (mkParams 15.0 30.0 1.0 0.05 0.5 7.0 12.0 1.0 0 0)
     AutoTuner.NoText (mkTimers false false false 0 0) [].

(** Field updates. *)
Definition set_power (x : option Driver.t) (w : t) : t :=
  mk x (temp_connected_1 w) (temp_connected_2 w) (temp_data_1 w)
     (temp_data_2 w) (pid w) (pid_enabled w) (auto_tuning w) (auto_tuner w)
     (safety_triggered w) (safety_stop_count w) (control_start_time w)
     (config w) (auto_tune_msg w) (clock w) (signals w).
Definition set_sensors (c1 c2 : bool) (d1 d2 : sensor) (w : t) : t :=
  mk (power w) c1 c2 d1 d2 (pid w) (pid_enabled w) (auto_tuning w)
     (auto_tuner w) (safety_triggered w) (safety_stop_count w)
     (control_start_time w) (config w) (auto_tune_msg w) (clock w)
     (signals w).
Definition set_pid (x : PID.t) (w : t) : t :=
  mk (power w) (temp_connected_1 w) (temp_connected_2 w) (temp_data_1 w)
     (temp_data_2 w) x (pid_enabled w) (auto_tuning w) (auto_tuner w)
     (safety_triggered w) (safety_stop_count w) (control_start_time w)
     (config w) (auto_tune_msg w) (clock w) (signals w).
Definition set_enabled (enabled tuning : bool) (w : t) : t :=
  mk (power w) (temp_connected_1 w) (temp_connected_2 w) (temp_data_1 w)
     (temp_data_2 w) (pid w) enabled tuning (auto_tuner w)
     (safety_triggered w) (safety_stop_count w) (control_start_time w)
     (config w) (auto_tune_msg w) (clock w) (signals w).
Definition set_auto_tuner (x : option AutoTuner.t) (w : t) : t :=
  mk (power w) (temp_connected_1 w) (temp_connected_2 w) (temp_data_1 w)
     (temp_data_2 w) (pid w) (pid_enabled w) (auto_tuning w) x
     (safety_triggered w) (safety_stop_count w) (control_start_time w)
     (config w) (auto_tune_msg w) (clock w) (signals w).
Definition set_safety (triggered : bool) (count : Z) (w : t) : t :=
  mk (power w) (temp_connected_1 w) (temp_connected_2 w) (temp_data_1 w)
     (temp_data_2 w) (pid w) (pid_enabled w) (auto_tuning w) (auto_tuner w)
     triggered count (control_start_time w) (config w) (auto_tune_msg w)
     (clock w) (signals w).
Definition set_start_time (x : Q) (w : t) : t :=
  mk (power w) (temp_connected_1 w) (temp_connected_2 w) (temp_data_1 w)
     (temp_data_2 w) (pid w) (pid_enabled w) (auto_tuning w) (auto_tuner w)
     (safety_triggered w) (safety_stop_count w) x (config w)
     (auto_tune_msg w) (clock w) (signals w).
Definition set_config (x : params) (w : t) : t :=
  mk (power w) (temp_connected_1 w) (temp_connected_2 w) (temp_data_1 w)
     (temp_data_2 w) (pid w) (pid_enabled w) (auto_tuning w) (auto_tuner w)
     (safety_triggered w) (safety_stop_count w) (control_start_time w) x
     (auto_tune_msg w) (clock w) (signals w).
Definition set_auto_tune_msg (x : AutoTuner.text) (w : t) : t :=
  mk (power w) (temp_connected_1 w) (temp_connected_2 w) (temp_data_1 w)
     (temp_data_2 w) (pid w) (pid_enabled w) (auto_tuning w) (auto_tuner w)
     (safety_triggered w) (safety_stop_count w) (control_start_time w)
     (config w) x (clock w) (signals w).
Definition set_clock (x : timers) (w : t) : t :=
  mk (power w) (temp_connected_1 w) (temp_connected_2 w) (temp_data_1 w)
     (temp_data_2 w) (pid w) (pid_enabled w) (auto_tuning w) (auto_tuner w)
     (safety_triggered w) (safety_stop_count w) (control_start_time w)
     (config w) (auto_tune_msg w) x (signals w).
Definition emit (x : signal) (w : t) : t :=
  mk (power w) (temp_connected_1 w) (temp_connected_2 w) (temp_data_1 w)
     (temp_data_2 w) (pid w) (pid_enabled w) (auto_tuning w) (auto_tuner w)
     (safety_triggered w) (safety_stop_count w) (control_start_time w)
     (config w) (auto_tune_msg w) (clock w) (x :: signals w).

Definition run_poll (b : bool) (c : timers) : timers :=
  mkTimers b (control_timer c) (safety_recovery_timer c) (restart_shots c)
    (start_shots c).
Definition run_control (b : bool) (c : timers) : timers :=
  mkTimers (poll_timer c) b (safety_recovery_timer c) (restart_shots c)
    (start_shots c).
Definition run_recovery (b : bool) (c : timers) : timers :=
  mkTimers (poll_timer c) (control_timer c) b (restart_shots c)
    (start_shots c).
Definition set_restart_shots (n : nat) (c : timers) : timers :=
  mkTimers (poll_timer c) (control_timer c) (safety_recovery_timer c) n
    (start_shots c).
Definition set_start_shots (n : nat) (c : timers) : timers :=
  mkTimers (poll_timer c) (control_timer c) (safety_recovery_timer c)
    (restart_shots c) n.
Definition add_restart_shot (c : timers) : timers :=
  set_restart_shots (S (restart_shots c)) c.
Definition take_restart_shot (c : timers) : timers :=
  set_restart_shots (pred (restart_shots c)) c.
Definition add_start_shot (c : timers) : timers :=
  set_start_shots (S (start_shots c)) c.
Definition take_start_shot (c : timers) : timers :=
  set_start_shots (pred (start_shots c)) c.

(** ** Sensor fusion *)

Definition sources (w : t) : list sensor :=
  if (fusion_mode (config w) =? 1)%Z
  then (if temp_connected_1 w then [temp_data_1 w] else [])
  else if (fusion_mode (config w) =? 2)%Z
  then (if temp_connected_2 w then [temp_data_2 w] else [])
  else (if temp_connected_1 w then [temp_data_1 w] else [])
       ++ (if temp_connected_2 w then [temp_data_2 w] else []).

Definition values_of (key : sensor -> option Q) (srcs : list sensor)
  : list Q :=
  flat_map (fun src => match key src with
                       | Some v => [v]
                       | None => []
                       end) srcs.

(** [sum(values) / len(values)]. *)
Definition mean (values : list Q) : Q :=
  fold_left Qplus values 0 / inject_Z (Z.of_nat (length values)).

(** The loop over the priority list: the first key with a value wins. *)
Fixpoint first_mean (keys : list (sensor -> option Q)) (srcs : list sensor)
  : option Q :=
  match keys with
  | [] => None
  | key :: rest =>
      match values_of key srcs with
      | [] => first_mean rest srcs
      | values => Some (mean values)
      end
  end.

Definition _get_fused_temperature (w : t) : option Q :=
  match sources w with
  | [] => None
  | srcs => first_mean [hot; ds18b20; cold] srcs
  end.

Local Open Scope m_scope.

(** ** Calls on the power supply *)

Definition power_connected (w : t) : bool :=
  match power w with
  | Some d => Driver.is_connected d
  | None => false
  end.

(** A call on [self.power]. *)
Definition on_power {A} (c : M Driver.t A) : M t A :=
  fun w =>
    match power w with
    | None => Raises "AttributeError" w
    | Some d =>
        match c d with
        | Returns a d' => Returns a (set_power (Some d') w)
        | Raises e d' => Raises e (set_power (Some d') w)
        | Blocks d' => Blocks (set_power (Some d') w)
        end
    end.

(** [if self.power and self.power.is_connected: try: self.power.set_current(x)
    except Exception: pass]. *)
Definition guarded_set_current (x : Q) : M t unit :=
  w <- get ;;
  if power_connected w
  then try_except (_ <- on_power (Driver.set_current x) ;; ret tt)
         (fun _ => ret tt)
  else ret tt.

(** [try: self.power.set_voltage(x) except Exception: print(...)]. *)
Definition try_set_voltage (x : Q) : M t unit :=
  try_except (_ <- on_power (Driver.set_voltage x) ;; ret tt)
    (fun _ => ret tt).

(** ** Parameters *)

Definition pick {A} (o : option A) (d : A) : A :=
  match o with
  | Some x => x
  | None => d
  end.

Definition _apply_params (p : params_dict) (w : t) : t :=
  let c := config w in
  set_config
    (mkParams (pick (d_target_temp p) (target_temp c))
       (pick (d_safety_temp p) (safety_temp c))
       (pick (d_kp p) (kp c)) (pick (d_ki p) (ki c)) (pick (d_kd p) (kd c))
       (pick (d_max_current p) (max_current c))
       (pick (d_max_voltage p) (max_voltage c))
       (pick (d_control_interval p) (control_interval c))
       (pick (d_fusion_mode p) (fusion_mode c))
       (pick (d_control_mode p) (control_mode c))) w.

Definition _get_current_params (w : t) : params_dict :=
  let c := config w in
  mkDict (Some (target_temp c)) (Some (safety_temp c)) (Some (kp c))
    (Some (ki c)) (Some (kd c)) (Some (max_current c))
    (Some (max_voltage c)) (Some (control_interval c))
    (Some (fusion_mode c)) (Some (control_mode c)).

(** ** Safety supervision *)

Definition _safety_stop (measured limit : Q) : M t unit :=
  modify (fun w => set_safety true (safety_stop_count w + 1)%Z w) ;;
  modify (set_enabled false false) ;;
  modify (fun w => set_clock (run_control false (clock w)) w) ;;
  guarded_set_current 0.0 ;;
  w <- get ;;
  modify (emit (safety_triggered_sig measured limit (safety_stop_count w))) ;;
  modify (fun w => set_clock (run_recovery true (clock w)) w).

Definition _check_safety_recovery : M t unit :=
  w <- get ;;
  match _get_fused_temperature w with
  | None => ret tt
  | Some measured =>
      if Qlt_bool measured (safety_temp (config w) - 2.0)
      then
        modify (fun w => set_clock (run_recovery false (clock w)) w) ;;
        modify (fun w => set_safety false (safety_stop_count w) w) ;;
        modify (emit (safety_recovered_sig measured)) ;;
        modify (fun w => set_clock (add_restart_shot (clock w)) w)
      else ret tt
  end.

(** ** Auto-tuning *)

(** [self._kp, self._ki, self._kd = kp, ki, kd]. *)
Definition set_gains (p i d : Q) (c : params) : params :=
  mkParams (target_temp c) (safety_temp c) p i d (max_current c)
    (max_voltage c) (control_interval c) (fusion_mode c) (control_mode c).

Definition _on_auto_tune_done : M t unit :=
  modify (set_enabled false false) ;;
  modify (fun w => set_clock (run_control false (clock w)) w) ;;
  guarded_set_current 0.0 ;;
  w <- get ;;
  match auto_tuner w with
  | None => raise "AttributeError"
  | Some tuner =>
      modify (fun w => set_config
                         (set_gains (AutoTuner.kp tuner) (AutoTuner.ki tuner)
                            (AutoTuner.kd tuner) (config w)) w) ;;
      modify (set_auto_tune_msg (AutoTuner.message tuner)) ;;
      modify (emit (auto_tune_done_sig (AutoTuner.kp tuner)
                      (AutoTuner.ki tuner) (AutoTuner.kd tuner)
                      (AutoTuner.message tuner)))
  end.

Definition _on_auto_tune_failed : M t unit :=
  modify (set_enabled false false) ;;
  modify (fun w => set_clock (run_control false (clock w)) w) ;;
  guarded_set_current 0.0 ;;
  w <- get ;;
  match auto_tuner w with
  | None => raise "AttributeError"
  | Some tuner =>
      if AutoTuner.State_eqb (AutoTuner.state tuner) AutoTuner.DONE
      then _on_auto_tune_done
      else
        (modify (set_auto_tune_msg (AutoTuner.message tuner)) ;;
         modify (emit (auto_tune_failed_sig (AutoTuner.message tuner))))
  end.

(** A call on [self._auto_tuner]. *)
Definition on_tuner {A} (c : M AutoTuner.t A) : M t A :=
  fun w =>
    match auto_tuner w with
    | None => Raises "AttributeError" w
    | Some a =>
        match c a with
        | Returns x a' => Returns x (set_auto_tuner (Some a') w)
        | Raises e a' => Raises e (set_auto_tuner (Some a') w)
        | Blocks a' => Blocks (set_auto_tuner (Some a') w)
        end
    end.

(** ** The control tick *)

Definition set_reverse (b : bool) (p : PID.t) : PID.t :=
  PID.mk (PID.kp p) (PID.ki p) (PID.kd p) (PID.output_min p)
    (PID.output_max p) (PID._integral p) (PID._last_error p)
    (PID._last_derivative p) (PID._output p) (PID._last_time p) b
    (PID.derivative_filter p) (PID.output_rate_limit p).

(** The end of a tick that produced [output]: command the supply and
    report. *)
Definition actuate (now measured target output : Q) : M t unit :=
  guarded_set_current output ;;
  modify (fun w =>
            emit (control_status_sig measured target (measured - target)
                    output (now - control_start_time w) (auto_tuning w)) w).

(** [_control_loop] when the clock reads [now]. *)
Definition _control_loop (now : Q) : M t unit :=
  w <- get ;;
  if negb (pid_enabled w) then ret tt
  else
    match _get_fused_temperature w with
    | None => ret tt
    | Some measured =>
        if Qlt_bool (safety_temp (config w)) measured
        then _safety_stop measured (safety_temp (config w))
        else
          let target := target_temp (config w) in
          let is_heating := (control_mode (config w) =? 1)%Z in
          modify (fun w => set_pid (set_reverse is_heating (pid w)) w) ;;
          w <- get ;;
          match auto_tuning w, auto_tuner w with
          | true, Some _ =>
              output <- on_tuner (AutoTuner.step now measured) ;;
              w <- get ;;
              let tuner_state :=
                match auto_tuner w with
                | Some a => (AutoTuner.state a, AutoTuner.message a)
                | None => (AutoTuner.IDLE, AutoTuner.NoText)
                end in
              modify (set_auto_tune_msg (snd tuner_state)) ;;
              modify (emit (auto_tune_msg_sig (snd tuner_state))) ;;
              if AutoTuner.State_eqb (fst tuner_state) AutoTuner.DONE
              then _on_auto_tune_done
              else if AutoTuner.State_eqb (fst tuner_state) AutoTuner.FAILED
              then _on_auto_tune_failed
              else actuate now measured target output
          | _, _ =>
              let (output, pid') :=
                PID.compute now target measured (pid w) in
              modify (set_pid pid') ;;
              actuate now measured target output
          end
    end.

(** ** Starting and stopping *)

Definition configure_pid (w : t) : t :=
  let c := config w in
  let p := pid w in
  set_pid
    (PID.reset
       (PID.mk (kp c) (ki c) (kd c) (PID.output_min p) (max_current c)
          (PID._integral p) (PID._last_error p) (PID._last_derivative p)
          (PID._output p) (PID._last_time p)
          ((control_mode c) =? 1)%Z
          (PID.derivative_filter p) (PID.output_rate_limit p))) w.

Definition start_control (now : Q) (p : params_dict) : M t unit :=
  w <- get ;;
  if negb (power_connected w)
  then modify (emit (control_start_result false))
  else
    match _get_fused_temperature w with
    | None => modify (emit (control_start_result false))
    | Some _ =>
        modify (_apply_params p) ;;
        modify configure_pid ;;
        w <- get ;;
        try_set_voltage (max_voltage (config w)) ;;
        modify (set_enabled true false) ;;
        modify (fun w => set_safety false (safety_stop_count w) w) ;;
        modify (set_start_time now) ;;
        modify (fun w => set_clock (run_control true (clock w)) w) ;;
        modify (emit (control_start_result true))
    end.

Definition start_auto_tune (now : Q) (p : params_dict) : M t unit :=
  w <- get ;;
  if negb (power_connected w)
  then modify (emit (auto_tune_start_result false))
  else
    match _get_fused_temperature w with
    | None => modify (emit (auto_tune_start_result false))
    | Some _ =>
        modify (_apply_params p) ;;
        w <- get ;;
        let c := config w in
        modify (set_auto_tuner
                  (Some (AutoTuner.start now
                           (AutoTuner.init (target_temp c) (max_current c)
                              0.0 300 2.0 (control_mode c =? 1)%Z)))) ;;
        try_set_voltage (max_voltage c) ;;
        modify (set_enabled true true) ;;
        modify (fun w => set_safety false (safety_stop_count w) w) ;;
        modify (set_start_time now) ;;
        modify (fun w => set_clock (run_control true (clock w)) w) ;;
        modify (emit (auto_tune_start_result true))
    end.

(** The single shot armed by the recovery check fires. *)
Definition _auto_restart_tune (now : Q) : M t unit :=
  modify (fun w => set_clock (take_restart_shot (clock w)) w) ;;
  w <- get ;;
  start_auto_tune now (_get_current_params w).

Definition _do_stop_control : M t unit :=
  modify (set_enabled false false) ;;
  modify (fun w => set_clock (run_recovery false
                                (run_control false (clock w))) w) ;;
  guarded_set_current 0.0.

Definition stop_control : M t unit :=
  _do_stop_control ;;
  modify (emit control_stopped_sig).

(** [connect_power]: a new driver replaces the old one; [line] is [None]
    when the port cannot be opened. *)
Definition connect_power (address : Z)
  (line : option (list ModbusRTU.attempt)) : M t unit :=
  match line with
  | Some l =>
      modify (set_power (Some (Driver.connected address l))) ;;
      modify (fun w => set_clock (run_poll true (clock w)) w) ;;
      modify (emit (power_connect_result true))
  | None =>
      modify (set_power None) ;;
      modify (emit (power_connect_result false))
  end.

Definition _do_disconnect_power : M t unit :=
  modify (fun w => set_clock (run_poll false (clock w)) w) ;;
  modify (set_power None).

Definition disconnect_power : M t unit :=
  w <- get ;;
  (if pid_enabled w then _do_stop_control else ret tt) ;;
  _do_disconnect_power ;;
  modify (emit power_disconnected).

Definition update_params (p : params_dict) : M t unit :=
  modify (_apply_params p).

(** [apply_tune]: take over the gains of a finished session and arm the
    delayed start of control. *)
Definition apply_tune : M t unit :=
  w <- get ;;
  match auto_tuner w with
  | Some tuner =>
      if AutoTuner.State_eqb (AutoTuner.state tuner) AutoTuner.DONE
      then
        modify (fun w => set_config
                           (set_gains (AutoTuner.kp tuner)
                              (AutoTuner.ki tuner) (AutoTuner.kd tuner)
                              (config w)) w) ;;
        modify (set_auto_tune_msg
                  (AutoTuner.Applied (AutoTuner.kp tuner)
                     (AutoTuner.ki tuner) (AutoTuner.kd tuner))) ;;
        modify (emit (auto_tune_done_sig (AutoTuner.kp tuner)
                        (AutoTuner.ki tuner) (AutoTuner.kd tuner)
                        (AutoTuner.Applied (AutoTuner.kp tuner)
                           (AutoTuner.ki tuner) (AutoTuner.kd tuner)))) ;;
        modify (fun w => set_clock (add_start_shot (clock w)) w)
      else ret tt
  | None => ret tt
  end.

(** The single shot armed by [apply_tune] fires. *)
Definition _auto_start_after_tune (now : Q) : M t unit :=
  modify (fun w => set_clock (take_start_shot (clock w)) w) ;;
  w <- get ;;
  start_control now (_get_current_params w).

(** The safety tick hands [set_current(0.0)] to the driver held before
    the tick: the driver afterwards is the one that call leaves. *)
Definition zero_current_commanded (w w' : t) : Prop :=
  exists d, power w = Some d
         /\ power w' = Some (final (Driver.set_current 0.0 d)).

End Worker.

(** The payload read two bytes at a time: the structural twin of
    [ModbusResponse.registers], used to reason about it. *)
Fixpoint be_pairs (d : list byte) : list Z :=
  match d with
  | hi :: lo :: rest => (256 * byte_val hi + byte_val lo) :: be_pairs rest
  | _ => []
  end.

(** A response that carries the payload [d]. *)
Definition response_with (d : list byte) : ModbusResponse.t :=
  ModbusResponse.mk 1 3 d false 0.

(** The controller of the first-call example: [kp=1, ki=0, kd=0], the
    default bounds [[0, 7]], filter and rate limit, not reversed. *)
Definition unit_gain_controller : PID.t := PID.init 1 0 0 0.0 7.0.

(** The same controller with another [output_rate_limit]. *)
Definition with_rate_limit (limit : Q) (p : PID.t) : PID.t :=
  PID.mk (PID.kp p) (PID.ki p) (PID.kd p) (PID.output_min p)
    (PID.output_max p) (PID._integral p) (PID._last_error p)
    (PID._last_derivative p) (PID._output p) (PID._last_time p)
    (PID.reverse p) (PID.derivative_filter p) limit.

(** The settings of a controller, without its runtime state. *)
Definition pid_settings (p : PID.t) : Q * Q * Q * Q * Q * bool * Q * Q :=
  (PID.kp p, PID.ki p, PID.kd p, PID.output_min p, PID.output_max p,
   PID.reverse p, PID.derivative_filter p, PID.output_rate_limit p).

(** ** Line behaviours used to state the transport properties *)

(** An attempt that the transport rejects: a failed write, no reply, a
    reply shorter than the minimum, or one whose checksum is wrong. *)
Definition fails (a : ModbusRTU.attempt) : bool :=
  match a with
  | ModbusRTU.WriteFault => true
  | ModbusRTU.NoReply => true
  | ModbusRTU.Reply arrived =>
      (length arrived <? ModbusRTU.MIN_RESPONSE_LENGTH)%nat
      || negb (CRC16.verify arrived)
  end.

(** A valid reply: long enough, checksum right, error bit clear. *)
Definition good_reply (arrived : list byte) : bool :=
  (ModbusRTU.MIN_RESPONSE_LENGTH <=? length arrived)%nat
  && CRC16.verify arrived
  && (Z.land (byte_val (nth 1 arrived x00)) 0x80 =? 0).

(** The successful parse of a reply. *)
Definition parsed (arrived : list byte) : ModbusResponse.t :=
  ModbusResponse.mk (byte_val (nth 0 arrived x00))
    (byte_val (nth 1 arrived x00))
    (slice arrived 2 (length arrived - 2)) false 0.

(** The sealed form of a frame given by the values of its bytes. *)
Definition sealed (l : list Z) : list byte :=
  match CRC16.append (map byte_of_Z l) with
  | Some frame => frame
  | None => []
  end.

(** Read one holding register at address 0 of station 1, and a reply
    carrying the value 42. *)
Definition sample_request : list byte := map byte_of_Z [1; 3; 0; 0; 0; 1].
Definition sample_reply : list byte := sealed [1; 3; 2; 0; 42].





(** ** The timeout branch as the specification words it

    Analysis is attempted "if at least 20 samples were collected"; the
    rest is the program's.  Compared with [AutoTuner.step_timeout]. *)
Definition step_timeout_as_specified (measured : Q)
  : M AutoTuner.t Q :=
  bind get (fun s =>
    if (20 <=? length (AutoTuner._time_data s))%nat
    then
      bind AutoTuner._analyze_response (fun _ =>
      bind get (fun s' =>
        if AutoTuner.State_eqb (AutoTuner.state s') AutoTuner.DONE
        then ret 0.0%Q
        else AutoTuner.timeout_fallback measured))
    else AutoTuner.timeout_fallback measured).

(** A session as the worker starts it (target 15, high output 7, timeout
    300 s, minimum change 2), started at time 0. *)
Definition started_session : AutoTuner.t :=
  AutoTuner.start 0 (AutoTuner.init 15 7 0.0 300 2.0 false).

(** Feed a session the ticks [(now, measured)] in order. *)
Fixpoint feed (ticks : list (Q * Q)) (s : AutoTuner.t) : AutoTuner.t :=
  match ticks with
  | [] => s
  | (now, measured) :: rest =>
      feed rest (final (AutoTuner.step now measured s))
  end.

(** Ticks every 14 s after the step: tick [k] at time [5 + 14 k] reads
    [25 - k/2] degrees. *)
Definition cooling_ticks (n : nat) : list (Q * Q) :=
  map (fun k => (5 + 14 * inject_Z (Z.of_nat k),
                 25 - inject_Z (Z.of_nat k) / 2)%Q) (seq 1 n).

(** The step is applied at time 5 with 25 degrees, then [n] samples are
    collected. *)
Definition session_with (n : nat) : AutoTuner.t :=
  feed ((5, 25)%Q :: cooling_ticks n) started_session.

(** A computation that always comes back: it returns or raises, it
    never waits for ever. *)
Definition never_blocks {S A} (c : M S A) : Prop :=
  forall s, match c s with
            | Blocks _ => False
            | _ => True
            end.

(** ** Scenarios and observations for the safety supervision *)

(** The driver after a guarded [set_current(x)]: the call is made only
    on a connected supply. *)
Definition power_after (x : Q) (w : Worker.t) : option Driver.t :=
  if Worker.power_connected w
  then option_map (fun d => final (Driver.set_current x d)) (Worker.power w)
  else Worker.power w.

(** What the sensor listeners store between two timer ticks. *)
Definition reading : Type := bool * bool * Worker.sensor * Worker.sensor.

Definition store (r : reading) (w : Worker.t) : Worker.t :=
  let '(c1, c2, d1, d2) := r in Worker.set_sensors c1 c2 d1 d2 w.



(** The only sensor connected reads [x] at its hot tap. *)
Definition hot_reading (x : Q) : reading :=
  (true, false, Worker.mkSensor (Some x) None None, Worker.no_reading).

(** ** Histories of the worker

    What can happen to the worker, one event at a time: the requests of
    the user interface and of the bridge, the listeners storing sensor
    values, and the timers firing. *)
Inductive event : Type :=
| connects (address : Z) (line : option (list ModbusRTU.attempt))
| disconnects
| senses (r : reading)
| updates (p : Worker.params_dict)
| starts_control (now : Q) (p : Worker.params_dict)
| stops_control
| starts_auto_tune (now : Q) (p : Worker.params_dict)
| applies_tune
| control_tick (now : Q)
| recovery_tick
| restart_shot (now : Q)
| start_shot (now : Q).

Definition handle (e : event) : M Worker.t unit :=
  match e with
  | connects address line => Worker.connect_power address line
  | disconnects => Worker.disconnect_power
  | senses r => modify (store r)
  | updates p => Worker.update_params p
  | starts_control now p => Worker.start_control now p
  | stops_control => Worker.stop_control
  | starts_auto_tune now p => Worker.start_auto_tune now p
  | applies_tune => Worker.apply_tune
  | control_tick now => Worker._control_loop now
  | recovery_tick => Worker._check_safety_recovery
  | restart_shot now =>
      bind get (fun w =>
        match Worker.restart_shots (Worker.clock w) with
        | O => ret tt
        | S _ => Worker._auto_restart_tune now
        end)
  | start_shot now =>
      bind get (fun w =>
        match Worker.start_shots (Worker.clock w) with
        | O => ret tt
        | S _ => Worker._auto_start_after_tune now
        end)
  end.

(** The events in order; a handler that raises is logged by Qt and the
    next event is handled, a handler that hangs ends the history. *)
Fixpoint unfold_history (history : list event) : M Worker.t unit :=
  match history with
  | [] => ret tt
  | e :: rest =>
      bind (try_except (handle e) (fun _ => ret tt)) (fun _ =>
      unfold_history rest)
  end.

(** The worker after a history that begins at start-up. *)
Definition after (history : list event) : Worker.t :=
  final (unfold_history history Worker.init).

(** A dictionary without keys: nothing changes. *)
Definition no_changes : Worker.params_dict :=
  Worker.mkDict None None None None None None None None None None.


(** Control runs on a connected supply that answers, and the sensor
    reads 35 degrees. *)
Definition controlling_at_35 : list event :=
  [connects 1 (Some [ModbusRTU.Reply (sealed [1; 6; 5; 0; 46; 224]);
                     ModbusRTU.Reply (sealed [1; 6; 5; 1; 0; 0])]);
   senses (hot_reading 25); starts_control 0 no_changes;
   senses (hot_reading 35)].

(** The request that writes 0 mA to the set-current register of the
    station [address]. *)
Definition zero_current_request (address : Z) : list byte :=
  [byte_of_Z address; x06; x05; x01; x00; x00].

(** The log of written frames holds [frame] on top of [before], possibly
    followed by later frames. *)
Definition wrote_after (frame : list byte) (before : list (list byte))
  (m : ModbusRTU.t) : Prop :=
  exists extra, ModbusRTU.written m = extra ++ frame :: before.

(** The same, for the transport held by a driver. *)
Definition driver_wrote_after (frame : list byte)
  (before : list (list byte)) (d : Driver.t) : Prop :=
  exists m, Driver.modbus d = Some m /\ wrote_after frame before m.

(** The two control flags agree: auto-tuning runs only while control is
    enabled. *)
Definition flags_agree (w : Worker.t) : Prop :=
  Worker.auto_tuning w = true -> Worker.pid_enabled w = true.

(** A computation that keeps a property of the state, however it
    ends. *)
Definition keeps {S A} (I : S -> Prop) (c : M S A) : Prop :=
  forall s, I s -> I (final (c s)).

(* ===================================================================== *)
(** * Further definitions: the checksum on differences                    *)
(* ===================================================================== *)

(** The values [0 .. 255]. *)
Definition byte_values : list Z := map Z.of_nat (seq 0 256).

(** How the difference (bitwise exclusive or) of two checksum registers
    moves when the two runs read bytes that differ by [e]. *)
Definition diff_step (d e : Z) : Z :=
  Z.lxor (Z.shiftr d 8) (CRC16.table_get (Z.land (Z.lxor d e) 0xFF)).

(* ===================================================================== *)
(** * Further definitions: replies on the line                            *)
(* ===================================================================== *)

(** An exception reply: long enough, checksum right, error bit set. *)
Definition error_reply (arrived : list byte) : bool :=
  (ModbusRTU.MIN_RESPONSE_LENGTH <=? length arrived)%nat
  && CRC16.verify arrived
  && negb (Z.land (byte_val (nth 1 arrived x00)) 0x80 =? 0).

(** The parse of an exception reply. *)
Definition parsed_error (arrived : list byte) : ModbusResponse.t :=
  ModbusResponse.mk (byte_val (nth 0 arrived x00))
    (Z.land (byte_val (nth 1 arrived x00)) 0x7F) [] true
    (byte_val (nth 2 arrived x00)).

(** An attempt whose frame is written but whose reply is rejected: no
    reply, a reply that is too short, or one whose checksum is wrong. *)
Definition unanswered (a : ModbusRTU.attempt) : bool :=
  match a with
  | ModbusRTU.WriteFault => false
  | other => fails other
  end.

(** Register values as the device sends them: two bytes each, high byte
    first. *)
Definition register_bytes (values : list Z) : list byte :=
  flat_map (fun v => [byte_of_Z (Z.shiftr v 8); byte_of_Z v]) values.

(** The reply of station [address] to a read with function [code] of
    registers holding [values]: address, function, byte count, the
    values, and the checksum. *)
Definition register_reply (address code : Z) (values : list Z)
  : list byte :=
  match CRC16.append
          (byte_of_Z address :: byte_of_Z code
             :: byte_of_Z (2 * Z.of_nat (length values))
             :: register_bytes values)
  with
  | Some frame => frame
  | None => []
  end.

(* ===================================================================== *)
(** * Further definitions: the driver on a live line                      *)
(* ===================================================================== *)

(** An outcome that is not an exception: the call returned, or it waits
    for the lock. *)
Definition no_exception {S A} (r : outcome S A) : Prop :=
  match r with
  | Raises _ _ => False
  | _ => True
  end.

Definition never_raises {S A} (c : M S A) : Prop :=
  forall s, no_exception (c s).

(** A driver whose transport is open, with its lock free and at least
    one attempt allowed, on a line that will behave as [line]. *)
Definition ready (d : Driver.t) (line : list ModbusRTU.attempt) : Prop :=
  exists m,
    Driver.modbus d = Some m
    /\ ModbusRTU.port_open m = true
    /\ ModbusRTU.io_lock m = false
    /\ (0 < ModbusRTU.retry_count m)%nat
    /\ ModbusRTU.script m = line.

(** The status a full poll builds from the values of the real-time block
    and of the three single registers. *)
Definition polled (v i mode temp otp out vset iset : Z)
  : PowerSupply.PowerStatus :=
  PowerSupply.mkStatus (Driver.milli v) (Driver.milli i) (0 * 0)
    (Driver.milli vset) (Driver.milli iset) (negb (out =? 0))
    (if mode =? 0 then PowerSupply.CV else PowerSupply.CC)
    (if otp =? 0 then PowerSupply.NORMAL else PowerSupply.OTP)
    (inject_Z temp) true "".

(** The write request for [value] at [register] of station [address]. *)
Definition write_request (address register value : Z) : list byte :=
  [byte_of_Z address; x06;
   byte_of_Z (Z.shiftr register 8); byte_of_Z register;
   byte_of_Z (Z.shiftr value 8); byte_of_Z value].


(* ===================================================================== *)
(** * Further definitions: the controller's time step                     *)
(* ===================================================================== *)

(** The time step [dt] that [compute] uses when the clock reads [now]:
    one second on the first call, otherwise the time since the last
    call, at least 10 ms. *)
Definition time_step (now : Q) (p : PID.t) : Q :=
  match PID._last_time p with
  | None => 1.0%Q
  | Some last => pymax 0.01 (now - last)
  end.

(** The target is already met: the measurement is on the far side of
    the set-point for the direction the controller works in. *)
Definition target_met (setpoint measured : Q) (p : PID.t) : Prop :=
  if PID.reverse p then (setpoint <= measured)%Q
  else (measured <= setpoint)%Q.

(* ===================================================================== *)
(** * Further definitions: tuning sessions                                *)
(* ===================================================================== *)





(* ===================================================================== *)
(** * Further definitions: the worker in good order                       *)
(* ===================================================================== *)



(* ===================================================================== *)
(** * Further definitions: sensor readings                                *)
(* ===================================================================== *)

(** Every value that a sensor reports lies in [[lo, hi]]. *)
Definition readings_within (lo hi : Q) (s : Worker.sensor) : Prop :=
  forall key v,
    In key [Worker.hot; Worker.ds18b20; Worker.cold] ->
    key s = Some v -> (lo <= v <= hi)%Q.

(** The sensor reports nothing. *)
Definition silent (s : Worker.sensor) : Prop :=
  Worker.hot s = None /\ Worker.ds18b20 s = None /\ Worker.cold s = None.

(* ===================================================================== *)
(** * The data bridge (server/data_bridge.py)                             *)
(* ===================================================================== *)

Module DataBridge.

(** [collections.deque(maxlen=n)], oldest item first. *)
Record deque (A : Type) : Type := mkDeque {
  maxlen : nat;
  items : list A
}.
Arguments mkDeque {A} maxlen items.
Arguments maxlen {A} d.
Arguments items {A} d.

(** [d.append(x)]: the item is added at the right end; a deque that is
    then longer than [maxlen] loses items at the left end. *)
Definition append {A} (x : A) (d : deque A) : deque A :=
  let l := items d ++ [x] in
  mkDeque (maxlen d) (skipn (length l - maxlen d) l).

(** [d.clear()]. *)
Definition clear {A} (d : deque A) : deque A := mkDeque (maxlen d) [].

(** A number as the histories hold it: finite, or one of [nan] and the
    infinities. *)
Inductive number : Type :=
| Finite (q : Q)
| NotFinite.

(** One call of [append_history]. *)
Record point : Type := mkPoint {
  p_t : number;
  p_target : number;
  p_cold1 : number;
  p_hot1 : number;
  p_cold2 : number;
  p_hot2 : number;
  p_output : number
}.

(** An entry of the command queue; parameter values are kept as text. *)
Record command : Type := mkCommand {
  cmd : string;
  params : list (string * string);
  timestamp : Q
}.

(** The histories and the command queue of the bridge.  Every method
    holds [_lock] for its whole body and calls no other method, so the
    lock is never asked for twice; the state snapshot and the port list
    are independent of what is modelled here. *)
Record t : Type := mk {
  _history_max : nat;
  _time_history : deque number;
  _target_history : deque number;
  _cold1_history : deque number;
  _hot1_history : deque number;
  _cold2_history : deque number;
  _hot2_history : deque number;
  _output_history : deque number;
  _command_queue : deque command
}.

(** [DataBridge(history_max)]. *)
Definition init (history_max : nat) : t :=
  mk history_max (mkDeque history_max []) (mkDeque history_max [])
     (mkDeque history_max []) (mkDeque history_max [])
     (mkDeque history_max []) (mkDeque history_max [])
     (mkDeque history_max []) (mkDeque 100 []).

Definition append_history (pt : point) (b : t) : t :=
  mk (_history_max b)
     (append (p_t pt) (_time_history b))
     (append (p_target pt) (_target_history b))
     (append (p_cold1 pt) (_cold1_history b))
     (append (p_hot1 pt) (_hot1_history b))
     (append (p_cold2 pt) (_cold2_history b))
     (append (p_hot2 pt) (_hot2_history b))
     (append (p_output pt) (_output_history b))
     (_command_queue b).

(** [_clean]: a value that is not finite becomes [None]. *)
Definition _clean (values : list number) : list (option Q) :=
  map (fun v => match v with
                | Finite q => Some q
                | NotFinite => None
                end) values.

(** The dictionary returned by [get_history]. *)
Record history : Type := mkHistory {
  h_time : list (option Q);
  h_target : list (option Q);
  h_cold1 : list (option Q);
  h_hot1 : list (option Q);
  h_cold2 : list (option Q);
  h_hot2 : list (option Q);
  h_output : list (option Q)
}.

Definition get_history (b : t) : history :=
  mkHistory (_clean (items (_time_history b)))
    (_clean (items (_target_history b)))
    (_clean (items (_cold1_history b)))
    (_clean (items (_hot1_history b)))
    (_clean (items (_cold2_history b)))
    (_clean (items (_hot2_history b)))
    (_clean (items (_output_history b))).

(** [send_command(cmd, params)] when the clock reads [now]; [params or
    {}] turns a missing dictionary into an empty one. *)
Definition send_command (now : Q) (name : string)
  (args : option (list (string * string))) (b : t) : t :=
  mk (_history_max b) (_time_history b) (_target_history b)
     (_cold1_history b) (_hot1_history b) (_cold2_history b)
     (_hot2_history b) (_output_history b)
     (append (mkCommand name
                (match args with
                 | Some d => d
                 | None => []
                 end) now)
        (_command_queue b)).

(** [poll_commands]: the pending commands, oldest first, and the bridge
    with its queue cleared. *)
Definition poll_commands (b : t) : list command * t :=
  (items (_command_queue b),
   mk (_history_max b) (_time_history b) (_target_history b)
      (_cold1_history b) (_hot1_history b) (_cold2_history b)
      (_hot2_history b) (_output_history b)
      (clear (_command_queue b))).

End DataBridge.

(** ** Runs of the bridge *)

(** The points [pts] recorded in order. *)
Definition record_points (pts : list DataBridge.point) (b : DataBridge.t)
  : DataBridge.t :=
  fold_left (fun b pt => DataBridge.append_history pt b) pts b.

(** The history dictionary that shows exactly the points [pts]. *)
Definition shown (pts : list DataBridge.point) : DataBridge.history :=
  DataBridge.mkHistory
    (DataBridge._clean (map DataBridge.p_t pts))
    (DataBridge._clean (map DataBridge.p_target pts))
    (DataBridge._clean (map DataBridge.p_cold1 pts))
    (DataBridge._clean (map DataBridge.p_hot1 pts))
    (DataBridge._clean (map DataBridge.p_cold2 pts))
    (DataBridge._clean (map DataBridge.p_hot2 pts))
    (DataBridge._clean (map DataBridge.p_output pts)).

(** A request as the web server sends it: clock reading, command name,
    parameters. *)
Definition request : Type := Q * string * option (list (string * string)).

Definition send_all (requests : list request) (b : DataBridge.t)
  : DataBridge.t :=
  fold_left (fun b r =>
               let '(now, name, args) := r in
               DataBridge.send_command now name args b) requests b.

(** The queue entry made from a request. *)
Definition entry (r : request) : DataBridge.command :=
  let '(now, name, args) := r in
  DataBridge.mkCommand name (match args with
                             | Some d => d
                             | None => []
                             end) now.

(* ===================================================================== *)
(** * Further definitions: a transport below the reset threshold          *)
(* ===================================================================== *)

(** The transport [s'] left by a call on [s] that did not hang: the lock
    is free, the port is as it was, and the failure counter has grown by
    at most the number of attempts. *)
Definition settled (s s' : ModbusRTU.t) : Prop :=
  ModbusRTU.io_lock s' = false
  /\ ModbusRTU.port_open s' = ModbusRTU.port_open s
  /\ 0 <= ModbusRTU.consecutive_failures s'
     <= ModbusRTU.consecutive_failures s
        + Z.of_nat (ModbusRTU.retry_count s).

(** A driver whose transport, if it has one, has its lock free and its
    failure counter plus the number of attempts below the reset
    threshold, and whose station address fits in a byte. *)
Definition calm (d : Driver.t) : Prop :=
  0 <= Driver.slave_address d <= 255
  /\ forall m, Driver.modbus d = Some m ->
       ModbusRTU.io_lock m = false
       /\ 0 <= ModbusRTU.consecutive_failures m
       /\ ModbusRTU.consecutive_failures m
          + Z.of_nat (ModbusRTU.retry_count m)
          < ModbusRTU.MAX_CONSECUTIVE_FAILURES.

(** The session that [start_auto_tune] creates from the configuration
    when the clock reads [now]. *)
Definition new_session (now : Q) (c : Worker.params) : AutoTuner.t :=
  AutoTuner.start now
    (AutoTuner.init (Worker.target_temp c) (Worker.max_current c) 0.0 300 2.0
       (Worker.control_mode c =? 1)).

(* ===================================================================== *)
(** * Facts about bytes                                                   *)
(* ===================================================================== *)

Lemma byte_val_range (b : byte) : 0 <= byte_val b < 256.
Proof.
  unfold byte_val. pose proof (Byte.to_N_bounded b). lia.
Qed.

Lemma byte_val_of_Z (z : Z) : byte_val (byte_of_Z z) = z mod 256.
Proof.
  unfold byte_val, byte_of_Z.
  assert (Hr : 0 <= z mod 256 < 256) by (apply Z.mod_pos_bound; lia).
  destruct (Byte.of_N (Z.to_N (z mod 256))) as [b|] eqn:E.
  - apply Byte.to_of_N in E. rewrite E. lia.
  - apply Byte.of_N_None_iff in E. lia.
Qed.

Lemma unpack_pack_le_H (v : Z) (bs : list byte) :
  pack_le_H v = Some bs -> unpack_le_H bs = Some v /\ length bs = 2%nat.
Proof.
  unfold pack_le_H. destruct (_ && _) eqn:E; [|discriminate].
  intros [= <-]. apply andb_prop in E as [H0 H1].
  apply Z.leb_le in H0, H1. unfold unpack_le_H. split; [|reflexivity].
  rewrite !byte_val_of_Z, Z.shiftr_div_pow2 by lia.
  change (2 ^ 8) with 256.
  rewrite (Z.mod_small (v / 256)) by
    (split; [apply Z.div_pos; lia | apply Z.div_lt_upper_bound; lia]).
  f_equal. pose proof (Z.div_mod v 256). lia.
Qed.

(* ===================================================================== *)
(** * CRC16: range of the checksum and the seal/verify round trip         *)
(* ===================================================================== *)

Section CRC16_facts.

Import CRC16.

Lemma lxor_u16 a b : u16 a -> u16 b -> u16 (Z.lxor a b).
Proof.
  unfold u16. intros Ha Hb. split.
  - apply Z.lxor_nonneg. lia.
  - destruct (Z.eq_dec (Z.lxor a b) 0) as [->|Hn]; [lia|].
    assert (Hp : 0 < Z.lxor a b) by (pose proof (proj2 (Z.lxor_nonneg a b)); lia).
    apply (Z.log2_lt_pow2 _ 16 Hp).
    eapply Z.le_lt_trans; [apply Z.log2_lxor; lia|].
    apply Z.max_lub_lt.
    + destruct (Z.eq_dec a 0) as [->|]; [reflexivity|]. apply Z.log2_lt_pow2; lia.
    + destruct (Z.eq_dec b 0) as [->|]; [reflexivity|]. apply Z.log2_lt_pow2; lia.
Qed.

Lemma table_u16 : Forall u16 _TABLE.
Proof.
  apply Forall_forall. intros x Hin.
  assert (Hb : forallb (fun z => (0 <=? z) && (z <? 65536)) _TABLE = true)
    by (vm_compute; reflexivity).
  rewrite forallb_forall in Hb. specialize (Hb x Hin).
  apply andb_prop in Hb as [H0 H1].
  apply Z.leb_le in H0. apply Z.ltb_lt in H1. split; assumption.
Qed.

Lemma table_get_u16 i : u16 (table_get i).
Proof.
  unfold table_get.
  destruct (nth_in_or_default (Z.to_nat i) _TABLE 0) as [Hin | ->].
  - exact (proj1 (Forall_forall _ _) table_u16 _ Hin).
  - split; lia.
Qed.

Lemma calc_step_u16 crc b : u16 crc -> u16 (calc_step crc b).
Proof.
  intros [H0 H1]. unfold calc_step. apply lxor_u16.
  - rewrite Z.shiftr_div_pow2 by lia. split.
    + apply Z.div_pos; lia.
    + apply Z.div_lt_upper_bound; lia.
  - apply table_get_u16.
Qed.

Lemma fold_calc_u16 data crc : u16 crc -> u16 (fold_left calc_step data crc).
Proof.
  revert crc. induction data as [|b data IH]; intros crc H; simpl.
  - exact H.
  - apply IH, calc_step_u16, H.
Qed.

(** The checksum always fits in 16 bits, so [struct.pack] never raises in
    [append]. *)
Lemma calculate_u16 data : u16 (calculate data).
Proof. apply fold_calc_u16. split; lia. Qed.

Lemma append_total data :
  exists tail, pack_le_H (calculate data) = Some tail
            /\ append data = Some (data ++ tail).
Proof.
  destruct (calculate_u16 data) as [H0 H1]. unfold append, pack_le_H.
  replace ((0 <=? calculate data) && (calculate data <=? 65535)) with true.
  - eexists. split; reflexivity.
  - symmetry. apply andb_true_intro. split; apply Z.leb_le; lia.
Qed.

Lemma verify_sealed data tail :
  data <> [] -> pack_le_H (calculate data) = Some tail ->
  verify (data ++ tail) = true.
Proof.
  intros Hne Hp. apply unpack_pack_le_H in Hp as [Hu Hl].
  unfold verify. rewrite length_app, Hl.
  destruct data as [|b data]; [congruence|]. simpl length.
  replace (S (length data) + 2 <? 3)%nat with false
    by (symmetry; apply Nat.ltb_ge; lia).
  replace (S (length data) + 2 - 2)%nat with (length (b :: data))
    by (simpl; lia).
  rewrite skipn_app, skipn_all, Nat.sub_diag, firstn_app, firstn_all,
    Nat.sub_diag. simpl skipn. simpl firstn at 1.
  rewrite app_nil_r, app_nil_l, Hu. apply Z.eqb_refl.
Qed.

End CRC16_facts.

(** ** C3: sealing then verifying *)

(** C3, as stated, fails at the empty sequence: [append(b'')] is the two
    bytes [FF FF], and [verify] rejects every frame shorter than three
    bytes. *)
Lemma C3_empty_sequence_rejected :
  CRC16.append [] = Some [xff; xff] /\ CRC16.verify [xff; xff] = false.
Proof. split; reflexivity. Qed.

(** C3 (amended): for every non-empty byte sequence [s], [append] yields
    [s] followed by its table-driven CRC-16, low byte first, and [verify]
    accepts the result. *)
Theorem C3_seal_verify_nonempty (s : list byte) :
  s <> [] ->
  exists frame, CRC16.append s = Some frame /\ CRC16.verify frame = true.
Proof.
  intros Hne. destruct (append_total s) as (tail & Hp & Ha).
  exists (s ++ tail). split; [exact Ha|].
  apply verify_sealed; assumption.
Qed.

Lemma C3_seal_verify_nonempty_witness :
  [x01; x03; x00; x00; x00; x01] <> []
  /\ exists frame,
       CRC16.append [x01; x03; x00; x00; x00; x01] = Some frame
       /\ CRC16.verify frame = true.
Proof.
  split; [discriminate|].
  apply (C3_seal_verify_nonempty [x01; x03; x00; x00; x00; x01]).
  discriminate.
Defined.

(* ===================================================================== *)
(** * ModbusResponse: the register view of a payload                      *)
(* ===================================================================== *)

Section Registers.

Import ModbusResponse.

Lemma slice_at_pair (pre : list byte) (a b : byte) (rest : list byte) :
  slice (pre ++ a :: b :: rest) (length pre) (length pre + 2) = [a; b].
Proof.
  unfold slice.
  replace (length pre + 2 - length pre)%nat with 2%nat by lia.
  rewrite skipn_app, skipn_all, Nat.sub_diag. reflexivity.
Qed.

Lemma registers_from (k m : nat) (pre rest : list byte) :
  length pre = (2 * m)%nat -> k = ((length rest + 1) / 2)%nat ->
  flat_map (register_at (pre ++ rest))
    (map (fun j => (2 * j)%nat) (seq m k)) = be_pairs rest.
Proof.
  revert m pre rest. induction k as [|k IH]; intros m pre rest Hpre Hk.
  - destruct rest as [|a rest]; [reflexivity|]. exfalso.
    cbn [length] in Hk.
    assert (1 <= (S (length rest) + 1) / 2)%nat
      by (apply Nat.div_le_lower_bound; lia).
    lia.
  - cbn [seq map flat_map]. destruct rest as [|a [|b rest]].
    + cbn [length] in Hk. discriminate.
    + cbn [length] in Hk. change ((1 + 1) / 2)%nat with 1%nat in Hk.
      assert (k = 0%nat) by lia. subst k. cbn [seq map flat_map be_pairs].
      unfold register_at. rewrite length_app. cbn [length].
      replace (2 * m + 1 <? length pre + 1)%nat with false
        by (symmetry; apply Nat.ltb_ge; lia).
      reflexivity.
    + cbn [be_pairs]. unfold register_at at 1. rewrite length_app.
      cbn [length].
      replace (2 * m + 1 <? length pre + S (S (length rest)))%nat with true
        by (symmetry; apply Nat.ltb_lt; lia).
      rewrite <- Hpre, slice_at_pair. cbn [unpack_be_H app]. f_equal.
      replace (pre ++ a :: b :: rest) with ((pre ++ [a; b]) ++ rest)
        by (rewrite <- app_assoc; reflexivity).
      apply IH.
      * rewrite length_app. cbn [length]. lia.
      * cbn [length] in Hk.
        replace (S (S (length rest)) + 1)%nat
          with (length rest + 1 + 1 * 2)%nat in Hk by lia.
        rewrite Nat.div_add in Hk by lia. lia.
Qed.

(** [registers] reads the payload two bytes at a time. *)
Lemma registers_be_pairs (r : t) : registers r = be_pairs (data r).
Proof.
  unfold registers, range_step2.
  apply (registers_from _ 0 [] (data r)); reflexivity.
Qed.

Lemma list_pair_ind {A} (P : list A -> Prop) :
  P [] -> (forall a, P [a]) -> (forall a b l, P l -> P (a :: b :: l)) ->
  forall l, P l.
Proof.
  intros H0 H1 H2 l.
  enough (P l /\ forall a, P (a :: l)) by tauto.
  induction l as [|x l [IHl IHxl]]; split; auto.
Qed.

Lemma be_pairs_length (d : list byte) :
  length (be_pairs d) = (length d / 2)%nat.
Proof.
  induction d as [|a|a b rest IH] using list_pair_ind;
    [reflexivity | reflexivity |].
  cbn [be_pairs length]. rewrite IH.
  replace (S (S (length rest))) with (length rest + 1 * 2)%nat by lia.
  rewrite Nat.div_add by lia. lia.
Qed.

Lemma be_pairs_nth (d : list byte) (i : nat) :
  (i < length d / 2)%nat ->
  nth_error (be_pairs d) i =
    Some (256 * byte_val (nth (2 * i) d x00)
          + byte_val (nth (2 * i + 1) d x00)).
Proof.
  revert d. induction i as [|i IH]; intros d Hi.
  - destruct d as [|a [|b rest]]; cbn [length] in Hi.
    + cbn in Hi. lia.
    + cbn in Hi. lia.
    + reflexivity.
  - destruct d as [|a [|b rest]]; cbn [length] in Hi.
    + cbn in Hi. lia.
    + cbn in Hi. lia.
    + cbn [be_pairs nth_error].
      replace (S (S (length rest))) with (length rest + 1 * 2)%nat in Hi
        by lia.
      rewrite Nat.div_add in Hi by lia.
      rewrite IH by lia.
      replace (2 * S i)%nat with (S (S (2 * i))) by lia.
      replace (S (S (2 * i)) + 1)%nat with (S (S (2 * i + 1))) by lia.
      reflexivity.
Qed.

Lemma be_pairs_odd_tail (d : list byte) (b : byte) :
  Nat.even (length d) = true -> be_pairs (d ++ [b]) = be_pairs d.
Proof.
  induction d as [|a|a c rest IH] using list_pair_ind; intros Hev.
  - reflexivity.
  - discriminate.
  - cbn [app be_pairs]. f_equal. apply IH. exact Hev.
Qed.

(** C10: the register list has [floor(len(data)/2)] entries, entry [i]
    is the big-endian 16-bit value of bytes [2i] and [2i+1], and a
    trailing odd byte changes nothing. *)
Theorem C10_registers_big_endian_pairs (r : t) :
  length (registers r) = (length (data r) / 2)%nat
  /\ (forall i, (i < length (data r) / 2)%nat ->
        nth_error (registers r) i =
          Some (256 * byte_val (nth (2 * i) (data r) x00)
                + byte_val (nth (2 * i + 1) (data r) x00)))
  /\ (forall b, Nat.even (length (data r)) = true ->
        registers (mk (slave_address r) (function_code r) (data r ++ [b])
                     (is_error r) (error_code r)) = registers r).
Proof.
  rewrite !registers_be_pairs. split; [apply be_pairs_length|]. split.
  - intros i Hi. apply be_pairs_nth, Hi.
  - intros b Hev. rewrite registers_be_pairs. cbn [data].
    apply be_pairs_odd_tail, Hev.
Qed.

Lemma C10_registers_big_endian_pairs_witness :
  let r := response_with [x2e; xe0; x13; x88] in
  (1 < length (data r) / 2)%nat
  /\ nth_error (registers r) 1 = Some 5000
  /\ Nat.even (length (data r)) = true
  /\ registers (response_with [x2e; xe0; x13; x88; xff]) = [12000; 5000].
Proof.
  cbv zeta.
  destruct (C10_registers_big_endian_pairs
              (response_with [x2e; xe0; x13; x88])) as (_ & Hnth & Htail).
  assert (H1 : (1 < length (data (response_with [x2e; xe0; x13; x88])) / 2)%nat)
    by (vm_compute; lia).
  assert (H2 : Nat.even (length (data (response_with [x2e; xe0; x13; x88])))
               = true) by reflexivity.
  split; [exact H1|]. split; [exact (Hnth 1%nat H1)|].
  split; [exact H2|]. exact (Htail xff H2).
Defined.

End Registers.

(* ===================================================================== *)
(** * Facts about the rational model of floats                            *)
(* ===================================================================== *)

Section Numbers.

Local Open Scope Q_scope.

Lemma Qlt_bool_true (x y : Q) : Qlt_bool x y = true <-> x < y.
Proof.
  unfold Qlt_bool. rewrite negb_true_iff. split.
  - intros H. apply Qnot_le_lt. intros Hle.
    apply Qle_bool_iff in Hle. congruence.
  - intros H. destruct (Qle_bool y x) eqn:E; [|reflexivity].
    apply Qle_bool_iff in E. lra.
Qed.

Lemma Qlt_bool_false (x y : Q) : Qlt_bool x y = false <-> y <= x.
Proof.
  unfold Qlt_bool. rewrite negb_false_iff. apply Qle_bool_iff.
Qed.

Lemma Qle_bool_false (x y : Q) : Qle_bool x y = false <-> y < x.
Proof.
  split.
  - intros H. apply Qnot_le_lt. intros Hle.
    apply Qle_bool_iff in Hle. congruence.
  - intros H. destruct (Qle_bool x y) eqn:E; [|reflexivity].
    apply Qle_bool_iff in E. lra.
Qed.

Lemma Qlt_bool_cases (x y : Q) :
  (x < y /\ Qlt_bool x y = true) \/ (y <= x /\ Qlt_bool x y = false).
Proof.
  destruct (Qlt_bool x y) eqn:E.
  - left. split; [apply Qlt_bool_true, E | reflexivity].
  - right. split; [apply Qlt_bool_false, E | reflexivity].
Qed.

Lemma Qle_bool_cases (x y : Q) :
  (x <= y /\ Qle_bool x y = true) \/ (y < x /\ Qle_bool x y = false).
Proof.
  destruct (Qle_bool x y) eqn:E.
  - left. split; [apply Qle_bool_iff, E | reflexivity].
  - right. split; [apply Qle_bool_false, E | reflexivity].
Qed.

Lemma pymax_cases (a b : Q) :
  (a < b /\ pymax a b = b) \/ (b <= a /\ pymax a b = a).
Proof.
  unfold pymax. destruct (Qlt_bool_cases a b) as [[H ->] | [H ->]]; auto.
Qed.

Lemma pymin_cases (a b : Q) :
  (b < a /\ pymin a b = b) \/ (a <= b /\ pymin a b = a).
Proof.
  unfold pymin. destruct (Qlt_bool_cases b a) as [[H ->] | [H ->]]; auto.
Qed.

Lemma pyabs_cases (x : Q) :
  (x < 0 /\ pyabs x = - x) \/ (0 <= x /\ pyabs x = x).
Proof.
  unfold pyabs. destruct (Qlt_bool_cases x 0) as [[H ->] | [H ->]]; auto.
Qed.

(** Clamping into [[lo, hi]] lands in the interval. *)
Lemma clamp_bounds (lo hi x : Q) :
  lo <= hi -> lo <= pymax lo (pymin hi x) <= hi.
Proof.
  intros Hle.
  destruct (pymin_cases hi x) as [[H1 ->] | [H1 ->]];
    [destruct (pymax_cases lo x) as [[H2 ->] | [H2 ->]]
    |destruct (pymax_cases lo hi) as [[H2 ->] | [H2 ->]]]; lra.
Qed.

End Numbers.

(* ===================================================================== *)
(** * The driver: set-points are validated before the bus is touched      *)
(* ===================================================================== *)

Section Setpoints.

Import Driver.
Local Open Scope Q_scope.

Lemma validate_voltage_false (v : Q) :
  ~ (0 <= v /\ v <= 60) ->
  PowerSupply.validate_voltage specification v = false.
Proof.
  intros H. unfold PowerSupply.validate_voltage, specification.
  cbn [PowerSupply.voltage_min PowerSupply.voltage_max].
  apply andb_false_iff.
  destruct (Qle_bool_cases 0 v) as [[H0 E0] | [H0 E0]];
  destruct (Qle_bool_cases v 60) as [[H1 E1] | [H1 E1]]; auto.
  exfalso. apply H. split; assumption.
Qed.

Lemma validate_current_false (i : Q) :
  ~ (0 <= i /\ i <= 20) ->
  PowerSupply.validate_current specification i = false.
Proof.
  intros H. unfold PowerSupply.validate_current, specification.
  cbn [PowerSupply.current_min PowerSupply.current_max].
  apply andb_false_iff.
  destruct (Qle_bool_cases 0 i) as [[H0 E0] | [H0 E0]];
  destruct (Qle_bool_cases i 20) as [[H1 E1] | [H1 E1]]; auto.
  exfalso. apply H. split; assumption.
Qed.

(** C5: a voltage outside [[0, 60]] makes [set_voltage] return [False]
    and a current outside [[0, 20]] makes [set_current] return [False];
    in both cases the transport (frames written, pending line events,
    failure counter) is left exactly as it was: the only effect is the
    message given to the error callbacks. *)
Theorem C5_out_of_range_rejected_locally (d : t) (x : Q) :
  (~ (0 <= x /\ x <= 60) ->
     set_voltage x d
     = Returns false (mk (slave_address d) (modbus d)
                         (VoltageOutOfRange x :: notified d)))
  /\ (~ (0 <= x /\ x <= 20) ->
     set_current x d
     = Returns false (mk (slave_address d) (modbus d)
                         (CurrentOutOfRange x :: notified d))).
Proof.
  split; intros H.
  - unfold set_voltage. rewrite (validate_voltage_false x H). reflexivity.
  - unfold set_current. rewrite (validate_current_false x H). reflexivity.
Qed.

Lemma C5_out_of_range_rejected_locally_witness :
  let d := connected 1 [] in
  ~ (0 <= 61 /\ 61 <= 60)
  /\ final (set_voltage 61 d)
     = mk 1 (modbus d) [VoltageOutOfRange 61]
  /\ ~ (0 <= -(1#2) /\ -(1#2) <= 20)
  /\ final (set_current (-(1#2)) d)
     = mk 1 (modbus d) [CurrentOutOfRange (-(1#2))].
Proof.
  cbv zeta.
  assert (H1 : ~ (0 <= 61 /\ 61 <= 60)) by (intros [_ H]; lra).
  assert (H2 : ~ (0 <= -(1#2) /\ -(1#2) <= 20)) by (intros [H _]; lra).
  split; [exact H1|]. split.
  - rewrite (proj1 (C5_out_of_range_rejected_locally (connected 1 []) 61) H1).
    reflexivity.
  - split; [exact H2|].
    rewrite (proj2 (C5_out_of_range_rejected_locally (connected 1 [])
                      (-(1#2))) H2).
    reflexivity.
Defined.

End Setpoints.

(* ===================================================================== *)
(** * The PID controller                                                  *)
(* ===================================================================== *)

Section PID_facts.

Import PID.
Local Open Scope Q_scope.

Lemma compute_settings (now sp m : Q) (p : t) :
  pid_settings (snd (compute now sp m p)) = pid_settings p.
Proof. reflexivity. Qed.

Lemma compute_output_stored (now sp m : Q) (p : t) :
  _output (snd (compute now sp m p)) = fst (compute now sp m p).
Proof. reflexivity. Qed.

Lemma run_settings (calls : list (Q * Q * Q)) (p : t) :
  pid_settings (snd (run calls p)) = pid_settings p.
Proof.
  revert p. induction calls as [|[[now sp] m] calls IH]; intros p.
  - reflexivity.
  - cbn [run]. destruct (compute now sp m p) as [out p'] eqn:E.
    specialize (IH p'). destruct (run calls p') as [outs p''].
    cbn [snd] in *. rewrite IH.
    change p' with (snd (out, p')). rewrite <- E. apply compute_settings.
Qed.

(** [reset] forgets the history: only the settings matter. *)
Lemma reset_settings (p q : t) :
  pid_settings p = pid_settings q -> reset p = reset q.
Proof.
  unfold pid_settings, reset. intros [= -> -> -> -> -> -> -> ->].
  reflexivity.
Qed.

(** C2, as stated, fails: the first call does not return 5.  The raw
    output is 5, inside the bounds, but the default rate limit of 2.0 per
    second over the first call's [dt = 1.0] lets the output move by at
    most 2.0 from its initial 0. *)
Lemma C2_first_call_returns_two :
  fst (compute 0 10 15 unit_gain_controller) == 2
  /\ ~ fst (compute 0 10 15 unit_gain_controller) == 5.
Proof.
  split.
  - vm_compute. reflexivity.
  - vm_compute. discriminate.
Qed.

(** C2 (amended): for the controller with [kp=1, ki=0, kd=0], not
    reversed, default bounds and filter, the first call
    [compute(10, 15)] after construction, or after [reset()] following
    any calls, returns 2.0 (the clamped raw output 5 cut to the default
    rate limit 2.0 per second times [dt = 1.0]); with the rate limit
    switched off ([output_rate_limit = 0]) it returns 5. *)
Theorem C2_first_call_rate_limited (now : Q) (calls : list (Q * Q * Q)) :
  fst (compute now 10 15 unit_gain_controller) == 2
  /\ fst (compute now 10 15
            (reset (snd (run calls unit_gain_controller)))) == 2
  /\ fst (compute now 10 15 (with_rate_limit 0 unit_gain_controller)) == 5.
Proof.
  split; [vm_compute; reflexivity|]. split.
  - rewrite (reset_settings _ unit_gain_controller (run_settings calls _)).
    vm_compute. reflexivity.
  - vm_compute. reflexivity.
Qed.

(** The rate limiter moves from the previous output towards the clamped
    one, so it stays between them. *)
Lemma rate_limit_between (lo hi out new max_change : Q) :
  lo <= out <= hi -> lo <= new <= hi -> 0 <= max_change ->
  lo <= (if Qlt_bool max_change (pyabs (new - out))
         then out + max_change * (if Qlt_bool 0 (new - out) then 1 else -1)
         else new) <= hi.
Proof.
  intros Ho Hn Hm.
  destruct (Qlt_bool_cases max_change (pyabs (new - out)))
    as [[H ->] | [H ->]]; [|exact Hn].
  destruct (pyabs_cases (new - out)) as [[Ha Ea] | [Ha Ea]];
    rewrite Ea in H;
    destruct (Qlt_bool_cases 0 (new - out)) as [[Hs ->] | [Hs ->]]; lra.
Qed.

(** One call keeps the output inside the bounds. *)
Lemma compute_bounded (now sp m : Q) (p : t) :
  output_min p <= output_max p ->
  output_min p <= _output p <= output_max p ->
  output_min p <= fst (compute now sp m p) <= output_max p.
Proof.
  intros Hle Hout. unfold compute. cbn [fst].
  set (dt := match _last_time p with
             | Some last => pymax 0.01 (now - last)
             | None => 1.0
             end).
  match goal with
  | |- context [pymax (output_min p) (pymin (output_max p) ?r)] =>
      set (raw := r)
  end.
  pose proof (clamp_bounds (output_min p) (output_max p) raw Hle) as Hclamp.
  set (new := pymax (output_min p) (pymin (output_max p) raw)) in *.
  destruct (Qlt_bool_cases 0 (output_rate_limit p)) as [[Hr ->] | [Hr ->]];
    [|exact Hclamp].
  destruct (Qlt_bool_cases 0 dt) as [[Hd ->] | [Hd ->]]; [|exact Hclamp].
  cbn [andb]. apply rate_limit_between; try assumption.
  apply Qmult_le_0_compat; lra.
Qed.

Lemma run_bounded (calls : list (Q * Q * Q)) (p : t) (lo hi : Q) :
  lo = output_min p -> hi = output_max p -> lo <= hi ->
  lo <= _output p <= hi ->
  Forall (fun o => lo <= o <= hi) (fst (run calls p))
  /\ lo <= _output (snd (run calls p)) <= hi.
Proof.
  revert p. induction calls as [|[[now sp] m] calls IH];
    intros p Hlo Hhi Hle Hout.
  - split; [constructor | exact Hout].
  - cbn [run].
    pose proof (compute_bounded now sp m p) as Hb.
    pose proof (compute_settings now sp m p) as Hs.
    pose proof (compute_output_stored now sp m p) as Ho.
    destruct (compute now sp m p) as [out p']. cbn [fst snd] in *.
    unfold pid_settings in Hs. injection Hs as _ _ _ Hmin Hmax _ _ _.
    rewrite <- Hlo, <- Hhi in Hb. specialize (Hb Hle Hout).
    specialize (IH p'). rewrite Hmin, Hmax, Ho in IH.
    specialize (IH Hlo Hhi Hle Hb).
    destruct (run calls p') as [outs p'']. cbn [fst snd] in *.
    destruct IH as [IH1 IH2]. split; [constructor; assumption | exact IH2].
Qed.

(** C9: when [output_min <= 0 <= output_max] and
    [output_rate_limit >= 0], then from [reset()] on, whatever the
    set-points, the measurements and the clock readings of the calls,
    every value returned by [compute] and the stored last output lie in
    [[output_min, output_max]]. *)
Theorem C9_outputs_within_bounds (p : t) (calls : list (Q * Q * Q)) :
  output_min p <= 0 -> 0 <= output_max p -> 0 <= output_rate_limit p ->
  Forall (fun o => output_min p <= o <= output_max p)
    (fst (run calls (reset p)))
  /\ output_min p <= _output (snd (run calls (reset p))) <= output_max p.
Proof.
  intros Hmin Hmax _.
  apply (run_bounded calls (reset p)); cbn; try reflexivity; lra.
Qed.

Lemma C9_outputs_within_bounds_witness :
  let calls := [(0, 10, 15); (1, 10, 40); ((3#2), 10, -20); (2, 10, 15)] in
  output_min default <= 0 /\ 0 <= output_max default
  /\ 0 <= output_rate_limit default
  /\ Forall (fun o => output_min default <= o <= output_max default)
       (fst (run calls (reset default)))
  /\ output_min default <= _output (snd (run calls (reset default)))
     <= output_max default.
Proof.
  cbv zeta.
  assert (H1 : output_min default <= 0) by (cbn; lra).
  assert (H2 : 0 <= output_max default) by (cbn; lra).
  assert (H3 : 0 <= output_rate_limit default) by (cbn; lra).
  split; [exact H1|]. split; [exact H2|]. split; [exact H3|].
  exact (C9_outputs_within_bounds default _ H1 H2 H3).
Defined.

End PID_facts.

(* ===================================================================== *)
(** * The transport: retries                                              *)
(* ===================================================================== *)

Section Transport.

Import ModbusRTU.

(** A rejected attempt below the reset threshold: the frame was written,
    the line event is consumed and the failure counter grows by one. *)
Lemma attempt_once_rejected (frame : list byte) (s : t) (a : attempt)
  (rest : list attempt) :
  port_open s = true -> script s = a :: rest -> fails a = true ->
  consecutive_failures s + 1 < MAX_CONSECUTIVE_FAILURES ->
  attempt_once frame s
  = Returns None
      (mk (retry_count s) true (consecutive_failures s + 1) (io_lock s)
          (reopen_ok s) rest (frame :: written s)).
Proof.
  destruct s as [rc po cf lk ro sc wr]. cbn [port_open script
    consecutive_failures retry_count io_lock reopen_ok written].
  intros -> -> Hf Hlt.
  assert (Hth : (MAX_CONSECUTIVE_FAILURES <=? cf + 1) = false)
    by (apply Z.leb_gt; exact Hlt).
  destruct a as [| |arrived].
  - reflexivity.
  - unfold attempt_once, bind, _send_frame, _receive_frame, count_failure,
      reset_if_needed, modify, get, ret, is_connected, set_failures,
      set_script, log_write.
    cbn -[Z.leb Z.add MAX_CONSECUTIVE_FAILURES].
    rewrite Hth. reflexivity.
  - unfold fails in Hf.
    unfold attempt_once, bind, _send_frame, _receive_frame, count_failure,
      reset_if_needed, modify, get, ret, is_connected, set_failures,
      set_script, log_write.
    cbn -[Z.leb Z.add MAX_CONSECUTIVE_FAILURES Nat.ltb CRC16.verify].
    destruct (length arrived <? MIN_RESPONSE_LENGTH)%nat eqn:El.
    + cbn -[Z.leb Z.add MAX_CONSECUTIVE_FAILURES]. rewrite Hth. reflexivity.
    + cbn [orb] in Hf. rewrite Hf.
      cbn -[Z.leb Z.add MAX_CONSECUTIVE_FAILURES]. rewrite Hth. reflexivity.
Qed.

(** An attempt answered by a valid reply returns its parse and clears
    the failure counter. *)
Lemma attempt_once_accepted (frame : list byte) (s : t)
  (arrived : list byte) (rest : list attempt) :
  port_open s = true -> script s = Reply arrived :: rest ->
  good_reply arrived = true ->
  attempt_once frame s
  = Returns (Some (parsed arrived))
      (mk (retry_count s) true 0 (io_lock s) (reopen_ok s) rest
          (frame :: written s)).
Proof.
  destruct s as [rc po cf lk ro sc wr]. cbn [port_open script
    consecutive_failures retry_count io_lock reopen_ok written].
  intros -> -> Hg. unfold good_reply in Hg.
  apply andb_prop in Hg as [Hg Hbit]. apply andb_prop in Hg as [Hlen Hcrc].
  apply Nat.leb_le in Hlen.
  assert (El : (length arrived <? MIN_RESPONSE_LENGTH)%nat = false)
    by (apply Nat.ltb_ge; exact Hlen).
  destruct arrived as [|b0 [|b1 [|b2 tl]]];
    try (cbn in Hlen; unfold MIN_RESPONSE_LENGTH in Hlen; lia).
  cbn [nth] in Hbit.
  unfold attempt_once, bind, _send_frame, _receive_frame, is_connected,
    set_script, log_write.
  cbn [port_open script negb retry_count consecutive_failures io_lock
       reopen_ok written].
  rewrite El, Hcrc. cbn [negb]. unfold parse_response. rewrite Hbit.
  reflexivity.
Qed.

(** The retry scenario below the reset threshold: two rejected attempts,
    then a valid reply.  The sealed frame is written three times, the
    parse of the reply is returned and the failure counter ends at 0. *)
Lemma transact_retry_succeeds (request frame : list byte) (s : t)
  (a1 a2 : attempt) (arrived : list byte) (rest : list attempt) :
  retry_count s = 3%nat -> port_open s = true -> io_lock s = false ->
  consecutive_failures s < 3 ->
  CRC16.append request = Some frame ->
  script s = a1 :: a2 :: Reply arrived :: rest ->
  fails a1 = true -> fails a2 = true -> good_reply arrived = true ->
  _transact request s
  = Returns (Some (parsed arrived))
      (mk 3 true 0 false (reopen_ok s) rest
          (frame :: frame :: frame :: written s)).
Proof.
  intros Hrc Hpo Hlk Hcf Hfr Hsc Hf1 Hf2 Hg.
  unfold _transact. rewrite Hfr. unfold with_io_lock. rewrite Hlk.
  unfold bind at 1, get. cbn [set_lock retry_count]. rewrite Hrc.
  cbn [attempts]. unfold bind at 1.
  rewrite (attempt_once_rejected frame _ a1 (a2 :: Reply arrived :: rest));
    cbn [port_open script consecutive_failures set_lock]; auto;
    [|unfold MAX_CONSECUTIVE_FAILURES; lia].
  unfold bind at 1.
  rewrite (attempt_once_rejected frame _ a2 (Reply arrived :: rest));
    cbn [port_open script consecutive_failures retry_count io_lock reopen_ok
         written]; auto; [|unfold MAX_CONSECUTIVE_FAILURES; lia].
  unfold bind at 1.
  rewrite (attempt_once_accepted frame _ arrived rest);
    cbn [port_open script consecutive_failures retry_count io_lock reopen_ok
         written]; auto.
  unfold ret, set_lock.
  cbn [retry_count port_open consecutive_failures io_lock reopen_ok script
       written].
  rewrite Hrc. reflexivity.
Qed.

(** C4 fails on the code when the two rejected attempts bring the
    failure counter to [MAX_CONSECUTIVE_FAILURES].  On a freshly
    connected transport, a first transaction whose three attempts time
    out returns [None] and leaves the counter at 3.  In the next
    transaction the first two attempts time out and the third would be
    answered by a valid reply; at the second time-out the counter reaches
    5, [_reset_serial_port] is called inside [with self._io_lock] and
    waits for that same lock: the call never returns, the frame has been
    written twice, the reply is never read and the counter stays at 5. *)
Theorem C4_retry_hangs_at_reset_threshold :
  let line := [NoReply; NoReply; NoReply;
               NoReply; NoReply; Reply sample_reply] in
  good_reply sample_reply = true
  /\ exists s1 s2,
       _transact sample_request (connected line) = Returns None s1
       /\ consecutive_failures s1 = 3
       /\ retry_count s1 = 3%nat
       /\ script s1 = [NoReply; NoReply; Reply sample_reply]
       /\ _transact sample_request s1 = Blocks s2
       /\ consecutive_failures s2 = 5
       /\ written s2 = sealed [1; 3; 0; 0; 0; 1] :: sealed [1; 3; 0; 0; 0; 1]
                         :: written s1
       /\ script s2 = [Reply sample_reply].
Proof.
  cbv zeta. split; [reflexivity|].
  eexists. eexists.
  split; [vm_compute; reflexivity|].
  repeat split; vm_compute; reflexivity.
Qed.

End Transport.

(* ===================================================================== *)
(** * The driver: reading the status                                      *)
(* ===================================================================== *)

Section Status.

Import PowerSupply Driver.





End Status.

(* ===================================================================== *)
(** * Laws of the effect monad                                            *)
(* ===================================================================== *)

Section Effects.

Context {S : Type}.


Lemma bind_get {B} (k : S -> M S B) (s : S) : bind get k s = k s s.
Proof. reflexivity. Qed.

Lemma bind_bind_get {A B} (k : S -> M S A) (k' : A -> M S B) (s : S) :
  bind (bind get k) k' s = bind (k s) k' s.
Proof. reflexivity. Qed.

Lemma bind_put {B} (s' : S) (k : unit -> M S B) (s : S) :
  bind (put s') k s = k tt s'.
Proof. reflexivity. Qed.

Lemma bind_modify {B} (f : S -> S) (k : unit -> M S B) (s : S) :
  bind (modify f) k s = k tt (f s).
Proof. reflexivity. Qed.

Lemma bind_assoc {A B C} (c : M S A) (k : A -> M S B) (k' : B -> M S C)
  (s : S) :
  bind (bind c k) k' s = bind c (fun a => bind (k a) k') s.
Proof. unfold bind. destruct (c s); reflexivity. Qed.

Lemma bind_returns {A B} (c : M S A) (k : A -> M S B) (s s' : S) (a : A) :
  c s = Returns a s' -> bind c k s = k a s'.
Proof. intros H. unfold bind. rewrite H. reflexivity. Qed.

Lemma nb_ret {A} (a : A) : never_blocks (S := S) (ret a).
Proof. intros s. exact I. Qed.

Lemma nb_raise {A} (e : string) : never_blocks (S := S) (A := A) (raise e).
Proof. intros s. exact I. Qed.

Lemma nb_get : never_blocks (S := S) get.
Proof. intros s. exact I. Qed.

Lemma nb_put (s' : S) : never_blocks (put s').
Proof. intros s. exact I. Qed.

Lemma nb_modify (f : S -> S) : never_blocks (modify f).
Proof. intros s. exact I. Qed.

Lemma nb_bind {A B} (c : M S A) (k : A -> M S B) :
  never_blocks c -> (forall a, never_blocks (k a)) ->
  never_blocks (bind c k).
Proof.
  intros Hc Hk s. unfold bind. specialize (Hc s).
  destruct (c s) as [a s' | e s' | s']; [apply Hk | exact I | exact Hc].
Qed.

Lemma nb_try {A} (c : M S A) (h : string -> M S A) :
  never_blocks c -> (forall e, never_blocks (h e)) ->
  never_blocks (try_except c h).
Proof.
  intros Hc Hh s. unfold try_except. specialize (Hc s).
  destruct (c s) as [a s' | e s' | s']; [exact I | apply Hh | exact Hc].
Qed.

Lemma keeps_ret {A} (I : S -> Prop) (a : A) : keeps I (ret a).
Proof. intros s H. exact H. Qed.

Lemma keeps_raise {A} (I : S -> Prop) (e : string) :
  keeps (A := A) I (raise e).
Proof. intros s H. exact H. Qed.

Lemma keeps_get (I : S -> Prop) : keeps I get.
Proof. intros s H. exact H. Qed.

Lemma keeps_modify (I : S -> Prop) (f : S -> S) :
  (forall s, I s -> I (f s)) -> keeps I (modify f).
Proof. intros Hf s H. apply Hf, H. Qed.

Lemma keeps_bind {A B} (I : S -> Prop) (c : M S A) (k : A -> M S B) :
  keeps I c -> (forall a, keeps I (k a)) -> keeps I (bind c k).
Proof.
  intros Hc Hk s H. unfold bind. specialize (Hc s H).
  destruct (c s) as [a s' | e s' | s']; [apply Hk, Hc | exact Hc | exact Hc].
Qed.

Lemma keeps_try {A} (I : S -> Prop) (c : M S A) (h : string -> M S A) :
  keeps I c -> (forall e, keeps I (h e)) -> keeps I (try_except c h).
Proof.
  intros Hc Hh s H. unfold try_except. specialize (Hc s H).
  destruct (c s) as [a s' | e s' | s']; [exact Hc | apply Hh, Hc | exact Hc].
Qed.

(** A handler that returns turns a computation that never blocks into
    one that always returns. *)
Lemma try_except_returns {A} (c : M S A) (h : string -> M S A) (s : S) :
  never_blocks c -> (forall e s', exists a s'', h e s' = Returns a s'') ->
  exists a s', try_except c h s = Returns a s'.
Proof.
  intros Hc Hh. unfold try_except. specialize (Hc s).
  destruct (c s) as [a s' | e s' | s'].
  - exists a, s'. reflexivity.
  - apply Hh.
  - contradiction.
Qed.

End Effects.

(* ===================================================================== *)
(** * The auto-tuner                                                      *)
(* ===================================================================== *)

Section Tuner.

Import AutoTuner.
Local Open Scope Q_scope.

Lemma Qdiv_pos (a b : Q) : 0 < a -> 0 < b -> 0 < a / b.
Proof.
  intros Ha Hb. apply Qlt_shift_div_l; [exact Hb | lra].
Qed.

Lemma bind_div {B} (a b : Q) (k : Q -> M t B) (s : t) :
  ~ b == 0 -> bind (div a b) k s = k (a / b) s.
Proof.
  intros Hb. unfold bind, div.
  destruct (Qeq_bool b 0) eqn:E; [|reflexivity].
  apply Qeq_bool_iff in E. contradiction.
Qed.

Lemma nb_div (a b : Q) : never_blocks (S := t) (div a b).
Proof. unfold div. destruct (Qeq_bool b 0); [apply nb_raise | apply nb_ret]. Qed.

Lemma nb_index (l : list Q) (i : nat) : never_blocks (S := t) (index l i).
Proof. unfold index. destruct (nth_error l i); [apply nb_ret | apply nb_raise]. Qed.

(** Close a [never_blocks] goal by following the structure of the
    computation. *)
Ltac nb :=
  repeat first
    [ apply nb_ret | apply nb_raise | apply nb_get | apply nb_put
    | apply nb_modify | apply nb_div | apply nb_index
    | apply nb_bind; [|intros]
    | apply nb_try; [|intros]
    | match goal with
      | |- never_blocks (if ?b then _ else _) => destruct b
      | |- never_blocks (match ?x with _ => _ end) => destruct x
      | |- never_blocks (let (_, _) := ?x in _) => destruct x
      end ].

Lemma nb_crossing_loop heating times temps t283 t632 range acc :
  never_blocks (crossing_loop heating times temps t283 t632 range acc).
Proof.
  revert acc. induction range as [|i range IH]; intros acc;
    cbn [crossing_loop]; [apply nb_ret|].
  apply nb_bind; [|intros; apply IH]. unfold crossing_step. nb.
Qed.

Lemma nb_cohen_coon delta_T : never_blocks (cohen_coon delta_T).
Proof. unfold cohen_coon. nb. Qed.

Lemma nb_analyze_body : never_blocks analyze_body.
Proof.
  unfold analyze_body.
  apply nb_bind; [apply nb_get|]. intros s.
  destruct (length (_time_data s) <? 10)%nat; [apply nb_ret|].
  destruct (_initial_temp s) as [T0|]; [|apply nb_ret].
  apply nb_bind; [destruct (_temp_data s); nb|]. intros T_final.
  destruct (Qlt_bool _ _); [apply nb_ret|].
  apply nb_bind; [apply nb_crossing_loop|]. intros [[t283|] [t632|]];
    nb; apply nb_cohen_coon.
Qed.

(** [_analyze_response] always returns: its handler catches whatever the
    analysis raises. *)
Lemma analyze_response_returns (s : t) :
  exists s', _analyze_response s = Returns tt s'.
Proof.
  destruct (try_except_returns analyze_body
              (fun e => bind (modify (set_state FAILED))
                          (fun _ => modify (set_message (AnalysisError e))))
              s nb_analyze_body) as ([] & s' & H).
  - intros e s'. eexists. eexists. reflexivity.
  - exists s'. exact H.
Qed.




(** The fallback raises nothing and always ends in [DONE]. *)
Lemma use_fallback_params_done (last_temp : Q) (s : t) :
  exists s', _use_fallback_params last_temp s = Returns tt s'
          /\ state s' = DONE.
Proof.
  unfold _use_fallback_params. rewrite bind_get.
  assert (Hdef : exists s',
             bind (modify (set_gains 1.5 0.02 2.0))
               (fun _ => bind (modify (set_state DONE))
                           (fun _ => modify (set_message Defaults))) s
             = Returns tt s' /\ state s' = DONE)
    by (eexists; split; reflexivity).
  destruct (_initial_temp s) as [T0|]; [|exact Hdef].
  destruct (5 <? length (_time_data s))%nat; [|exact Hdef].
  destruct (Qlt_bool_cases 0.5 (pyabs (T0 - last_temp)))
    as [[Hd ->] | [Hd ->]]; [|exact Hdef].
  destruct (Qlt_bool_cases 10 (last (_time_data s) 60))
    as [[He ->] | [He ->]]; [|exact Hdef].
  cbn [andb].
  set (K := pyabs (T0 - last_temp) / pymax (output_high s) 0.01).
  assert (HK : 0 < K).
  { apply Qdiv_pos; [lra|].
    destruct (pymax_cases (output_high s) 0.01) as [[? ->] | [? ->]]; lra. }
  assert (HKL : 0 < K * (last (_time_data s) 60 * 0.1))
    by (apply Qmult_lt_0_compat; lra).
  rewrite bind_div by lra. rewrite bind_div by lra.
  rewrite !bind_modify. eexists. split; reflexivity.
Qed.

Lemma timeout_fallback_done (measured : Q) (s : t) :
  exists s', timeout_fallback measured s = Returns 0.0 s' /\ state s' = DONE.
Proof.
  unfold timeout_fallback. rewrite bind_get, bind_put.
  destruct (use_fallback_params_done measured
              (set_message (TimedOut (max_time s)) (set_state FAILED s)))
    as (s' & H & Hst).
  exists s'. split; [|exact Hst].
  rewrite (bind_returns _ _ _ _ _ H). reflexivity.
Qed.

Lemma State_eqb_DONE (x : State) : State_eqb x DONE = true <-> x = DONE.
Proof. destruct x; cbn; split; congruence. Qed.

(** C6, as stated, fails at exactly 20 samples: the program attempts the
    analysis only with more than 20.  In this session (step at 25
    degrees, then 20 samples cooling to 15 degrees) the timeout tick does
    not analyse and returns the empirical gains, where an analysis "with
    at least 20 samples" would have ended with the fitted ones. *)
Lemma C6_twenty_samples_not_analysed :
  length (_time_data (session_with 20)) = 20%nat
  /\ exists s1 s2,
       step 301 14.8 (session_with 20) = Returns 0.0 s1
       /\ step_timeout_as_specified 14.8 (session_with 20) = Returns 0.0 s2
       /\ kp s1 == 84 # 17
       /\ kp s2 == 8113 # 3000
       /\ ~ kp s1 == kp s2.
Proof.
  split; [reflexivity|]. eexists. eexists.
  split; [vm_compute; reflexivity|].
  split; [vm_compute; reflexivity|].
  split; [vm_compute; reflexivity|].
  split; [vm_compute; reflexivity|].
  vm_compute. discriminate.
Qed.

(** C6 (amended): a [step] after the global timeout returns 0 and always
    leaves the session in state [DONE], never [FAILED].  With more than
    20 samples it first attempts the analysis and keeps its result when
    that ends in [DONE]; with 20 samples or fewer, or when the analysis
    does not end in [DONE], it takes the fallback gains (empirical from
    the observed change, or the conservative defaults). *)
Theorem C6_timeout_step (s : t) (now measured : Q) :
  max_time s < now - _start_time s ->
  exists s',
    step now measured s = Returns 0.0 s'
    /\ state s' = DONE
    /\ ((20 < length (_time_data s))%nat ->
          exists a, _analyze_response s = Returns tt a
                 /\ (state a = DONE -> s' = a)
                 /\ (state a <> DONE ->
                       timeout_fallback measured a = Returns 0.0 s'))
    /\ ((length (_time_data s) <= 20)%nat ->
          timeout_fallback measured s = Returns 0.0 s').
Proof.
  intros Hto.
  assert (Hstep : step now measured s = step_timeout measured s).
  { unfold step. rewrite bind_get.
    replace (Qlt_bool (max_time s) (now - _start_time s)) with true
      by (symmetry; apply Qlt_bool_true; exact Hto).
    reflexivity. }
  rewrite Hstep. unfold step_timeout. rewrite bind_get.
  destruct (20 <? length (_time_data s))%nat eqn:E.
  - apply Nat.ltb_lt in E.
    destruct (analyze_response_returns s) as (a & Ha).
    rewrite (bind_returns _ _ _ _ _ Ha), bind_get.
    destruct (State_eqb (state a) DONE) eqn:Ed.
    + apply State_eqb_DONE in Ed. exists a.
      split; [reflexivity|]. split; [exact Ed|]. split; [|lia].
      intros _. exists a. split; [exact Ha|]. split; [reflexivity|].
      intros Hn. contradiction.
    + destruct (timeout_fallback_done measured a) as (s' & Hf & Hst).
      exists s'. split; [exact Hf|]. split; [exact Hst|]. split; [|lia].
      intros _. exists a. split; [exact Ha|]. split; [|intros _; exact Hf].
      intros Hd. apply State_eqb_DONE in Hd. congruence.
  - apply Nat.ltb_ge in E.
    destruct (timeout_fallback_done measured s) as (s' & Hf & Hst).
    exists s'. split; [exact Hf|]. split; [exact Hst|]. split; [lia|].
    intros _. exact Hf.
Qed.

Lemma C6_timeout_step_witness :
  max_time (session_with 21) < 301 - _start_time (session_with 21)
  /\ exists s',
       step 301 14.8 (session_with 21) = Returns 0.0 s'
       /\ state s' = DONE.
Proof.
  assert (H : max_time (session_with 21) < 301 - _start_time (session_with 21))
    by (vm_compute; reflexivity).
  split; [exact H|].
  destruct (C6_timeout_step (session_with 21) 301 14.8 H)
    as (s' & Hs & Hd & _).
  exists s'. split; [exact Hs | exact Hd].
Defined.

(** X15: with five samples or fewer the timeout tick ends in [DONE]
    with the conservative default gains: a session without usable data is not
    left in [FAILED]. *)
Lemma timeout_without_data_gives_defaults (s : t) (now measured : Q) :
  max_time s < now - _start_time s ->
  (length (_time_data s) <= 5)%nat ->
  exists s',
    step now measured s = Returns 0.0 s'
    /\ state s' = DONE /\ message s' = Defaults
    /\ kp s' = 1.5 /\ ki s' = 0.02 /\ kd s' = 2.0.
Proof.
  intros Hto Hlen. unfold step. rewrite bind_get.
  replace (Qlt_bool (max_time s) (now - _start_time s)) with true
    by (symmetry; apply Qlt_bool_true; exact Hto).
  unfold step_timeout. rewrite bind_get.
  replace (20 <? length (_time_data s))%nat with false
    by (symmetry; apply Nat.ltb_ge; lia).
  unfold timeout_fallback. rewrite bind_get, bind_put.
  unfold _use_fallback_params. rewrite bind_bind_get.
  cbn [_initial_temp _time_data set_message set_state].
  replace (5 <? length (_time_data s))%nat with false
    by (symmetry; apply Nat.ltb_ge; lia).
  destruct (_initial_temp s); eexists; (split; [reflexivity|]);
    repeat split.
Qed.

End Tuner.


(* ===================================================================== *)
(** * The worker: the control flags                                       *)
(* ===================================================================== *)

Section Flags.

Import Worker.

Lemma keeps_on_power {A} (c : M Driver.t A) : keeps flags_agree (on_power c).
Proof.
  intros w H. unfold on_power. destruct (power w) as [d|]; [|exact H].
  destruct (c d); exact H.
Qed.

Lemma keeps_on_tuner {A} (c : M AutoTuner.t A) :
  keeps flags_agree (on_tuner c).
Proof.
  intros w H. unfold on_tuner. destruct (auto_tuner w) as [a|]; [|exact H].
  destruct (c a); exact H.
Qed.

(** Follow the structure of a worker computation; every state update
    either leaves the two flags alone or sets them to an agreeing pair. *)
Ltac keep :=
  repeat first
    [ apply keeps_ret | apply keeps_raise | apply keeps_get
    | apply keeps_on_power | apply keeps_on_tuner
    | apply keeps_modify; intros ? ?;
      first [ assumption | intros ?; reflexivity | intros ?; discriminate ]
    | apply keeps_bind; [|intros]
    | apply keeps_try; [|intros]
    | match goal with
      | |- keeps _ (if ?b then _ else _) => destruct b
      | |- keeps _ (let (_, _) := ?x in _) => destruct x
      | |- keeps _ (match ?x with _ => _ end) => destruct x
      end ].

Lemma keeps_guarded_set_current (x : Q) :
  keeps flags_agree (guarded_set_current x).
Proof. unfold guarded_set_current. keep. Qed.

Lemma keeps_safety_stop (measured limit : Q) :
  keeps flags_agree (_safety_stop measured limit).
Proof.
  unfold _safety_stop. keep.
Qed.

Lemma keeps_on_auto_tune_done : keeps flags_agree _on_auto_tune_done.
Proof.
  unfold _on_auto_tune_done. keep.
Qed.

Lemma keeps_on_auto_tune_failed : keeps flags_agree _on_auto_tune_failed.
Proof.
  unfold _on_auto_tune_failed. keep.
Qed.

Lemma keeps_actuate (now measured target output : Q) :
  keeps flags_agree (actuate now measured target output).
Proof. unfold actuate. keep. Qed.




Lemma keeps_do_stop_control : keeps flags_agree _do_stop_control.
Proof.
  unfold _do_stop_control. keep.
Qed.



End Flags.
(* ===================================================================== *)
(** * From [set_current(0.0)] to the wire                                 *)
(* ===================================================================== *)

Section Wire.

Import ModbusRTU.

Variable frame : list byte.
Variable before : list (list byte).

Local Abbreviation logged := (wrote_after frame before).

Lemma logged_log_write (f : list byte) (m : t) :
  logged m -> logged (log_write f m).
Proof.
  intros [extra H]. exists (f :: extra). cbn [written log_write].
  rewrite H. reflexivity.
Qed.

Lemma keeps_send_frame (f : list byte) : keeps logged (_send_frame f).
Proof.
  intros m H. unfold _send_frame. destruct (negb (is_connected m)); [exact H|].
  destruct (script m) as [|[| |?] ?]; exact (logged_log_write f m H).
Qed.

Lemma keeps_receive_frame : keeps logged _receive_frame.
Proof.
  intros m H. unfold _receive_frame.
  destruct (negb (is_connected m)); [exact H|].
  destruct (script m) as [|[| |arrived] ?]; cbn [final]; try exact H.
  destruct (length arrived <? MIN_RESPONSE_LENGTH)%nat; exact H.
Qed.

Lemma keeps_reset_serial_port : keeps logged _reset_serial_port.
Proof.
  intros m H. unfold _reset_serial_port, try_except, with_io_lock.
  destruct (io_lock m); [exact H|].
  cbn [reopen_ok set_lock]. destruct (reopen_ok m); exact H.
Qed.

(** An attempt is a send followed by a tail that only adds to the log. *)
Lemma attempt_once_tail (f : list byte) :
  exists tail,
    attempt_once f = bind (_send_frame f) tail
    /\ forall sent, keeps logged (tail sent).
Proof.
  eexists. split; [reflexivity|]. intros sent. cbv beta.
  assert (Hfail : keeps logged
                    (bind count_failure
                       (fun _ => bind reset_if_needed
                                   (fun _ => ret (@None ModbusResponse.t))))).
  { apply keeps_bind; [apply keeps_modify; intros ? H; exact H|]. intros _.
    apply keeps_bind; [|intros; apply keeps_ret].
    unfold reset_if_needed. apply keeps_bind; [apply keeps_get|]. intros m.
    destruct (_ <=? _); [|apply keeps_ret].
    apply keeps_bind; [apply keeps_reset_serial_port|].
    intros; apply keeps_ret. }
  destruct (negb sent).
  - apply keeps_bind; [apply keeps_modify; intros ? H; exact H|].
    intros; apply keeps_ret.
  - apply keeps_bind; [apply keeps_receive_frame|]. intros [response|];
      [|exact Hfail].
    destruct (negb (CRC16.verify response)); [exact Hfail|].
    unfold parse_response. destruct response as [|? [|? [|? ?]]];
      try apply keeps_ret.
    destruct (negb _);
      (apply keeps_bind; [apply keeps_modify; intros ? H; exact H|];
       intros; apply keeps_ret).
Qed.

Lemma keeps_attempt_once (f : list byte) : keeps logged (attempt_once f).
Proof.
  destruct (attempt_once_tail f) as (tail & -> & Ht).
  apply keeps_bind; [apply keeps_send_frame | exact Ht].
Qed.

Lemma keeps_attempts (n : nat) (f : list byte) : keeps logged (attempts n f).
Proof.
  induction n as [|n IH]; cbn [attempts]; [apply keeps_ret|].
  apply keeps_bind; [apply keeps_attempt_once|].
  intros [resp|]; [apply keeps_ret | exact IH].
Qed.

End Wire.

Section Wire_zero_current.

Import ModbusRTU.

(** The first attempt of a transaction on an open port with a free lock
    writes the sealed request; whatever follows, that frame stays in the
    log of written frames, on top of what was written before. *)
Lemma transact_writes_frame (request frame : list byte) (m : t) :
  CRC16.append request = Some frame ->
  port_open m = true -> io_lock m = false -> (0 < retry_count m)%nat ->
  wrote_after frame (written m) (final (_transact request m)).
Proof.
  intros Hf Hp Hl Hr. unfold _transact. rewrite Hf.
  unfold with_io_lock. rewrite Hl. set (m0 := set_lock true m).
  rewrite bind_get. change (retry_count m0) with (retry_count m).
  destruct (retry_count m) as [|n] eqn:Hn; [lia|]. cbn [attempts].
  destruct (attempt_once_tail frame (written m) frame) as (tail & -> & Ht).
  rewrite bind_assoc.
  assert (Hsend : exists sent m1,
             _send_frame frame m0 = Returns sent m1
             /\ wrote_after frame (written m) m1).
  { unfold _send_frame, is_connected, m0. cbn [port_open script set_lock].
    rewrite Hp. cbn [negb].
    destruct (script m) as [|[| |?] ?]; eexists; eexists;
      (split; [reflexivity|]); exists []; reflexivity. }
  destruct Hsend as (sent & m1 & Hs & Hw).
  rewrite (bind_returns _ _ _ _ _ Hs).
  match goal with
  | |- wrote_after _ _ (final (match ?c m1 with _ => _ end)) =>
      assert (Hk : keeps (wrote_after frame (written m)) c)
  end.
  { apply keeps_bind; [apply Ht|].
    intros [resp|]; [apply keeps_ret | apply keeps_attempts]. }
  specialize (Hk m1 Hw).
  match goal with
  | |- wrote_after _ _ (final (match ?c with _ => _ end)) =>
      destruct c as [a m2 | e m2 | m2]
  end; exact Hk.
Qed.

(** On a connected driver with a station address that fits in a byte and
    at least one attempt allowed, [set_current(0.0)] puts the sealed
    zero-current request on the wire. *)
Lemma set_current_zero_on_the_wire (d : Driver.t) (m : t)
  (frame : list byte) :
  Driver.modbus d = Some m ->
  port_open m = true -> io_lock m = false -> (0 < retry_count m)%nat ->
  0 <= Driver.slave_address d <= 255 ->
  CRC16.append (zero_current_request (Driver.slave_address d)) = Some frame ->
  driver_wrote_after frame (written m) (final (Driver.set_current 0.0 d)).
Proof.
  intros Hm Hp Hl Hr Ha Hf.
  unfold Driver.set_current.
  change (negb (PowerSupply.validate_current Driver.specification 0.0))
    with false. cbv iota.
  change (py_int (0.0 * 1000)) with 0.
  unfold Driver._write_register. rewrite bind_get.
  assert (Hc : Driver.is_connected d = true)
    by (unfold Driver.is_connected; rewrite Hm; exact Hp).
  rewrite Hc. cbn [negb].
  assert (Hpack : pack_BBHH (Driver.slave_address d) WRITE_SINGLE_REGISTER
                    Driver.Register.CURRENT_SET 0
                  = Some (zero_current_request (Driver.slave_address d))).
  { unfold pack_BBHH.
    replace (0 <=? Driver.slave_address d) with true
      by (symmetry; apply Z.leb_le; lia).
    replace (Driver.slave_address d <=? 255) with true
      by (symmetry; apply Z.leb_le; lia).
    reflexivity. }
  pose proof (transact_writes_frame _ frame m Hf Hp Hl Hr) as Hw.
  unfold bind at 1. unfold Driver.on_modbus. rewrite Hm.
  unfold write_single_register. rewrite Hpack. unfold bind at 1.
  destruct (_transact (zero_current_request (Driver.slave_address d)) m)
    as [resp m' | e m' | m']; cbn [final] in Hw.
  - unfold ret. destruct (negb _); cbn [final];
      exists m'; split; try reflexivity; exact Hw.
  - exists m'. split; [reflexivity | exact Hw].
  - exists m'. split; [reflexivity | exact Hw].
Qed.

End Wire_zero_current.

(* ===================================================================== *)
(** * The worker: safety supervision                                      *)
(* ===================================================================== *)

Section Safety.

Import Worker.
Local Open Scope Q_scope.

(** A guarded [set_current(x)] changes nothing but the driver, and it
    either returns or hangs in the transport. *)
Lemma guarded_set_current_outcome (x : Q) (w : t) :
  guarded_set_current x w = Returns tt (set_power (power_after x w) w)
  \/ guarded_set_current x w = Blocks (set_power (power_after x w) w).
Proof.
  unfold guarded_set_current, power_after. rewrite bind_get.
  destruct (power_connected w) eqn:Hc.
  - unfold power_connected in Hc.
    destruct w as [pw c1 c2 d1 d2 pd en tu at_ st sc ct cf am ck sg].
    cbn [power] in *. destruct pw as [d|]; [|discriminate].
    unfold try_except, bind, on_power. cbn [power option_map].
    destruct (Driver.set_current x d) as [b d' | e d' | d']; cbn [final];
      [left | left | right]; reflexivity.
  - left. destruct w. reflexivity.
Qed.

(** The state in which [_safety_stop] ends, whether the zero-current
    command returns or hangs. *)
Lemma safety_stop_final (measured limit : Q) (w : t) :
  let r := final (_safety_stop measured limit w) in
  pid_enabled r = false /\ auto_tuning r = false
  /\ control_timer (clock r) = false
  /\ safety_triggered r = true
  /\ safety_stop_count r = (safety_stop_count w + 1)%Z
  /\ restart_shots (clock r) = restart_shots (clock w)
  /\ power r = power_after 0.0 w.
Proof.
  cbv zeta. remember (final (_safety_stop measured limit w)) as r eqn:Er.
  unfold _safety_stop in Er. rewrite !bind_modify in Er.
  set (w3 := set_clock _ _) in Er.
  assert (Hpa : power_after 0.0 w3 = power_after 0.0 w) by reflexivity.
  unfold bind at 1 in Er.
  destruct (guarded_set_current_outcome 0.0 w3) as [H | H];
    rewrite H, Hpa in Er; subst r; repeat split; reflexivity.
Qed.

(** A safety tick is [_safety_stop]. *)
Lemma control_loop_safety_branch (now measured : Q) (w : t) :
  pid_enabled w = true ->
  _get_fused_temperature w = Some measured ->
  safety_temp (config w) < measured ->
  _control_loop now w = _safety_stop measured (safety_temp (config w)) w.
Proof.
  intros He Hf Hs. unfold _control_loop. rewrite bind_get, He, Hf.
  cbn [negb].
  replace (Qlt_bool (safety_temp (config w)) measured) with true
    by (symmetry; apply Qlt_bool_true; exact Hs).
  reflexivity.
Qed.





(** The safety tick on any worker whose [_pid_enabled] is set. *)
Lemma safety_tick (w : t) (now measured : Q) :
  pid_enabled w = true ->
  _get_fused_temperature w = Some measured ->
  safety_temp (config w) < measured ->
  let w1 := final (_control_loop now w) in
  pid_enabled w1 = false /\ auto_tuning w1 = false
  /\ control_timer (clock w1) = false
  /\ restart_shots (clock w1) = restart_shots (clock w)
  /\ (power_connected w = true -> zero_current_commanded w w1)
  /\ (power_connected w = false -> power w1 = power w).
Proof.
  intros He Hf Hs. cbv zeta.
  rewrite (control_loop_safety_branch now measured w He Hf Hs).
  destruct (safety_stop_final measured (safety_temp (config w)) w)
    as (H1 & H2 & H3 & _ & _ & H6 & H7).
  split; [exact H1|]. split; [exact H2|]. split; [exact H3|].
  split; [exact H6|]. rewrite H7. unfold power_after. split; intros Hc.
  - unfold zero_current_commanded. rewrite H7.
    unfold power_after. rewrite Hc. unfold power_connected in Hc.
    destruct (power w) as [d|]; [|discriminate].
    exists d. split; reflexivity.
  - rewrite Hc. reflexivity.
Qed.

(** X30: end to end, when the supply held by the worker is connected,
    its lock is free, its station address fits in a byte and at least one
    attempt is allowed, the safety tick puts the sealed zero-current
    request on the serial line. *)
Lemma safety_tick_on_the_wire (w : t) (now measured : Q) (d : Driver.t)
  (m : ModbusRTU.t) (frame : list byte) :
  pid_enabled w = true ->
  _get_fused_temperature w = Some measured ->
  safety_temp (config w) < measured ->
  power w = Some d -> Driver.modbus d = Some m ->
  ModbusRTU.port_open m = true -> ModbusRTU.io_lock m = false ->
  (0 < ModbusRTU.retry_count m)%nat ->
  (0 <= Driver.slave_address d <= 255)%Z ->
  CRC16.append (zero_current_request (Driver.slave_address d)) = Some frame ->
  exists d',
    power (final (_control_loop now w)) = Some d'
    /\ driver_wrote_after frame (ModbusRTU.written m) d'.
Proof.
  intros He Hf Hs Hd Hm Hp Hl Hr Ha Hfr.
  destruct (safety_tick w now measured He Hf Hs) as (_ & _ & _ & _ & Hz & _).
  assert (Hc : power_connected w = true).
  { unfold power_connected, Driver.is_connected. rewrite Hd, Hm. exact Hp. }
  destruct (Hz Hc) as (d0 & Hd0 & Hd'). rewrite Hd in Hd0.
  injection Hd0 as <-. eexists. split; [exact Hd'|].
  apply set_current_zero_on_the_wire; assumption.
Qed.



End Safety.

(* ===================================================================== *)
(** * CRC16: what the checksum detects                                    *)
(* ===================================================================== *)

Section CRC16_detection.

Import CRC16.

Lemma byte_val_inj (a b : byte) : byte_val a = byte_val b -> a = b.
Proof.
  unfold byte_val. intros H. apply N2Z.inj in H.
  pose proof (Byte.of_to_N a) as Ha. pose proof (Byte.of_to_N b) as Hb.
  rewrite H in Ha. congruence.
Qed.

Lemma byte_of_Z_val (b : byte) : byte_of_Z (byte_val b) = b.
Proof.
  apply byte_val_inj. rewrite byte_val_of_Z.
  apply Z.mod_small, byte_val_range.
Qed.

Lemma in_byte_values (i : Z) : 0 <= i < 256 -> In i byte_values.
Proof.
  intros H. unfold byte_values.
  replace i with (Z.of_nat (Z.to_nat i)) by lia.
  apply in_map, in_seq. lia.
Qed.

Lemma land_lxor_distr (a b c : Z) :
  Z.land (Z.lxor a b) c = Z.lxor (Z.land a c) (Z.land b c).
Proof.
  apply Z.bits_inj'. intros n Hn.
  rewrite Z.land_spec, !Z.lxor_spec, !Z.land_spec.
  destruct (Z.testbit a n), (Z.testbit b n), (Z.testbit c n); reflexivity.
Qed.

Lemma land_255_range (a : Z) : 0 <= Z.land a 0xFF < 256.
Proof.
  change 0xFF with (Z.ones 8). rewrite Z.land_ones by lia.
  apply Z.mod_pos_bound. lia.
Qed.

(** The table is linear over exclusive or. *)
Lemma table_linear (i j : Z) :
  0 <= i < 256 -> 0 <= j < 256 ->
  table_get (Z.lxor i j) = Z.lxor (table_get i) (table_get j).
Proof.
  intros Hi Hj.
  assert (H : forallb (fun i =>
                forallb (fun j =>
                  table_get (Z.lxor i j)
                  =? Z.lxor (table_get i) (table_get j)) byte_values)
                byte_values = true) by (vm_compute; reflexivity).
  rewrite forallb_forall in H. specialize (H i (in_byte_values i Hi)).
  rewrite forallb_forall in H. specialize (H j (in_byte_values j Hj)).
  apply Z.eqb_eq, H.
Qed.

(** Only index 0 has an entry below 256, and that entry is 0. *)
Lemma table_low_entry (i : Z) :
  0 <= i < 256 -> table_get i < 256 -> i = 0 /\ table_get i = 0.
Proof.
  intros Hi Hlow.
  assert (H : forallb (fun i => (i =? 0) && (table_get i =? 0)
                                || (256 <=? table_get i)) byte_values = true)
    by (vm_compute; reflexivity).
  rewrite forallb_forall in H. specialize (H i (in_byte_values i Hi)).
  apply orb_prop in H as [H | H].
  - apply andb_prop in H as [H1 H2]. split; apply Z.eqb_eq; assumption.
  - apply Z.leb_le in H. lia.
Qed.

Lemma lxor_swap4 (a b c d : Z) :
  Z.lxor (Z.lxor a b) (Z.lxor c d) = Z.lxor (Z.lxor a c) (Z.lxor b d).
Proof.
  apply Z.bits_inj'. intros n Hn. rewrite !Z.lxor_spec.
  destruct (Z.testbit a n), (Z.testbit b n), (Z.testbit c n),
    (Z.testbit d n); reflexivity.
Qed.

(** The registers of two runs differ as [diff_step] says. *)
Lemma calc_step_diff (c1 c2 : Z) (b1 b2 : byte) :
  Z.lxor (calc_step c1 b1) (calc_step c2 b2)
  = diff_step (Z.lxor c1 c2) (Z.lxor (byte_val b1) (byte_val b2)).
Proof.
  unfold calc_step, diff_step.
  rewrite Z.shiftr_lxor, (lxor_swap4 c1 c2).
  rewrite (land_lxor_distr (Z.lxor c1 (byte_val b1))).
  rewrite table_linear by apply land_255_range.
  apply lxor_swap4.
Qed.

(** A non-zero difference never vanishes while both runs read the same
    bytes. *)
Lemma diff_step_nonzero (d : Z) : u16 d -> d <> 0 -> diff_step d 0 <> 0.
Proof.
  intros [H0 H1] Hd Hz. unfold diff_step in Hz.
  rewrite Z.lxor_0_r in Hz. apply Z.lxor_eq in Hz.
  assert (Hs : 0 <= Z.shiftr d 8 < 256).
  { rewrite Z.shiftr_div_pow2 by lia. split.
    - apply Z.div_pos; lia.
    - apply Z.div_lt_upper_bound; lia. }
  destruct (table_low_entry (Z.land d 0xFF) (land_255_range d)) as [Hl Ht];
    [rewrite <- Hz; lia|].
  rewrite Ht in Hz.
  change 0xFF with (Z.ones 8) in Hl. rewrite Z.land_ones in Hl by lia.
  rewrite Z.shiftr_div_pow2 in Hz by lia. change (2 ^ 8) with 256 in *.
  pose proof (Z.div_mod d 256). lia.
Qed.

Lemma diff_step_u16 (d e : Z) : u16 d -> u16 (diff_step d e).
Proof.
  intros [H0 H1]. unfold diff_step. apply lxor_u16.
  - rewrite Z.shiftr_div_pow2 by lia. split.
    + apply Z.div_pos; lia.
    + apply Z.div_lt_upper_bound; lia.
  - apply table_get_u16.
Qed.

Lemma fold_diff_nonzero (post : list byte) (c1 c2 : Z) :
  u16 c1 -> u16 c2 -> c1 <> c2 ->
  fold_left calc_step post c1 <> fold_left calc_step post c2.
Proof.
  revert c1 c2. induction post as [|b post IH]; intros c1 c2 H1 H2 Hne.
  - exact Hne.
  - cbn [fold_left]. apply IH; try (apply calc_step_u16; assumption).
    intros Heq. apply Z.lxor_eq_0_iff in Heq.
    rewrite calc_step_diff, Z.lxor_nilpotent in Heq.
    apply (diff_step_nonzero (Z.lxor c1 c2)); [apply lxor_u16; assumption | |
                                                exact Heq].
    intros Hz. apply Z.lxor_eq in Hz. contradiction.
Qed.

(** Two messages that differ in exactly one byte never have the same
    checksum. *)
Lemma calculate_differs (pre post : list byte) (b b' : byte) :
  b <> b' ->
  calculate (pre ++ b :: post) <> calculate (pre ++ b' :: post).
Proof.
  intros Hne. unfold calculate. rewrite !fold_left_app. cbn [fold_left].
  set (c := fold_left calc_step pre 0xFFFF).
  assert (Hc : u16 c) by (apply fold_calc_u16; split; lia).
  apply fold_diff_nonzero; try (apply calc_step_u16; exact Hc).
  intros Heq. apply Z.lxor_eq_0_iff in Heq.
  rewrite calc_step_diff, Z.lxor_nilpotent in Heq.
  unfold diff_step in Heq. rewrite Z.shiftr_0_l, Z.lxor_0_l, Z.lxor_0_l in Heq.
  pose proof (byte_val_range b) as Hb. pose proof (byte_val_range b') as Hb'.
  assert (He : 0 <= Z.lxor (byte_val b) (byte_val b') < 256).
  { split; [apply Z.lxor_nonneg; lia|].
    destruct (Z.eq_dec (Z.lxor (byte_val b) (byte_val b')) 0) as [->|Hn];
      [lia|].
    assert (0 < Z.lxor (byte_val b) (byte_val b'))
      by (pose proof (proj2 (Z.lxor_nonneg (byte_val b) (byte_val b'))); lia).
    apply (Z.log2_lt_pow2 _ 8); [assumption|].
    eapply Z.le_lt_trans; [apply Z.log2_lxor; lia|].
    apply Z.max_lub_lt.
    - destruct (Z.eq_dec (byte_val b) 0) as [->|]; [reflexivity|].
      apply Z.log2_lt_pow2; lia.
    - destruct (Z.eq_dec (byte_val b') 0) as [->|]; [reflexivity|].
      apply Z.log2_lt_pow2; lia. }
  assert (Hm : Z.land (Z.lxor (byte_val b) (byte_val b')) 0xFF
               = Z.lxor (byte_val b) (byte_val b')).
  { change 0xFF with (Z.ones 8). rewrite Z.land_ones by lia.
    apply Z.mod_small. exact He. }
  rewrite Hm in Heq.
  destruct (table_low_entry _ He) as [Hz _]; [rewrite Heq; lia|].
  apply Z.lxor_eq in Hz. apply byte_val_inj in Hz. contradiction.
Qed.

(** [verify] on a frame whose last two bytes are [tail]. *)
Lemma verify_app2 (s tail : list byte) :
  length tail = 2%nat ->
  verify (s ++ tail)
  = match s with
    | [] => false
    | _ => match unpack_le_H tail with
           | Some received => received =? calculate s
           | None => false
           end
    end.
Proof.
  intros Hl. unfold verify. rewrite length_app, Hl.
  destruct s as [|b s]; [reflexivity|]. cbn [length].
  replace (S (length s) + 2 <? 3)%nat with false
    by (symmetry; apply Nat.ltb_ge; lia).
  replace (S (length s) + 2 - 2)%nat with (length (b :: s))
    by (cbn [length]; lia).
  rewrite skipn_app, skipn_all, Nat.sub_diag, firstn_app, firstn_all,
    Nat.sub_diag. cbn [skipn]. cbn [firstn]. rewrite app_nil_r, app_nil_l.
  reflexivity.
Qed.

Lemma unpack_le_H_inj (a b c d : byte) :
  unpack_le_H [a; b] = unpack_le_H [c; d] -> a = c /\ b = d.
Proof.
  cbn [unpack_le_H]. intros H.
  assert (H' : byte_val a + 256 * byte_val b = byte_val c + 256 * byte_val d)
    by congruence. clear H.
  pose proof (byte_val_range a). pose proof (byte_val_range b).
  pose proof (byte_val_range c). pose proof (byte_val_range d).
  split; apply byte_val_inj; lia.
Qed.

Lemma pack_le_H_two (v : Z) (tail : list byte) :
  pack_le_H v = Some tail -> exists lo hi, tail = [lo; hi].
Proof.
  unfold pack_le_H. destruct (_ && _); [|discriminate].
  intros [= <-]. eexists. eexists. reflexivity.
Qed.

(** A frame in which one byte of the tail was replaced. *)
Lemma verify_rejects_tail (s : list byte) (lo hi lo' hi' : byte) :
  pack_le_H (calculate s) = Some [lo; hi] ->
  [lo'; hi'] <> [lo; hi] ->
  verify (s ++ [lo'; hi']) = false.
Proof.
  intros Hp Hne. rewrite verify_app2 by reflexivity.
  destruct s as [|b s]; [reflexivity|].
  apply unpack_pack_le_H in Hp as [Hu _].
  destruct (unpack_le_H [lo'; hi']) as [r|] eqn:Er; [|reflexivity].
  apply Z.eqb_neq. intros ->. rewrite <- Hu in Er.
  apply unpack_le_H_inj in Er as [-> ->]. contradiction.
Qed.

(** X1: the checksum always fits in 16 bits. *)
Theorem crc_fits_16_bits (data : list byte) :
  0 <= calculate data <= 0xFFFF.
Proof. pose proof (calculate_u16 data) as [H0 H1]. lia. Qed.

(** X2: replacing any one byte of a sealed frame by a different byte (in
    particular flipping a single bit) makes [verify] reject the frame. *)
Theorem verify_rejects_single_byte_corruption (s pre post : list byte)
  (b b' : byte) :
  append s = Some (pre ++ b :: post) -> b <> b' ->
  verify (pre ++ b' :: post) = false.
Proof.
  intros Ha Hne.
  destruct (append_total s) as (tail & Hp & Hs). rewrite Hs in Ha.
  injection Ha as Ha.
  destruct (pack_le_H_two _ _ Hp) as (lo & hi & ->).
  apply app_eq_app in Ha as [l [[H1 H2] | [H1 H2]]].
  - destruct l as [|x l].
    + rewrite app_nil_r in H1. cbn [app] in H2.
      injection H2 as <- ->. subst pre.
      apply (verify_rejects_tail s b hi b' hi Hp). congruence.
    + cbn [app] in H2. injection H2 as <- ->. subst s.
      replace (pre ++ b' :: l ++ [lo; hi])
        with ((pre ++ b' :: l) ++ [lo; hi])
        by (rewrite <- app_assoc; reflexivity).
      rewrite verify_app2 by reflexivity.
      destruct (pre ++ b' :: l) eqn:E; [reflexivity|]. rewrite <- E.
      apply unpack_pack_le_H in Hp as [Hu _]. rewrite Hu.
      apply Z.eqb_neq. apply calculate_differs. exact Hne.
  - destruct l as [|x [|y l]].
    + rewrite app_nil_r in H1. cbn [app] in H2.
      injection H2 as -> <-. subst pre.
      apply (verify_rejects_tail s b hi b' hi Hp). congruence.
    + cbn [app] in H2. injection H2 as -> -> <-. subst pre.
      rewrite <- app_assoc. cbn [app].
      apply (verify_rejects_tail s x b x b' Hp). congruence.
    + cbn [app] in H2. injection H2 as _ _ H2.
      destruct l; discriminate.
Qed.

Lemma verify_rejects_single_byte_corruption_witness :
  append [x01; x03; x00; x00; x00; x01]
  = Some ([x01; x03; x00] ++ x00 :: [x00; x01; x84; x0a])
  /\ x00 <> x10
  /\ verify ([x01; x03; x00] ++ x10 :: [x00; x01; x84; x0a]) = false.
Proof.
  assert (H1 : append [x01; x03; x00; x00; x00; x01]
               = Some ([x01; x03; x00] ++ x00 :: [x00; x01; x84; x0a]))
    by reflexivity.
  assert (H2 : x00 <> x10) by discriminate.
  split; [exact H1|]. split; [exact H2|].
  exact (verify_rejects_single_byte_corruption _ _ _ _ _ H1 H2).
Defined.

(** X3: [verify] accepts exactly the sealed non-empty sequences: a frame
    passes if and only if it is some non-empty [s] followed by the
    checksum that [append] computes for [s]. *)
Theorem verify_accepts_exactly_sealed (frame : list byte) :
  verify frame = true <-> exists s, s <> [] /\ append s = Some frame.
Proof.
  split.
  - intros Hv. unfold verify in Hv.
    destruct (length frame <? 3)%nat eqn:El; [discriminate|].
    apply Nat.ltb_ge in El.
    set (n := (length frame - 2)%nat) in *.
    assert (Hsplit : frame = firstn n frame ++ skipn n frame)
      by (symmetry; apply firstn_skipn).
    destruct (skipn n frame) as [|lo [|hi [|? ?]]] eqn:Et;
      cbn [unpack_le_H] in Hv; try discriminate.
    apply Z.eqb_eq in Hv.
    exists (firstn n frame). split.
    + intros Hnil. apply (f_equal (@length byte)) in Hnil.
      rewrite length_firstn in Hnil. cbn [length] in Hnil. lia.
    + unfold append, pack_le_H. rewrite <- Hv.
      pose proof (byte_val_range lo). pose proof (byte_val_range hi).
      replace ((0 <=? byte_val lo + 256 * byte_val hi)
               && (byte_val lo + 256 * byte_val hi <=? 65535)) with true
        by (symmetry; apply andb_true_intro; split; apply Z.leb_le; lia).
      transitivity (Some (firstn n frame ++ [lo; hi]));
        [|rewrite <- Hsplit; reflexivity].
      do 3 f_equal.
      * apply byte_val_inj. rewrite byte_val_of_Z. symmetry.
        apply (Z.mod_unique_pos _ 256 (byte_val hi)); lia.
      * f_equal. apply byte_val_inj. rewrite byte_val_of_Z.
        rewrite Z.shiftr_div_pow2 by lia. change (2 ^ 8) with 256.
        rewrite <- (Z.div_unique_pos (byte_val lo + 256 * byte_val hi) 256
                      (byte_val hi) (byte_val lo)) by lia.
        apply Z.mod_small. lia.
  - intros (s & Hne & Ha).
    destruct (append_total s) as (tail & Hp & Hs). rewrite Hs in Ha.
    injection Ha as <-. apply verify_sealed; assumption.
Qed.

Lemma verify_accepts_exactly_sealed_witness :
  verify [x01; x03; x00; x00; x00; x01; x84; x0a] = true
  /\ exists s, s <> []
            /\ append s = Some [x01; x03; x00; x00; x00; x01; x84; x0a].
Proof.
  assert (H : verify [x01; x03; x00; x00; x00; x01; x84; x0a] = true)
    by reflexivity.
  split; [exact H|].
  exact (proj1 (verify_accepts_exactly_sealed _) H).
Defined.

End CRC16_detection.

(* ===================================================================== *)
(** * The transport: exhausted retries, closed ports, exception replies   *)
(* ===================================================================== *)

Section Transport_more.

Import ModbusRTU.

Lemma set_failures_twice (a b : Z) (s : t) :
  set_failures a (set_failures b s) = set_failures a s.
Proof. reflexivity. Qed.

(** Every attempt on a closed port fails before anything is written. *)
Lemma attempts_closed_port (n : nat) (frame : list byte) (s : t) :
  port_open s = false ->
  attempts n frame s
  = Returns None (set_failures (consecutive_failures s + Z.of_nat n) s).
Proof.
  revert s. induction n as [|n IH]; intros s Hp.
  - cbn [attempts]. unfold ret. f_equal. destruct s. cbn.
    rewrite Z.add_0_r. reflexivity.
  - cbn [attempts].
    assert (H1 : attempt_once frame s
                 = Returns None
                     (set_failures (consecutive_failures s + 1) s)).
    { unfold attempt_once, bind, _send_frame, is_connected. rewrite Hp.
      reflexivity. }
    rewrite (bind_returns _ _ _ _ _ H1). rewrite IH by exact Hp.
    cbn [consecutive_failures set_failures]. rewrite set_failures_twice.
    do 2 f_equal. lia.
Qed.

(** X4: on a closed port a transaction writes nothing, returns [None]
    and adds [retry_count] to the failure counter; however high the
    counter is, it returns. *)
Theorem transact_on_closed_port (request : list byte) (s : t) :
  port_open s = false -> io_lock s = false ->
  _transact request s
  = Returns None
      (set_failures (consecutive_failures s + Z.of_nat (retry_count s)) s).
Proof.
  intros Hp Hl. unfold _transact.
  destruct (append_total request) as (tail & _ & ->).
  unfold with_io_lock. rewrite Hl, bind_get.
  rewrite attempts_closed_port by exact Hp.
  destruct s. cbn in *. subst. reflexivity.
Qed.

Lemma transact_on_closed_port_witness :
  let s := mk 3 false 7 false true [Reply sample_reply] [] in
  port_open s = false /\ io_lock s = false
  /\ _transact sample_request s
     = Returns None (mk 3 false 10 false true [Reply sample_reply] []).
Proof.
  cbv zeta. split; [reflexivity|]. split; [reflexivity|].
  rewrite transact_on_closed_port by reflexivity. reflexivity.
Defined.

(** Rejected attempts below the reset threshold, one after the other. *)
Lemma attempts_all_rejected (failing : list attempt) (frame : list byte)
  (s : t) (rest : list attempt) :
  port_open s = true -> script s = failing ++ rest ->
  forallb fails failing = true ->
  consecutive_failures s + Z.of_nat (length failing)
    < MAX_CONSECUTIVE_FAILURES ->
  attempts (length failing) frame s
  = Returns None
      (mk (retry_count s) true
          (consecutive_failures s + Z.of_nat (length failing)) (io_lock s)
          (reopen_ok s) rest (repeat frame (length failing) ++ written s)).
Proof.
  revert s. induction failing as [|a failing IH]; intros s Hp Hs Hf Hc.
  - cbn [length attempts repeat app]. unfold ret. f_equal.
    destruct s. cbn in *. subst. rewrite Z.add_0_r. reflexivity.
  - cbn [length attempts]. cbn [forallb] in Hf.
    apply andb_prop in Hf as [Ha Hf]. cbn [length] in Hc.
    rewrite (bind_returns _ _ _ _ _
               (attempt_once_rejected frame s a (failing ++ rest) Hp Hs Ha
                  ltac:(lia))).
    rewrite IH; cbn [port_open script consecutive_failures retry_count
                     io_lock reopen_ok written]; try reflexivity;
      try assumption; [|lia].
    f_equal. f_equal; [lia|].
    change (repeat frame (S (length failing)))
      with (frame :: repeat frame (length failing)).
    rewrite (repeat_cons (length failing) frame), <- app_assoc.
    reflexivity.
Qed.

(** X5: when every allowed attempt is rejected and the failure counter
    stays below the reset threshold, the transaction returns [None]
    (never an earlier response), has written the sealed request once per
    attempt, and has added the number of attempts to the counter. *)
Theorem transact_exhausted (request frame : list byte) (s : t)
  (failing rest : list attempt) :
  CRC16.append request = Some frame ->
  port_open s = true -> io_lock s = false ->
  script s = failing ++ rest -> length failing = retry_count s ->
  forallb fails failing = true ->
  consecutive_failures s + Z.of_nat (retry_count s)
    < MAX_CONSECUTIVE_FAILURES ->
  _transact request s
  = Returns None
      (mk (retry_count s) true
          (consecutive_failures s + Z.of_nat (retry_count s)) false
          (reopen_ok s) rest (repeat frame (retry_count s) ++ written s)).
Proof.
  intros Hfr Hp Hl Hs Hn Hf Hc. unfold _transact. rewrite Hfr.
  unfold with_io_lock. rewrite Hl, bind_get.
  cbn [retry_count set_lock].
  remember (retry_count s) as rc eqn:Erc. rewrite <- Hn in *.
  rewrite (attempts_all_rejected failing frame _ rest); cbn [port_open
    script consecutive_failures]; try assumption.
  unfold set_lock.
  cbn [retry_count port_open consecutive_failures io_lock reopen_ok script
       written].
  rewrite Erc. reflexivity.
Qed.

Lemma transact_exhausted_witness :
  let s := connected [NoReply; WriteFault; Reply [x01; x03]; NoReply] in
  CRC16.append sample_request = Some (sealed [1; 3; 0; 0; 0; 1])
  /\ _transact sample_request s
     = Returns None
         (mk 3 true 3 false true [NoReply]
             (repeat (sealed [1; 3; 0; 0; 0; 1]) 3)).
Proof.
  cbv zeta. split; [reflexivity|].
  rewrite (transact_exhausted sample_request (sealed [1; 3; 0; 0; 0; 1])
             (connected [NoReply; WriteFault; Reply [x01; x03]; NoReply])
             [NoReply; WriteFault; Reply [x01; x03]] [NoReply]);
    try reflexivity.
Defined.

(** An attempt answered by an exception reply. *)
Lemma attempt_once_exception (frame : list byte) (s : t)
  (arrived : list byte) (rest : list attempt) :
  port_open s = true -> script s = Reply arrived :: rest ->
  error_reply arrived = true ->
  attempt_once frame s
  = Returns (Some (parsed_error arrived))
      (mk (retry_count s) true 0 (io_lock s) (reopen_ok s) rest
          (frame :: written s)).
Proof.
  destruct s as [rc po cf lk ro sc wr]. cbn [port_open script
    consecutive_failures retry_count io_lock reopen_ok written].
  intros -> -> He. unfold error_reply in He.
  apply andb_prop in He as [He Hbit]. apply andb_prop in He as [Hlen Hcrc].
  apply Nat.leb_le in Hlen.
  assert (El : (length arrived <? MIN_RESPONSE_LENGTH)%nat = false)
    by (apply Nat.ltb_ge; exact Hlen).
  destruct arrived as [|b0 [|b1 [|b2 tl]]];
    try (cbn in Hlen; unfold MIN_RESPONSE_LENGTH in Hlen; lia).
  cbn [nth] in Hbit.
  unfold attempt_once, bind, _send_frame, _receive_frame, is_connected,
    set_script, log_write.
  cbn [port_open script negb retry_count consecutive_failures io_lock
       reopen_ok written].
  rewrite El, Hcrc. cbn [negb]. unfold parse_response. rewrite Hbit.
  reflexivity.
Qed.

(** X6: an exception reply (error bit set, checksum right) ends the
    transaction at once: the response carries the error flag, the
    function code without the error bit, the exception code and no
    payload, and the failure counter is cleared. *)
Theorem transact_exception_reply (request frame : list byte) (s : t)
  (arrived : list byte) (rest : list attempt) :
  CRC16.append request = Some frame ->
  port_open s = true -> io_lock s = false -> (0 < retry_count s)%nat ->
  script s = Reply arrived :: rest -> error_reply arrived = true ->
  _transact request s
  = Returns (Some (parsed_error arrived))
      (mk (retry_count s) true 0 false (reopen_ok s) rest
          (frame :: written s)).
Proof.
  intros Hfr Hp Hl Hr Hs He.
  unfold _transact. rewrite Hfr. unfold with_io_lock. rewrite Hl.
  set (m0 := set_lock true s). rewrite bind_get.
  change (retry_count m0) with (retry_count s).
  destruct (retry_count s) as [|n] eqn:Hn; [lia|]. cbn [attempts].
  rewrite (bind_returns _ _ _ _ _
             (attempt_once_exception frame m0 arrived rest Hp Hs He)).
  subst m0. unfold ret, set_lock.
  cbn [retry_count port_open consecutive_failures io_lock reopen_ok script
       written].
  rewrite Hn. reflexivity.
Qed.

Lemma transact_exception_reply_witness :
  let s := connected [Reply (sealed [1; 131; 2])] in
  error_reply (sealed [1; 131; 2]) = true
  /\ _transact sample_request s
     = Returns (Some (ModbusResponse.mk 1 3 [] true 2))
         (mk 3 true 0 false true [] [sealed [1; 3; 0; 0; 0; 1]]).
Proof.
  cbv zeta. split; [reflexivity|].
  rewrite (transact_exception_reply sample_request
             (sealed [1; 3; 0; 0; 0; 1])
             (connected [Reply (sealed [1; 131; 2])])
             (sealed [1; 131; 2]) []); try reflexivity.
  unfold connected, DEFAULT_RETRY_COUNT. cbn [retry_count]. lia.
Defined.

(** Inside a transaction the lock is held, so a reset can only wait: the
    port stays as it is. *)
Lemma keeps_port_under_lock (p : bool) (n : nat) (frame : list byte) :
  keeps (fun m => port_open m = p /\ io_lock m = true) (attempts n frame).
Proof.
  assert (Hfail : keeps (fun m => port_open m = p /\ io_lock m = true)
                    (bind count_failure
                       (fun _ => bind reset_if_needed
                                   (fun _ => ret (@None ModbusResponse.t))))).
  { apply keeps_bind; [apply keeps_modify; intros ? H; exact H|]. intros _.
    apply keeps_bind; [|intros; apply keeps_ret].
    unfold reset_if_needed. apply keeps_bind; [apply keeps_get|]. intros m.
    destruct (_ <=? _); [|apply keeps_ret].
    apply keeps_bind; [|intros; apply keeps_ret].
    intros m' [H1 H2]. unfold _reset_serial_port, try_except, with_io_lock.
    rewrite H2. split; assumption. }
  induction n as [|n IH]; cbn [attempts]; [apply keeps_ret|].
  apply keeps_bind; [|intros [resp|]; [apply keeps_ret | exact IH]].
  unfold attempt_once. apply keeps_bind.
  - intros m H. unfold _send_frame. destruct (negb (is_connected m));
      [exact H|]. destruct (script m) as [|[| |?] ?]; exact H.
  - intros sent. destruct (negb sent).
    + apply keeps_bind; [apply keeps_modify; intros ? H; exact H|].
      intros; apply keeps_ret.
    + apply keeps_bind.
      * intros m H. unfold _receive_frame.
        destruct (negb (is_connected m)); [exact H|].
        destruct (script m) as [|[| |arrived] ?]; cbn [final]; try exact H.
        destruct (length arrived <? MIN_RESPONSE_LENGTH)%nat; exact H.
      * intros [response|]; [|exact Hfail].
        destruct (negb (CRC16.verify response)); [exact Hfail|].
        unfold parse_response. destruct response as [|? [|? [|? ?]]];
          try apply keeps_ret.
        destruct (negb _);
          (apply keeps_bind; [apply keeps_modify; intros ? H; exact H|];
           intros; apply keeps_ret).
Qed.

(** X7: a transaction never closes or reopens the port: however it
    ends, the port is as it was.  When it returns the lock is free
    again; when it hangs the lock is still held. *)
Theorem transact_never_resets_port (request : list byte) (s : t) :
  io_lock s = false ->
  port_open (final (_transact request s)) = port_open s
  /\ match _transact request s with
     | Returns _ s' => io_lock s' = false
     | Raises _ s' => io_lock s' = false
     | Blocks s' => io_lock s' = true
     end.
Proof.
  intros Hl. unfold _transact.
  destruct (append_total request) as (tail & _ & ->).
  unfold with_io_lock. rewrite Hl, bind_get.
  pose proof (keeps_port_under_lock (port_open s) (retry_count s)
                (request ++ tail) (set_lock true s)
                (conj eq_refl eq_refl)) as H.
  cbn [retry_count set_lock] in *.
  destruct (attempts (retry_count s) (request ++ tail) _)
    as [a s' | e s' | s']; cbn [final] in *; destruct H as [H1 H2];
    (split; [exact H1 | first [reflexivity | exact H2]]).
Qed.

Lemma transact_never_resets_port_witness :
  let s := mk 3 true 3 false true [NoReply; NoReply] [] in
  io_lock s = false
  /\ port_open (final (_transact sample_request s)) = true.
Proof.
  cbv zeta. split; [reflexivity|].
  exact (proj1 (transact_never_resets_port sample_request
                  (mk 3 true 3 false true [NoReply; NoReply] []) eq_refl)).
Defined.

(** An unanswered attempt that brings the counter to the threshold
    while the lock is held. *)
Lemma attempt_once_hangs (frame : list byte) (s : t) (a : attempt)
  (rest : list attempt) :
  port_open s = true -> io_lock s = true ->
  script s = a :: rest -> unanswered a = true ->
  MAX_CONSECUTIVE_FAILURES <= consecutive_failures s + 1 ->
  attempt_once frame s
  = Blocks (mk (retry_count s) true (consecutive_failures s + 1) true
               (reopen_ok s) rest (frame :: written s)).
Proof.
  destruct s as [rc po cf lk ro sc wr]. cbn [port_open script
    consecutive_failures retry_count io_lock reopen_ok written].
  intros -> -> -> Ha Hc.
  assert (Hth : (MAX_CONSECUTIVE_FAILURES <=? cf + 1) = true)
    by (apply Z.leb_le; exact Hc).
  destruct a as [| |arrived]; [discriminate | |].
  - unfold attempt_once, bind, _send_frame, _receive_frame, count_failure,
      reset_if_needed, modify, get, ret, is_connected, set_failures,
      set_script, log_write.
    cbn -[Z.leb Z.add MAX_CONSECUTIVE_FAILURES _reset_serial_port].
    rewrite Hth. reflexivity.
  - unfold unanswered, fails in Ha.
    unfold attempt_once, bind, _send_frame, _receive_frame, count_failure,
      reset_if_needed, modify, get, ret, is_connected, set_failures,
      set_script, log_write.
    cbn -[Z.leb Z.add MAX_CONSECUTIVE_FAILURES Nat.ltb CRC16.verify
          _reset_serial_port].
    destruct (length arrived <? MIN_RESPONSE_LENGTH)%nat eqn:El.
    + cbn -[Z.leb Z.add MAX_CONSECUTIVE_FAILURES _reset_serial_port].
      rewrite Hth. reflexivity.
    + cbn [orb] in Ha. rewrite Ha.
      cbn -[Z.leb Z.add MAX_CONSECUTIVE_FAILURES _reset_serial_port].
      rewrite Hth. reflexivity.
Qed.

(** X8: with four or more consecutive failures on record, a transaction
    whose first attempt is written but gets no valid reply never
    returns: the reset it then asks for waits for the lock that the
    transaction itself holds. *)
Theorem transact_hangs_at_threshold (request frame : list byte) (s : t)
  (a : attempt) (rest : list attempt) :
  CRC16.append request = Some frame ->
  port_open s = true -> io_lock s = false -> (0 < retry_count s)%nat ->
  script s = a :: rest -> unanswered a = true ->
  MAX_CONSECUTIVE_FAILURES <= consecutive_failures s + 1 ->
  _transact request s
  = Blocks (mk (retry_count s) true (consecutive_failures s + 1) true
               (reopen_ok s) rest (frame :: written s)).
Proof.
  intros Hfr Hp Hl Hr Hs Ha Hc.
  unfold _transact. rewrite Hfr. unfold with_io_lock. rewrite Hl.
  set (m0 := set_lock true s). rewrite bind_get.
  change (retry_count m0) with (retry_count s).
  destruct (retry_count s) as [|n] eqn:Hn; [lia|]. cbn [attempts].
  unfold bind at 1.
  rewrite (attempt_once_hangs frame m0 a rest Hp eq_refl Hs Ha Hc).
  subst m0. unfold set_lock.
  cbn [retry_count port_open consecutive_failures io_lock reopen_ok script
       written].
  rewrite Hn. reflexivity.
Qed.

Lemma transact_hangs_at_threshold_witness :
  let s := mk 3 true 4 false true [NoReply; Reply sample_reply] [] in
  CRC16.append sample_request = Some (sealed [1; 3; 0; 0; 0; 1])
  /\ _transact sample_request s
     = Blocks (mk 3 true 5 true true [Reply sample_reply]
                  [sealed [1; 3; 0; 0; 0; 1]]).
Proof.
  cbv zeta. split; [reflexivity|].
  rewrite (transact_hangs_at_threshold sample_request
             (sealed [1; 3; 0; 0; 0; 1])
             (mk 3 true 4 false true [NoReply; Reply sample_reply] [])
             NoReply [Reply sample_reply]);
    try reflexivity; cbn; lia.
Defined.

End Transport_more.

(* ===================================================================== *)
(** * The transport: reading registers back                               *)
(* ===================================================================== *)

Section Register_reads.

Import ModbusRTU.

Lemma register_bytes_length (values : list Z) :
  length (register_bytes values) = (2 * length values)%nat.
Proof.
  induction values as [|v values IH]; [reflexivity|].
  cbn [register_bytes flat_map app length] in *.
  unfold register_bytes in IH. rewrite IH. lia.
Qed.

Lemma be_pairs_register_bytes (values : list Z) :
  Forall u16 values -> be_pairs (register_bytes values) = values.
Proof.
  induction 1 as [|v values [H0 H1] _ IH]; [reflexivity|].
  cbn [register_bytes flat_map app be_pairs].
  unfold register_bytes in IH. rewrite IH. f_equal.
  rewrite !byte_val_of_Z, Z.shiftr_div_pow2 by lia. change (2 ^ 8) with 256.
  rewrite (Z.mod_small (v / 256))
    by (split; [apply Z.div_pos; lia | apply Z.div_lt_upper_bound; lia]).
  pose proof (Z.div_mod v 256). lia.
Qed.

(** A transaction whose first attempt is answered by a valid reply. *)
Lemma transact_first_reply (request frame : list byte) (s : t)
  (arrived : list byte) (rest : list attempt) :
  CRC16.append request = Some frame ->
  port_open s = true -> io_lock s = false -> (0 < retry_count s)%nat ->
  script s = Reply arrived :: rest -> good_reply arrived = true ->
  _transact request s
  = Returns (Some (parsed arrived))
      (mk (retry_count s) true 0 false (reopen_ok s) rest
          (frame :: written s)).
Proof.
  intros Hfr Hp Hl Hr Hs Hg.
  unfold _transact. rewrite Hfr. unfold with_io_lock. rewrite Hl.
  set (m0 := set_lock true s). rewrite bind_get.
  change (retry_count m0) with (retry_count s).
  destruct (retry_count s) as [|n] eqn:Hn; [lia|]. cbn [attempts].
  rewrite (bind_returns _ _ _ _ _
             (attempt_once_accepted frame m0 arrived rest Hp Hs Hg)).
  subst m0. unfold ret, set_lock.
  cbn [retry_count port_open consecutive_failures io_lock reopen_ok script
       written].
  rewrite Hn. reflexivity.
Qed.

(** The reply built by the device is a valid reply. *)
Lemma register_reply_shape (address code : Z) (values : list Z) :
  exists tail,
    length tail = 2%nat
    /\ register_reply address code values
       = (byte_of_Z address :: byte_of_Z code
            :: byte_of_Z (2 * Z.of_nat (length values))
            :: register_bytes values) ++ tail
    /\ CRC16.verify (register_reply address code values) = true.
Proof.
  unfold register_reply.
  destruct (append_total
              (byte_of_Z address :: byte_of_Z code
                 :: byte_of_Z (2 * Z.of_nat (length values))
                 :: register_bytes values)) as (tail & Hp & ->).
  exists tail. split; [apply (unpack_pack_le_H _ _ Hp)|].
  split; [reflexivity|]. apply verify_sealed; [discriminate | exact Hp].
Qed.

(** A register read (function 3 or 4) answered at the first attempt by
    the reply the device builds for [values]: the response carries
    exactly [values], and the transport is left open, unlocked, with the
    failure counter at 0 and the request logged. *)
Lemma read_registers_answered (code address start count : Z)
  (values : list Z) (s : t) (rest : list attempt) :
  code = 3 \/ code = 4 ->
  0 <= address <= 255 -> 0 <= start <= 65535 -> 0 <= count <= 65535 ->
  Forall u16 values -> (length values <= 127)%nat ->
  port_open s = true -> io_lock s = false -> (0 < retry_count s)%nat ->
  script s = Reply (register_reply address code values) :: rest ->
  exists r frame,
    read_registers_with code address start count s
    = Returns (Some r)
        (mk (retry_count s) true 0 false (reopen_ok s) rest
            (frame :: written s))
    /\ ModbusResponse.registers r = values
    /\ ModbusResponse.is_error r = false.
Proof.
  intros Hcode Ha Hst Hct Hv Hn Hp Hl Hr Hs.
  assert (Hcr : 0 <= code <= 255 /\ Z.land code 0x80 = 0)
    by (destruct Hcode as [-> | ->]; (split; [lia | reflexivity])).
  destruct Hcr as [Hcr Hbit].
  unfold read_registers_with.
  assert (Hpack : exists request,
             pack_BBHH address code start count = Some request).
  { unfold pack_BBHH.
    replace ((0 <=? address) && (address <=? 255) && (0 <=? code)
             && (code <=? 255) && (0 <=? start) && (start <=? 65535)
             && (0 <=? count) && (count <=? 65535)) with true.
    - eexists. reflexivity.
    - symmetry. repeat (apply andb_true_intro; split); apply Z.leb_le; lia. }
  destruct Hpack as (request & ->).
  destruct (append_total request) as (rtail & _ & Hfr).
  destruct (register_reply_shape address code values)
    as (tail & Htl & Hshape & Hver).
  set (arrived := register_reply address code values) in *.
  assert (Hlen : length arrived = (3 + 2 * length values + 2)%nat).
  { rewrite Hshape, length_app, Htl. cbn [length].
    rewrite register_bytes_length. lia. }
  assert (Hg : good_reply arrived = true).
  { unfold good_reply. rewrite Hver, Hlen.
    replace (MIN_RESPONSE_LENGTH <=? 3 + 2 * length values + 2)%nat
      with true by (symmetry; apply Nat.leb_le;
                    unfold MIN_RESPONSE_LENGTH; lia).
    cbn [andb]. rewrite Hshape. cbn [app nth].
    rewrite byte_val_of_Z, Z.mod_small by lia. rewrite Hbit. reflexivity. }
  rewrite (bind_returns _ _ _ _ _
             (transact_first_reply request _ s arrived rest Hfr Hp Hl Hr
                Hs Hg)).
  assert (Hdata : ModbusResponse.data (parsed arrived)
                  = byte_of_Z (2 * Z.of_nat (length values))
                      :: register_bytes values).
  { unfold parsed. cbn [ModbusResponse.data]. unfold slice.
    rewrite Hlen, Hshape.
    change (skipn 2
              ((byte_of_Z address :: byte_of_Z code
                  :: byte_of_Z (2 * Z.of_nat (length values))
                  :: register_bytes values) ++ tail))
      with ((byte_of_Z (2 * Z.of_nat (length values))
               :: register_bytes values) ++ tail).
    replace (3 + 2 * length values + 2 - 2 - 2)%nat
      with (length (byte_of_Z (2 * Z.of_nat (length values))
                      :: register_bytes values))
      by (cbn [length]; rewrite register_bytes_length; lia).
    rewrite firstn_app, firstn_all, Nat.sub_diag.
    change (firstn 0 tail) with (@nil byte). apply app_nil_r. }
  unfold ret, strip_byte_count.
  change (ModbusResponse.is_error (parsed arrived)) with false.
  cbn [negb]. rewrite Hdata. cbv iota.
  eexists. exists (request ++ rtail). split; [reflexivity|].
  split; [|reflexivity].
  rewrite registers_be_pairs. cbn [ModbusResponse.data]. unfold slice.
  cbn [skipn].
  rewrite byte_val_of_Z, Z.mod_small by lia.
  replace (1 + Z.to_nat (2 * Z.of_nat (length values)) - 1)%nat
    with (length (register_bytes values))
    by (rewrite register_bytes_length; lia).
  rewrite firstn_all. apply be_pairs_register_bytes, Hv.
Qed.

(** X9: a register read answered at the first attempt by the reply the
    device builds for [values] (each a 16-bit value, at most 127 of
    them) returns exactly [values] as the response's registers, without
    error, and leaves the failure counter at 0.  This holds for holding
    registers (function 3) and input registers (function 4). *)
Theorem read_registers_round_trip (input : bool) (address start count : Z)
  (values : list Z) (s : t) (rest : list attempt) :
  0 <= address <= 255 -> 0 <= start <= 65535 -> 0 <= count <= 65535 ->
  Forall u16 values -> (length values <= 127)%nat ->
  port_open s = true -> io_lock s = false -> (0 < retry_count s)%nat ->
  script s
  = Reply (register_reply address (if input then 4 else 3) values) :: rest ->
  exists r s',
    (if input then read_input_registers address start count
     else read_holding_registers address start count) s
    = Returns (Some r) s'
    /\ ModbusResponse.registers r = values
    /\ ModbusResponse.is_error r = false
    /\ consecutive_failures s' = 0
    /\ script s' = rest.
Proof.
  intros Ha Hst Hct Hv Hn Hp Hl Hr Hs.
  assert (Hcode : (if input then read_input_registers address start count
                   else read_holding_registers address start count)
                  = read_registers_with (if input then 4 else 3)
                      address start count)
    by (destruct input; reflexivity).
  rewrite Hcode.
  destruct (read_registers_answered (if input then 4 else 3) address start
              count values s rest) as (r & frame & Hread & Hregs & Herr);
    try assumption.
  { destruct input; [right | left]; reflexivity. }
  exists r. eexists. split; [exact Hread|].
  split; [exact Hregs|]. split; [exact Herr|]. split; reflexivity.
Qed.

Lemma read_registers_round_trip_witness :
  let s := connected [Reply (register_reply 1 3 [12000; 5000; 0; 35; 0])] in
  exists r s',
    read_holding_registers 1 1024 5 s = Returns (Some r) s'
    /\ ModbusResponse.registers r = [12000; 5000; 0; 35; 0]
    /\ ModbusResponse.is_error r = false
    /\ consecutive_failures s' = 0
    /\ script s' = [].
Proof.
  cbv zeta.
  apply (read_registers_round_trip false 1 1024 5 [12000; 5000; 0; 35; 0]
           (connected [Reply (register_reply 1 3 [12000; 5000; 0; 35; 0])])
           []); try reflexivity; try lia.
  - repeat constructor; lia.
  - cbn. lia.
  - unfold connected, DEFAULT_RETRY_COUNT. cbn [retry_count]. lia.
Defined.

End Register_reads.

(* ===================================================================== *)
(** * The driver on a live line                                           *)
(* ===================================================================== *)

Section Driver_line.

Import ModbusRTU.

Lemma on_driver_returns {A} (c : M Driver.t A) (d d' : Driver.t)
  (st : PowerSupply.PowerStatus) (a : A) :
  c d = Returns a d' -> Driver.on_driver c (d, st) = Returns a (d', st).
Proof.
  intros H. unfold Driver.on_driver, zoom. cbn [fst snd]. rewrite H.
  reflexivity.
Qed.

Lemma ready_connected (d : Driver.t) (line : list attempt) :
  ready d line -> Driver.is_connected d = true.
Proof.
  intros (m & Hm & Hp & _). unfold Driver.is_connected. rewrite Hm.
  exact Hp.
Qed.

(** A driver read answered at the first attempt returns the values and
    leaves the driver ready for the rest of the line, with no message
    given to the error callbacks. *)
Lemma driver_read_answered (start count : Z) (values : list Z)
  (d : Driver.t) (rest : list attempt) :
  0 <= Driver.slave_address d <= 255 ->
  0 <= start <= 65535 -> 0 <= count <= 65535 ->
  Forall u16 values -> (length values <= 127)%nat ->
  ready d (Reply (register_reply (Driver.slave_address d) 3 values) :: rest) ->
  exists d',
    Driver._read_registers start count false d = Returns (Some values) d'
    /\ ready d' rest
    /\ Driver.slave_address d' = Driver.slave_address d
    /\ Driver.notified d' = Driver.notified d.
Proof.
  intros Ha Hst Hct Hv Hn Hready.
  pose proof (ready_connected _ _ Hready) as Hc.
  destruct Hready as (m & Hm & Hp & Hl & Hr & Hs).
  destruct (read_registers_answered 3 (Driver.slave_address d) start count
              values m rest) as (r & frame & Hread & Hregs & Herr);
    try assumption; [left; reflexivity|].
  unfold Driver._read_registers. rewrite bind_get, Hc. cbn [negb].
  unfold bind at 1, Driver.on_modbus. rewrite Hm.
  change (read_holding_registers (Driver.slave_address d) start count m)
    with (read_registers_with 3 (Driver.slave_address d) start count m).
  rewrite Hread. cbv iota beta. rewrite Herr. unfold ret. rewrite Hregs.
  eexists. split; [reflexivity|]. split; [|split; reflexivity].
  eexists. split; [reflexivity|].
  cbn [port_open io_lock retry_count script]. repeat split. exact Hr.
Qed.

(** X10: a full status poll on a live line.  When the four reads of
    [get_status] are each answered at the first attempt, the returned
    status decodes the registers as the source says: voltages and
    currents scaled by 1/1000, mode and protection from the flags,
    [is_connected] set and the error text empty; the power field keeps
    the 0 it was constructed with.  No message goes to the error
    callbacks and the driver is ready for what follows on the line. *)
Theorem get_status_decodes (d : Driver.t)
  (v i mode temp otp out vset iset : Z) (rest : list attempt) :
  0 <= Driver.slave_address d <= 255 ->
  Forall u16 [v; i; mode; temp; otp; out; vset; iset] ->
  ready d
    (Reply (register_reply (Driver.slave_address d) 3 [v; i; mode; temp; otp])
     :: Reply (register_reply (Driver.slave_address d) 3 [out])
     :: Reply (register_reply (Driver.slave_address d) 3 [vset])
     :: Reply (register_reply (Driver.slave_address d) 3 [iset]) :: rest) ->
  exists d',
    Driver.get_status d
    = Returns (polled v i mode temp otp out vset iset) d'
    /\ ready d' rest
    /\ Driver.notified d' = Driver.notified d.
Proof.
  intros Ha Hv Hready.
  repeat match goal with
         | H : Forall _ (_ :: _) |- _ =>
             apply Forall_cons_iff in H; destruct H
         end.
  pose proof (ready_connected _ _ Hready) as Hc.
  assert (Hregs : 0 <= Driver.Register.VOLTAGE_REAL <= 65535
                  /\ 0 <= Driver.Register.OUTPUT_SWITCH <= 65535
                  /\ 0 <= Driver.Register.VOLTAGE_SET <= 65535
                  /\ 0 <= Driver.Register.CURRENT_SET <= 65535)
    by (cbv; intuition discriminate).
  destruct Hregs as (Hg1 & Hg2 & Hg3 & Hg4).
  eapply (driver_read_answered Driver.Register.VOLTAGE_REAL 5) in Hready
    as (d1 & R1 & Hr1 & Ha1 & Hn1);
    [ | first [assumption | lia | cbn; lia
              | repeat (apply Forall_cons; [assumption|]);
                apply Forall_nil] ..].
  rewrite <- Ha1 in Hr1.
  assert (Hb1 : 0 <= Driver.slave_address d1 <= 255)
    by (rewrite Ha1; exact Ha).
  eapply (driver_read_answered Driver.Register.OUTPUT_SWITCH 1) in Hr1
    as (d2 & R2 & Hr2 & Ha2 & Hn2);
    [ | first [assumption | lia | cbn; lia
              | repeat (apply Forall_cons; [assumption|]);
                apply Forall_nil] ..].
  rewrite <- Ha2 in Hr2.
  assert (Hb2 : 0 <= Driver.slave_address d2 <= 255)
    by (rewrite Ha2; exact Hb1).
  eapply (driver_read_answered Driver.Register.VOLTAGE_SET 1) in Hr2
    as (d3 & R3 & Hr3 & Ha3 & Hn3);
    [ | first [assumption | lia | cbn; lia
              | repeat (apply Forall_cons; [assumption|]);
                apply Forall_nil] ..].
  rewrite <- Ha3 in Hr3.
  assert (Hb3 : 0 <= Driver.slave_address d3 <= 255)
    by (rewrite Ha3; exact Hb2).
  eapply (driver_read_answered Driver.Register.CURRENT_SET 1) in Hr3
    as (d4 & R4 & Hr4 & Ha4 & Hn4);
    [ | first [assumption | lia | cbn; lia
              | repeat (apply Forall_cons; [assumption|]);
                apply Forall_nil] ..].
  exists d4. split; [|split; [exact Hr4 | congruence]].
  unfold Driver.get_status. rewrite Hc. cbn [negb].
  unfold try_except, Driver.get_status_reads.
  rewrite (bind_returns _ _ _ _ _ (on_driver_returns _ _ _ _ _ R1)).
  unfold Driver.update_status at 1. rewrite bind_modify. cbn [fst snd].
  rewrite (bind_returns _ _ _ _ _ (on_driver_returns _ _ _ _ _ R2)).
  unfold Driver.update_status at 1. rewrite bind_modify. cbn [fst snd].
  rewrite (bind_returns _ _ _ _ _ (on_driver_returns _ _ _ _ _ R3)).
  unfold Driver.update_status at 1. rewrite bind_modify. cbn [fst snd].
  rewrite (bind_returns _ _ _ _ _ (on_driver_returns _ _ _ _ _ R4)).
  unfold Driver.update_status at 1. rewrite bind_modify. cbn [fst snd].
  unfold Driver.update_status, modify. cbn [fst snd].
  unfold polled, Driver.fill_real, Driver.fill_output, Driver.fill_vset,
    Driver.fill_iset.
  destruct (otp =? 0); reflexivity.
Qed.

Lemma get_status_decodes_witness :
  let d :=
    Driver.connected 1
      [Reply (register_reply 1 3 [12000; 5000; 0; 35; 0]);
       Reply (register_reply 1 3 [1]);
       Reply (register_reply 1 3 [24000]);
       Reply (register_reply 1 3 [5000])] in
  exists d',
    Driver.get_status d = Returns (polled 12000 5000 0 35 0 1 24000 5000) d'
    /\ ready d' []
    /\ Driver.notified d' = [].
Proof.
  cbv zeta.
  apply (get_status_decodes
           (Driver.connected 1
              [Reply (register_reply 1 3 [12000; 5000; 0; 35; 0]);
               Reply (register_reply 1 3 [1]);
               Reply (register_reply 1 3 [24000]);
               Reply (register_reply 1 3 [5000])])
           12000 5000 0 35 0 1 24000 5000 []).
  - cbn. lia.
  - repeat constructor; lia.
  - eexists. split; [reflexivity|]. repeat split.
    unfold connected, DEFAULT_RETRY_COUNT. cbn [retry_count]. lia.
Defined.

(** X11: the three single-value getters on a live line.  When the read
    is answered at the first attempt with the register value [n],
    [get_voltage] and [get_current] return [n / 1000] and
    [get_temperature] returns [n] itself; the driver stays ready. *)
Theorem getters_decode (d : Driver.t) (n : Z) (rest : list attempt) :
  0 <= Driver.slave_address d <= 255 -> u16 n ->
  ready d (Reply (register_reply (Driver.slave_address d) 3 [n]) :: rest) ->
  (exists d', Driver.get_voltage d = Returns (Some (Driver.milli n)) d'
              /\ ready d' rest)
  /\ (exists d', Driver.get_current d = Returns (Some (Driver.milli n)) d'
                 /\ ready d' rest)
  /\ (exists d', Driver.get_temperature d = Returns (Some (inject_Z n)) d'
                 /\ ready d' rest).
Proof.
  intros Ha Hn Hready.
  assert (Hread : forall start, 0 <= start <= 65535 ->
            exists d', Driver._read_registers start 1 false d
                       = Returns (Some [n]) d' /\ ready d' rest).
  { intros start Hst.
    destruct (driver_read_answered start 1 [n] d rest Ha Hst)
      as (d' & R & Hr & _); try exact Hready; try lia.
    - apply Forall_cons; [exact Hn | apply Forall_nil].
    - cbn; lia.
    - exists d'. split; assumption. }
  split; [|split].
  - destruct (Hread Driver.Register.VOLTAGE_REAL) as (d' & R & Hr);
      [unfold Driver.Register.VOLTAGE_REAL; lia|].
    exists d'. split; [|exact Hr]. unfold Driver.get_voltage.
    rewrite (bind_returns _ _ _ _ _ R). reflexivity.
  - destruct (Hread Driver.Register.CURRENT_REAL) as (d' & R & Hr);
      [unfold Driver.Register.CURRENT_REAL; lia|].
    exists d'. split; [|exact Hr]. unfold Driver.get_current.
    rewrite (bind_returns _ _ _ _ _ R). reflexivity.
  - destruct (Hread Driver.Register.TEMPERATURE) as (d' & R & Hr);
      [unfold Driver.Register.TEMPERATURE; lia|].
    exists d'. split; [|exact Hr]. unfold Driver.get_temperature.
    rewrite (bind_returns _ _ _ _ _ R). reflexivity.
Qed.

Lemma getters_decode_witness :
  let d := Driver.connected 1 [Reply (register_reply 1 3 [12000])] in
  (exists d', Driver.get_voltage d = Returns (Some (Driver.milli 12000)) d'
              /\ ready d' [])
  /\ (exists d', Driver.get_current d = Returns (Some (Driver.milli 12000)) d'
                 /\ ready d' [])
  /\ (exists d', Driver.get_temperature d
                 = Returns (Some (inject_Z 12000)) d'
                 /\ ready d' []).
Proof.
  cbv zeta.
  apply (getters_decode
           (Driver.connected 1 [Reply (register_reply 1 3 [12000])])
           12000 []).
  - cbn. lia.
  - unfold u16. lia.
  - eexists. split; [reflexivity|]. repeat split.
    unfold connected, DEFAULT_RETRY_COUNT. cbn [retry_count]. lia.
Defined.

End Driver_line.

(* ===================================================================== *)
(** * Exceptions: what the transport and the driver let through          *)
(* ===================================================================== *)

Section No_exceptions.

Import ModbusRTU.

Lemma nr_ret {S A} (a : A) : never_raises (S := S) (ret a).
Proof. intros s. exact I. Qed.

Lemma nr_get {S} : never_raises (S := S) get.
Proof. intros s. exact I. Qed.

Lemma nr_modify {S} (f : S -> S) : never_raises (modify f).
Proof. intros s. exact I. Qed.

Lemma nr_bind {S A B} (c : M S A) (k : A -> M S B) :
  never_raises c -> (forall a, never_raises (k a)) -> never_raises (bind c k).
Proof.
  intros Hc Hk s. unfold bind. specialize (Hc s).
  destruct (c s) as [a s' | e s' | s'];
    [apply Hk | contradiction | exact I].
Qed.

Lemma nr_try {S A} (c : M S A) (h : string -> M S A) :
  (forall e, never_raises (h e)) -> never_raises (try_except c h).
Proof.
  intros Hh s. unfold try_except.
  destruct (c s) as [a s' | e s' | s']; [exact I | apply Hh | exact I].
Qed.

Lemma nr_with_io_lock {A} (body : M t A) :
  never_raises body -> never_raises (with_io_lock body).
Proof.
  intros H s. unfold with_io_lock. destruct (io_lock s); [exact I|].
  specialize (H (set_lock true s)).
  destruct (body (set_lock true s)); [exact I | contradiction | exact I].
Qed.

Lemma nr_send_frame (f : list byte) : never_raises (_send_frame f).
Proof.
  intros s. unfold _send_frame. destruct (negb (is_connected s)); [exact I|].
  destruct (script s) as [|[| |?] ?]; exact I.
Qed.

Lemma nr_receive_frame : never_raises _receive_frame.
Proof.
  intros s. unfold _receive_frame.
  destruct (negb (is_connected s)); [exact I|].
  destruct (script s) as [|[| |arrived] ?]; try exact I.
  destruct (length arrived <? MIN_RESPONSE_LENGTH)%nat; exact I.
Qed.

Lemma nr_reset_if_needed : never_raises reset_if_needed.
Proof.
  unfold reset_if_needed. apply nr_bind; [apply nr_get|]. intros m.
  destruct (_ <=? _); [|apply nr_ret].
  apply nr_bind; [|intros; apply nr_ret].
  unfold _reset_serial_port. apply nr_try. intros e. apply nr_ret.
Qed.

Lemma nr_parse_response (response : list byte) :
  never_raises (parse_response response).
Proof.
  unfold parse_response. destruct response as [|? [|? [|? ?]]];
    try apply nr_ret.
  destruct (negb _);
    (apply nr_bind; [apply nr_modify | intros; apply nr_ret]).
Qed.

Lemma nr_attempt_once (f : list byte) : never_raises (attempt_once f).
Proof.
  assert (Hfail : never_raises
                    (bind count_failure
                       (fun _ => bind reset_if_needed
                                   (fun _ => ret (@None ModbusResponse.t))))).
  { apply nr_bind; [apply nr_modify|]. intros _.
    apply nr_bind; [apply nr_reset_if_needed | intros; apply nr_ret]. }
  unfold attempt_once. apply nr_bind; [apply nr_send_frame|]. intros sent.
  destruct (negb sent).
  - apply nr_bind; [apply nr_modify | intros; apply nr_ret].
  - apply nr_bind; [apply nr_receive_frame|]. intros [response|];
      [|exact Hfail].
    destruct (negb (CRC16.verify response));
      [exact Hfail | apply nr_parse_response].
Qed.

Lemma nr_attempts (n : nat) (f : list byte) : never_raises (attempts n f).
Proof.
  induction n as [|n IH]; cbn [attempts]; [apply nr_ret|].
  apply nr_bind; [apply nr_attempt_once|].
  intros [resp|]; [apply nr_ret | exact IH].
Qed.

(** A transaction never raises: every failure on the line ends in
    [None], or in a wait for the lock. *)
Lemma transact_never_raises (request : list byte) :
  never_raises (_transact request).
Proof.
  intros s. unfold _transact.
  destruct (append_total request) as (tail & _ & ->).
  apply nr_with_io_lock. apply nr_bind; [apply nr_get|].
  intros; apply nr_attempts.
Qed.

Lemma pack_BBHH_some (a f x y : Z) :
  0 <= a <= 255 -> 0 <= f <= 255 -> 0 <= x <= 65535 -> 0 <= y <= 65535 ->
  pack_BBHH a f x y
  = Some [byte_of_Z a; byte_of_Z f; byte_of_Z (Z.shiftr x 8); byte_of_Z x;
          byte_of_Z (Z.shiftr y 8); byte_of_Z y].
Proof.
  intros Ha Hf Hx Hy. unfold pack_BBHH.
  destruct (_ && _) eqn:E; [reflexivity|]. exfalso.
  rewrite !andb_false_iff, !Z.leb_gt in E. lia.
Qed.

Lemma write_register_no_exception (register value : Z) (d : Driver.t) :
  0 <= Driver.slave_address d <= 255 ->
  0 <= register <= 65535 -> 0 <= value <= 65535 ->
  no_exception (Driver._write_register register value d).
Proof.
  intros Ha Hr Hv. unfold Driver._write_register. rewrite bind_get.
  destruct (Driver.is_connected d) eqn:Hc; cbn [negb]; [|exact I].
  unfold Driver.is_connected in Hc.
  destruct (Driver.modbus d) as [m|] eqn:Hm; [|discriminate].
  unfold bind at 1, Driver.on_modbus. rewrite Hm.
  unfold write_single_register.
  rewrite (pack_BBHH_some _ WRITE_SINGLE_REGISTER register value Ha)
    by (unfold WRITE_SINGLE_REGISTER; lia).
  unfold bind at 1.
  pose proof (transact_never_raises
                [byte_of_Z (Driver.slave_address d);
                 byte_of_Z WRITE_SINGLE_REGISTER;
                 byte_of_Z (Z.shiftr register 8); byte_of_Z register;
                 byte_of_Z (Z.shiftr value 8); byte_of_Z value] m) as Ht.
  destruct (_transact _ m) as [resp m' | e m' | m'];
    [|contradiction | exact I].
  unfold ret. destruct (negb _); exact I.
Qed.

Lemma read_registers_no_exception (start count : Z) (d : Driver.t) :
  0 <= Driver.slave_address d <= 255 ->
  0 <= start <= 65535 -> 0 <= count <= 65535 ->
  no_exception (Driver._read_registers start count false d).
Proof.
  intros Ha Hr Hv. unfold Driver._read_registers. rewrite bind_get.
  destruct (Driver.is_connected d) eqn:Hc; cbn [negb]; [|exact I].
  unfold Driver.is_connected in Hc.
  destruct (Driver.modbus d) as [m|] eqn:Hm; [|discriminate].
  unfold bind at 1, Driver.on_modbus. rewrite Hm.
  unfold read_holding_registers, read_registers_with.
  rewrite (pack_BBHH_some _ READ_HOLDING_REGISTERS start count Ha)
    by (unfold READ_HOLDING_REGISTERS; lia).
  unfold bind at 1.
  pose proof (transact_never_raises
                [byte_of_Z (Driver.slave_address d);
                 byte_of_Z READ_HOLDING_REGISTERS;
                 byte_of_Z (Z.shiftr start 8); byte_of_Z start;
                 byte_of_Z (Z.shiftr count 8); byte_of_Z count] m) as Ht.
  destruct (_transact _ m) as [resp m' | e m' | m'];
    [|contradiction | exact I].
  unfold ret. destruct (strip_byte_count resp) as [r|]; [|exact I].
  destruct (ModbusResponse.is_error r); exact I.
Qed.

Lemma py_int_bounds (x : Q) (hi : Z) :
  (0 <= x)%Q -> (x <= inject_Z hi)%Q -> 0 <= py_int x <= hi.
Proof.
  intros H0 H1. unfold py_int. rewrite (proj2 (Qle_bool_iff 0 x) H0). split.
  - change 0 with (Qfloor 0). apply Qfloor_resp_le. exact H0.
  - rewrite <- (Qfloor_Z hi). apply Qfloor_resp_le. exact H1.
Qed.

Lemma validate_voltage_true (v : Q) :
  PowerSupply.validate_voltage Driver.specification v = true ->
  (0 <= v <= 60)%Q.
Proof.
  unfold PowerSupply.validate_voltage. intros H.
  apply andb_prop in H as [H0 H1].
  split; apply Qle_bool_iff; assumption.
Qed.

Lemma validate_current_true (i : Q) :
  PowerSupply.validate_current Driver.specification i = true ->
  (0 <= i <= 20)%Q.
Proof.
  unfold PowerSupply.validate_current. intros H.
  apply andb_prop in H as [H0 H1].
  split; apply Qle_bool_iff; assumption.
Qed.

Lemma millivolts_fit (v : Q) :
  (0 <= v <= 60)%Q -> 0 <= py_int (v * 1000) <= 65535.
Proof.
  intros [H0 H1].
  assert (H : 0 <= py_int (v * 1000) <= 60000).
  { apply py_int_bounds.
    - lra.
    - change (inject_Z 60000) with 60000%Q. lra. }
  lia.
Qed.

Lemma milliamps_fit (i : Q) :
  (0 <= i <= 20)%Q -> 0 <= py_int (i * 1000) <= 65535.
Proof.
  intros [H0 H1].
  assert (H : 0 <= py_int (i * 1000) <= 20000).
  { apply py_int_bounds.
    - lra.
    - change (inject_Z 20000) with 20000%Q. lra. }
  lia.
Qed.

(** X12: no command of the driver raises.  With a station address that
    fits in a byte, the setters (whatever value they are given), the
    output switch, [save_settings], [set_device_address] and the three
    getters either return or wait for the transport's lock: a value that
    passed the range check always fits the 16-bit field of the request,
    and the transport turns every failure on the line into [None]. *)
Theorem driver_commands_never_raise (d : Driver.t) :
  0 <= Driver.slave_address d <= 255 ->
  (forall v, no_exception (Driver.set_voltage v d))
  /\ (forall i, no_exception (Driver.set_current i d))
  /\ (forall on, no_exception (Driver.set_output on d))
  /\ no_exception (Driver.save_settings d)
  /\ (forall a, no_exception (Driver.set_device_address a d))
  /\ no_exception (Driver.get_voltage d)
  /\ no_exception (Driver.get_current d)
  /\ no_exception (Driver.get_temperature d).
Proof.
  intros Ha.
  assert (Hget : forall start (f : option (list Z) -> option Q),
            0 <= start <= 65535 ->
            no_exception
              (bind (Driver._read_registers start 1 false)
                 (fun values => ret (f values)) d)).
  { intros start f Hs. unfold bind.
    pose proof (read_registers_no_exception start 1 d Ha Hs) as Hr.
    destruct (Driver._read_registers start 1 false d);
      [exact I | apply Hr; lia | exact I]. }
  repeat split.
  - intros v. unfold Driver.set_voltage.
    destruct (PowerSupply.validate_voltage _ v) eqn:Hv; cbn [negb];
      [|exact I].
    apply write_register_no_exception;
      [exact Ha | unfold Driver.Register.VOLTAGE_SET; lia
      | apply millivolts_fit, validate_voltage_true, Hv].
  - intros i. unfold Driver.set_current.
    destruct (PowerSupply.validate_current _ i) eqn:Hi; cbn [negb];
      [|exact I].
    apply write_register_no_exception;
      [exact Ha | unfold Driver.Register.CURRENT_SET; lia
      | apply milliamps_fit, validate_current_true, Hi].
  - intros on. unfold Driver.set_output, Driver.output_on, Driver.output_off.
    destruct on; apply write_register_no_exception;
      try exact Ha; unfold Driver.Register.OUTPUT_SWITCH; lia.
  - unfold Driver.save_settings. apply write_register_no_exception;
      try exact Ha; unfold Driver.Register.SAVE_SETTINGS; lia.
  - intros a. unfold Driver.set_device_address.
    destruct ((1 <=? a) && (a <=? 127)) eqn:E; cbn [negb]; [|exact I].
    apply andb_prop in E as [E1 E2]. apply Z.leb_le in E1, E2.
    apply write_register_no_exception;
      try exact Ha; unfold Driver.Register.DEVICE_ADDRESS; lia.
  - apply Hget. unfold Driver.Register.VOLTAGE_REAL. lia.
  - apply Hget. unfold Driver.Register.CURRENT_REAL. lia.
  - apply Hget. unfold Driver.Register.TEMPERATURE. lia.
Qed.

Lemma driver_commands_never_raise_witness :
  let d := Driver.connected 1 [NoReply; WriteFault; Reply []] in
  no_exception (Driver.set_voltage 24 d)
  /\ no_exception (Driver.set_device_address 300 d)
  /\ no_exception (Driver.get_temperature d).
Proof.
  cbv zeta.
  assert (Ha : 0 <= Driver.slave_address
                      (Driver.connected 1 [NoReply; WriteFault; Reply []])
               <= 255) by (cbn; lia).
  destruct (driver_commands_never_raise _ Ha)
    as (Hv & _ & _ & _ & Hd & _ & _ & Ht).
  split; [apply Hv | split; [apply Hd | exact Ht]].
Defined.


End No_exceptions.

(* ===================================================================== *)
(** * Commands on the wire                                                *)
(* ===================================================================== *)

Section Commands_on_the_wire.

Import ModbusRTU.




(** An address outside 1..127 is refused by [set_device_address]
    before anything is sent: the call returns [False], the error
    callbacks get the range message, and the transport is untouched. *)
Theorem set_device_address_rejected_locally (d : Driver.t) (a : Z) :
  a < 1 \/ 127 < a ->
  Driver.set_device_address a d
  = Returns false
      (Driver.mk (Driver.slave_address d) (Driver.modbus d)
         (Driver.AddressOutOfRange :: Driver.notified d)).
Proof.
  intros H. unfold Driver.set_device_address.
  replace ((1 <=? a) && (a <=? 127)) with false; [reflexivity|].
  symmetry. apply andb_false_iff. rewrite !Z.leb_gt. lia.
Qed.

Lemma set_device_address_rejected_locally_witness :
  Driver.set_device_address 128 (Driver.connected 1 [])
  = Returns false
      (Driver.mk 1 (Some (connected [])) [Driver.AddressOutOfRange]).
Proof.
  apply (set_device_address_rejected_locally (Driver.connected 1 []) 128).
  right. lia.
Defined.

(** X16: a write is reported as successful on any valid reply.  Whatever
    frame answers the first attempt, as long as it is long enough, has a
    right checksum and no error bit, [write_single_register] returns
    [True] and clears the failure counter: the reply is compared neither
    with the request nor with the station addressed. *)
Theorem write_accepts_any_valid_reply (address register value : Z) (s : t)
  (arrived : list byte) (rest : list attempt) :
  0 <= address <= 255 -> 0 <= register <= 65535 -> 0 <= value <= 65535 ->
  port_open s = true -> io_lock s = false -> (0 < retry_count s)%nat ->
  script s = Reply arrived :: rest -> good_reply arrived = true ->
  exists s',
    write_single_register address register value s = Returns true s'
    /\ consecutive_failures s' = 0
    /\ script s' = rest.
Proof.
  intros Ha Hg Hv Hp Hl Hr Hs Hgood. unfold write_single_register.
  rewrite (pack_BBHH_some _ WRITE_SINGLE_REGISTER register value Ha)
    by (unfold WRITE_SINGLE_REGISTER; lia).
  destruct (append_total (write_request address register value))
    as (tail & _ & Hf).
  rewrite (bind_returns _ _ _ _ _
             (transact_first_reply _ _ s arrived rest Hf Hp Hl Hr Hs
                Hgood)).
  eexists. split; [reflexivity|]. split; reflexivity.
Qed.

Lemma write_accepts_any_valid_reply_witness :
  exists s',
    write_single_register 1 1281 5000
      (connected [Reply (register_reply 9 3 [7])])
    = Returns true s'
    /\ consecutive_failures s' = 0
    /\ script s' = [].
Proof.
  apply (write_accepts_any_valid_reply 1 1281 5000
           (connected [Reply (register_reply 9 3 [7])])
           (register_reply 9 3 [7]) []); try reflexivity; try lia.
  unfold connected, DEFAULT_RETRY_COUNT. cbn [retry_count]. lia.
Defined.

End Commands_on_the_wire.

(* ===================================================================== *)
(** * The power field of a polled status                                  *)
(* ===================================================================== *)

Section Status_power.

Local Abbreviation power_unset :=
  (fun p : Driver.t * PowerSupply.PowerStatus =>
     PowerSupply.power_real (snd p) = (0 * 0)%Q).

Lemma keeps_on_driver {A} (c : M Driver.t A) :
  keeps power_unset (Driver.on_driver c).
Proof.
  intros [d st] H. unfold Driver.on_driver, zoom. cbn [fst snd] in *.
  destruct (c d); exact H.
Qed.

Lemma keeps_update_status
  (f : PowerSupply.PowerStatus -> PowerSupply.PowerStatus) :
  (forall st, PowerSupply.power_real (f st) = PowerSupply.power_real st) ->
  keeps power_unset (Driver.update_status f).
Proof.
  intros Hf [d st] H. unfold Driver.update_status, modify.
  cbn [final fst snd] in *. rewrite Hf. exact H.
Qed.

Lemma fill_real_power (values : option (list Z))
  (st : PowerSupply.PowerStatus) :
  PowerSupply.power_real (Driver.fill_real values st)
  = PowerSupply.power_real st.
Proof.
  destruct values as [[|v0 [|v1 [|v2 [|v3 [|v4 ?]]]]]|]; try reflexivity.
  unfold Driver.fill_real. destruct (v4 =? 0); reflexivity.
Qed.

Lemma keeps_get_status_reads : keeps power_unset Driver.get_status_reads.
Proof.
  unfold Driver.get_status_reads.
  apply keeps_bind; [apply keeps_on_driver|]. intros real_values.
  apply keeps_bind; [apply keeps_update_status, fill_real_power|]. intros _.
  apply keeps_bind; [apply keeps_on_driver|]. intros output_values.
  apply keeps_bind.
  { apply keeps_update_status. intros st.
    destruct output_values as [[|? ?]|]; reflexivity. }
  intros _.
  apply keeps_bind; [apply keeps_on_driver|]. intros vset_values.
  apply keeps_bind.
  { apply keeps_update_status. intros st.
    destruct vset_values as [[|? ?]|]; reflexivity. }
  intros _.
  apply keeps_bind; [apply keeps_on_driver|]. intros iset_values.
  apply keeps_bind.
  { apply keeps_update_status. intros st.
    destruct iset_values as [[|? ?]|]; reflexivity. }
  intros _. apply keeps_update_status. reflexivity.
Qed.

(** X17: the power field of a polled status is never computed.  Whatever
    the driver's state and whatever the line answers, the status that
    [get_status] returns carries the power 0 it was constructed with:
    the voltage and current read afterwards are stored, their product is
    not. *)
Theorem get_status_power_stays_zero (d d' : Driver.t)
  (st : PowerSupply.PowerStatus) :
  Driver.get_status d = Returns st d' ->
  (PowerSupply.power_real st == 0)%Q.
Proof.
  unfold Driver.get_status.
  destruct (negb (Driver.is_connected d)).
  - intros [= <- _]. reflexivity.
  - pose proof (keeps_try power_unset Driver.get_status_reads
                  (fun e => Driver.update_status
                              (PowerSupply.set_error_message e))
                  keeps_get_status_reads
                  (fun e => keeps_update_status _ (fun _ => eq_refl))
                  (d, PowerSupply.new_status (Driver.is_connected d))
                  eq_refl) as H.
    destruct (try_except _ _ _) as [a [d1 st1] | e [d1 st1] | [d1 st1]];
      try discriminate.
    intros [= <- _]. cbn [final snd] in H. rewrite H. reflexivity.
Qed.

Lemma get_status_power_stays_zero_witness :
  exists st d',
    Driver.get_status
      (Driver.connected 1
         [ModbusRTU.Reply (register_reply 1 3 [12000; 5000; 0; 35; 0]);
          ModbusRTU.Reply (register_reply 1 3 [1]);
          ModbusRTU.Reply (register_reply 1 3 [24000]);
          ModbusRTU.Reply (register_reply 1 3 [5000])])
    = Returns st d'
    /\ (PowerSupply.voltage_real st == 12)%Q
    /\ (PowerSupply.current_real st == 5)%Q
    /\ (PowerSupply.power_real st == 0)%Q.
Proof.
  eexists. eexists. split; [vm_compute; reflexivity|].
  split; [vm_compute; reflexivity|]. split; [vm_compute; reflexivity|].
  eapply (get_status_power_stays_zero
            (Driver.connected 1
               [ModbusRTU.Reply (register_reply 1 3 [12000; 5000; 0; 35; 0]);
                ModbusRTU.Reply (register_reply 1 3 [1]);
                ModbusRTU.Reply (register_reply 1 3 [24000]);
                ModbusRTU.Reply (register_reply 1 3 [5000])])).
  vm_compute. reflexivity.
Defined.

End Status_power.

(* ===================================================================== *)
(** * The controller: rate limit, reset, and a met target                 *)
(* ===================================================================== *)

Section PID_more.

Import PID.
Local Open Scope Q_scope.

Lemma time_step_pos (now : Q) (p : t) : 0 < time_step now p.
Proof.
  unfold time_step. destruct (_last_time p) as [last|]; [|reflexivity].
  destruct (pymax_cases 0.01 (now - last)) as [[H ->] | [H ->]]; lra.
Qed.

(** X18: the rate limit holds at every call.  With a positive
    [output_rate_limit], the value returned by [compute] differs from
    the previous output by at most the limit times the time step of the
    call, whatever the gains, the bounds, the set-point and the
    measurement. *)
Theorem compute_rate_limited (now sp m : Q) (p : t) :
  0 < output_rate_limit p ->
  pyabs (fst (compute now sp m p) - _output p)
  <= output_rate_limit p * time_step now p.
Proof.
  intros Hr. pose proof (time_step_pos now p) as Hd.
  unfold compute. cbn [fst].
  change (match _last_time p with
          | Some last => pymax 0.01 (now - last)
          | None => 1.0
          end) with (time_step now p).
  set (dt := time_step now p) in *.
  match goal with
  | |- context [pymax (output_min p) (pymin (output_max p) ?r)] =>
      set (new := pymax (output_min p) (pymin (output_max p) r))
  end.
  rewrite (proj2 (Qlt_bool_true 0 (output_rate_limit p)) Hr).
  rewrite (proj2 (Qlt_bool_true 0 dt) Hd). cbn [andb].
  assert (Hm : 0 < output_rate_limit p * dt)
    by (apply Qmult_lt_0_compat; assumption).
  set (mc := output_rate_limit p * dt) in *.
  destruct (Qlt_bool_cases mc (pyabs (new - _output p)))
    as [[H ->] | [H ->]]; [|exact H].
  destruct (Qlt_bool_cases 0 (new - _output p)) as [[Hs ->] | [Hs ->]].
  - destruct (pyabs_cases (_output p + mc * 1 - _output p))
      as [[Ha ->] | [Ha ->]]; lra.
  - destruct (pyabs_cases (_output p + mc * -1 - _output p))
      as [[Ha ->] | [Ha ->]]; lra.
Qed.

Lemma compute_rate_limited_witness :
  pyabs (fst (compute 0 10 15 unit_gain_controller)
         - _output unit_gain_controller)
  <= output_rate_limit unit_gain_controller
     * time_step 0 unit_gain_controller.
Proof.
  apply (compute_rate_limited 0 10 15 unit_gain_controller). reflexivity.
Defined.

(** X19: [reset] restores a new controller.  After any sequence of
    calls, [reset] gives back exactly the controller that [reset] gives
    without them; for a controller made by the constructor this is the
    constructed controller itself, so the calls before a reset leave no
    trace in what follows. *)
Theorem reset_restores_fresh (history : list (Q * Q * Q)) (p : t)
  (kp ki kd lo hi : Q) :
  reset (snd (run history p)) = reset p
  /\ reset (snd (run history (init kp ki kd lo hi))) = init kp ki kd lo hi.
Proof.
  split.
  - apply reset_settings, run_settings.
  - rewrite (reset_settings _ (init kp ki kd lo hi) (run_settings history _)).
    reflexivity.
Qed.

Lemma Qmult_nonneg_nonpos (a b : Q) : 0 <= a -> b <= 0 -> a * b <= 0.
Proof.
  intros Ha Hb.
  assert (H : 0 <= a * - b) by (apply Qmult_le_0_compat; lra).
  lra.
Qed.

(** X20: no drive when the target is already met.  A controller that
    has just been reset, with non-negative gains and filter coefficient
    and an output range starting at 0, returns 0 on its first call when
    the measurement is already on the far side of the set-point (at or
    below it when cooling, at or above it when heating). *)
Theorem first_output_zero_when_target_met (now sp m : Q) (p : t) :
  0 <= kp p -> 0 <= ki p -> 0 <= kd p -> 0 <= derivative_filter p ->
  output_min p == 0 -> 0 <= output_max p ->
  target_met sp m p ->
  fst (compute now sp m (reset p)) == 0.
Proof.
  intros Hkp Hki Hkd Hf Hlo Hhi Hmet.
  unfold compute, reset. cbn [fst kp ki kd output_min output_max _integral
    _last_error _last_derivative _output _last_time reverse
    derivative_filter output_rate_limit].
  set (error := if reverse p then sp - m else m - sp).
  assert (He : error <= 0).
  { unfold error, target_met in *. destruct (reverse p); lra. }
  clearbody error.
  assert (Hpos : 0 < pymax (ki p) 0.001)
    by (destruct (pymax_cases (ki p) 0.001) as [[H ->] | [H ->]]; lra).
  assert (Hil : 0 <= output_max p / pymax (ki p) 0.001).
  { apply Qle_shift_div_l; [exact Hpos | lra]. }
  set (i_limit := output_max p / pymax (ki p) 0.001) in *.
  assert (Hi1 : pymax (- i_limit) (pymin i_limit (0 + error * 1.0)) <= 0).
  { destruct (pymin_cases i_limit (0 + error * 1.0)) as [[H1 ->] | [H1 ->]];
      [destruct (pymax_cases (- i_limit) (0 + error * 1.0))
         as [[H2 ->] | [H2 ->]]
      |destruct (pymax_cases (- i_limit) i_limit)
         as [[H2 ->] | [H2 ->]]]; lra. }
  set (integral1 := pymax (- i_limit) (pymin i_limit (0 + error * 1.0))) in *.
  change (Qlt_bool 0 1.0) with true. cbv iota.
  pose proof (Qmult_nonneg_nonpos _ _ Hkp He) as Hp.
  pose proof (Qmult_nonneg_nonpos _ _ Hki Hi1) as Hi.
  assert (Hrd : (error - 0) / 1.0 <= 0).
  { apply Qle_shift_div_r; [reflexivity | lra]. }
  pose proof (Qmult_nonneg_nonpos _ _ Hf Hrd) as Hfd.
  set (raw_d := (error - 0) / 1.0) in *.
  assert (Hfilt : derivative_filter p * raw_d
                  + (1 - derivative_filter p) * 0 <= 0) by lra.
  pose proof (Qmult_nonneg_nonpos _ _ Hkd Hfilt) as Hdt.
  set (filtered := derivative_filter p * raw_d
                   + (1 - derivative_filter p) * 0) in *.
  set (raw := kp p * error + ki p * integral1 + kd p * filtered).
  assert (Hraw : raw <= 0) by (unfold raw; lra).
  clearbody raw.
  assert (Hnew : pymax (output_min p) (pymin (output_max p) raw) == 0).
  { destruct (pymin_cases (output_max p) raw) as [[H1 ->] | [H1 ->]];
      [destruct (pymax_cases (output_min p) raw) as [[H2 ->] | [H2 ->]]
      |destruct (pymax_cases (output_min p) (output_max p))
         as [[H2 ->] | [H2 ->]]]; lra. }
  set (new := pymax (output_min p) (pymin (output_max p) raw)) in *.
  clearbody new.
  change (Qlt_bool 0 1.0) with true. rewrite andb_true_r.
  destruct (Qlt_bool_cases 0 (output_rate_limit p)) as [[Hr ->] | [Hr ->]];
    [|exact Hnew].
  destruct (Qlt_bool_cases (output_rate_limit p * 1.0) (pyabs (new - 0)))
    as [[H ->] | [H ->]]; [|exact Hnew].
  destruct (pyabs_cases (new - 0)) as [[Ha Ea] | [Ha Ea]];
    rewrite Ea in H; lra.
Qed.

Lemma first_output_zero_when_target_met_witness :
  fst (compute 0 25 20 (reset default)) == 0.
Proof.
  apply (first_output_zero_when_target_met 0 25 20 default);
    try (vm_compute; discriminate); try reflexivity.
Defined.

End PID_more.

(* ===================================================================== *)
(** * Tuning sessions from [start] on                                     *)
(* ===================================================================== *)

Section Sessions.

Import AutoTuner.
Local Open Scope Q_scope.





(** ** What the analysis and the fallback leave alone *)





(** ** The analysis on a session in good order *)
















Lemma timeout_without_data_gives_defaults_witness :
  exists s',
    step 301 20 started_session = Returns 0.0 s'
    /\ state s' = DONE /\ message s' = Defaults
    /\ kp s' = 1.5 /\ ki s' = 0.02 /\ kd s' = 2.0.
Proof.
  apply (timeout_without_data_gives_defaults started_session 301 20).
  - vm_compute. reflexivity.
  - cbn. lia.
Defined.

End Sessions.

(* ===================================================================== *)
(** * The worker over its histories                                       *)
(* ===================================================================== *)

Section Worker_histories.

Import Worker.
Local Open Scope Q_scope.


















End Worker_histories.

(* ===================================================================== *)
(** * Sensor fusion and parameters                                        *)
(* ===================================================================== *)

Section Fusion.

Import Worker.
Local Open Scope Q_scope.

Lemma sum_within (lo hi : Q) (values : list Q) (acc : Q) :
  Forall (fun v => lo <= v <= hi) values ->
  acc + inject_Z (Z.of_nat (length values)) * lo
  <= fold_left Qplus values acc
  <= acc + inject_Z (Z.of_nat (length values)) * hi.
Proof.
  intros H. revert acc. induction H as [|v values [Hv1 Hv2] _ IH];
    intros acc.
  - cbn [fold_left length]. change (inject_Z (Z.of_nat 0)) with 0. lra.
  - cbn [fold_left length]. specialize (IH (acc + v)).
    rewrite Nat2Z.inj_succ. unfold Z.succ. rewrite inject_Z_plus.
    change (inject_Z 1) with 1. lra.
Qed.

Lemma mean_within (lo hi : Q) (values : list Q) :
  values <> [] -> Forall (fun v => lo <= v <= hi) values ->
  lo <= mean values <= hi.
Proof.
  intros Hne H. pose proof (sum_within lo hi values 0 H) as [H1 H2].
  assert (Hn : 0 < inject_Z (Z.of_nat (length values))).
  { destruct values as [|v values]; [congruence|].
    change 0 with (inject_Z 0). rewrite <- Zlt_Qlt. cbn [length]. lia. }
  unfold mean. split.
  - apply Qle_shift_div_l; [exact Hn | lra].
  - apply Qle_shift_div_r; [exact Hn | lra].
Qed.

Lemma values_of_within (lo hi : Q) (key : sensor -> option Q)
  (srcs : list sensor) :
  In key [hot; ds18b20; cold] ->
  Forall (readings_within lo hi) srcs ->
  Forall (fun v => lo <= v <= hi) (values_of key srcs).
Proof.
  intros Hk H. induction H as [|s srcs Hs _ IH]; [constructor|].
  unfold values_of. cbn [flat_map]. apply Forall_app. split; [|exact IH].
  destruct (key s) as [v|] eqn:E; [|constructor].
  constructor; [exact (Hs key v Hk E) | constructor].
Qed.

Lemma first_mean_within (lo hi : Q) (keys : list (sensor -> option Q))
  (srcs : list sensor) (m : Q) :
  (forall key, In key keys -> In key [hot; ds18b20; cold]) ->
  Forall (readings_within lo hi) srcs ->
  first_mean keys srcs = Some m -> lo <= m <= hi.
Proof.
  intros Hk Hs. induction keys as [|key keys IH]; [discriminate|].
  cbn [first_mean].
  pose proof (values_of_within lo hi key srcs (Hk key (or_introl eq_refl)) Hs)
    as Hv.
  destruct (values_of key srcs) as [|v values] eqn:E.
  - apply IH. intros k Hin. apply Hk. right. exact Hin.
  - intros [= <-]. apply mean_within; [discriminate | exact Hv].
Qed.

Lemma values_of_silent (key : sensor -> option Q) (srcs : list sensor) :
  In key [hot; ds18b20; cold] ->
  Forall silent srcs -> values_of key srcs = [].
Proof.
  intros Hk H. induction H as [|s srcs (H1 & H2 & H3) _ IH]; [reflexivity|].
  unfold values_of in *. cbn [flat_map]. rewrite IH.
  destruct Hk as [<- | [<- | [<- | []]]];
    rewrite ?H1, ?H2, ?H3; reflexivity.
Qed.

(** X24: the fused temperature stays within the readings.  When every
    value reported by each connected sensor lies in [[lo, hi]], a fused
    temperature, if there is one, lies in [[lo, hi]] as well, in every
    fusion mode; and there is none when the connected sensors report
    nothing. *)
Theorem fused_within_readings (w : t) (lo hi : Q) :
  (temp_connected_1 w = true -> readings_within lo hi (temp_data_1 w)) ->
  (temp_connected_2 w = true -> readings_within lo hi (temp_data_2 w)) ->
  (forall m, _get_fused_temperature w = Some m -> lo <= m <= hi)
  /\ ((temp_connected_1 w = true -> silent (temp_data_1 w)) ->
      (temp_connected_2 w = true -> silent (temp_data_2 w)) ->
      _get_fused_temperature w = None).
Proof.
  intros H1 H2.
  assert (Hsrc : forall P : sensor -> Prop,
            (temp_connected_1 w = true -> P (temp_data_1 w)) ->
            (temp_connected_2 w = true -> P (temp_data_2 w)) ->
            Forall P (sources w)).
  { intros P P1 P2. unfold sources.
    destruct (fusion_mode (config w) =? 1)%Z;
      [|destruct (fusion_mode (config w) =? 2)%Z];
      destruct (temp_connected_1 w); destruct (temp_connected_2 w);
      cbn [app]; repeat constructor; auto. }
  split.
  - intros m. unfold _get_fused_temperature.
    pose proof (Hsrc _ H1 H2) as Hs.
    destruct (sources w) as [|s srcs]; [discriminate|].
    apply first_mean_within; [auto | exact Hs].
  - intros S1 S2. unfold _get_fused_temperature.
    pose proof (Hsrc _ S1 S2) as Hs.
    destruct (sources w) as [|s srcs]; [reflexivity|].
    cbn [first_mean].
    rewrite (values_of_silent hot _ (or_introl eq_refl) Hs),
      (values_of_silent ds18b20 _ (or_intror (or_introl eq_refl)) Hs),
      (values_of_silent cold _
         (or_intror (or_intror (or_introl eq_refl))) Hs).
    reflexivity.
Qed.

Lemma fused_within_readings_witness :
  exists m,
    _get_fused_temperature
      (store (true, true, mkSensor (Some 24) None (Some 3),
              mkSensor (Some 26) (Some 25) None) init) = Some m
    /\ m == 25 /\ 3 <= m <= 26.
Proof.
  eexists. split; [vm_compute; reflexivity|].
  split; [vm_compute; reflexivity|].
  apply (fused_within_readings
           (store (true, true, mkSensor (Some 24) None (Some 3),
                   mkSensor (Some 26) (Some 25) None) init) 3 26).
  - intros _ key v [<- | [<- | [<- | []]]]; cbn; intros [= <-];
      split; vm_compute; discriminate.
  - intros _ key v [<- | [<- | [<- | []]]]; cbn; intros [= <-];
      split; vm_compute; discriminate.
  - vm_compute. reflexivity.
Defined.

(** X25: the parameter dictionary round trip.  The dictionary returned
    by [_get_current_params] carries the whole configuration: applying
    it to the worker it came from changes nothing, and applying it to
    any other worker gives that worker the same configuration. *)
Theorem params_round_trip (w w' : t) :
  _apply_params (_get_current_params w) w = w
  /\ config (_apply_params (_get_current_params w) w') = config w
  /\ _get_current_params (_apply_params (_get_current_params w) w')
     = _get_current_params w.
Proof.
  destruct w as [pw c1 c2 d1 d2 pd en tu at_ st sc ct cf am ck sg].
  destruct cf as [tt_ sf p i d mc mv ci fm cm].
  split; [reflexivity|]. split; reflexivity.
Qed.

End Fusion.

Section Safety_on_the_wire.

Import Worker.

Lemma safety_tick_on_the_wire_witness :
  exists d m d',
    power (after controlling_at_35) = Some d
    /\ Driver.modbus d = Some m
    /\ power (final (_control_loop 1 (after controlling_at_35))) = Some d'
    /\ driver_wrote_after (sealed [1; 6; 5; 1; 0; 0])
         (ModbusRTU.written m) d'.
Proof.
  destruct (power (after controlling_at_35)) as [d|] eqn:Hd;
    [|vm_compute in Hd; discriminate].
  destruct (Driver.modbus d) as [m|] eqn:Hm;
    [|vm_compute in Hd; injection Hd as <-; discriminate].
  exists d, m.
  destruct (safety_tick_on_the_wire (after controlling_at_35) 1 35 d m
              (sealed [1; 6; 5; 1; 0; 0])) as (d' & Hp & Hw);
    try (vm_compute in Hd; injection Hd as <-;
         cbn in Hm; injection Hm as <-);
    try reflexivity; try (vm_compute; reflexivity); try (cbn; lia).
  exists d'. repeat split; assumption.
Defined.

End Safety_on_the_wire.

(* ===================================================================== *)
(** * The data bridge: histories and the command queue                    *)
(* ===================================================================== *)

Section Bridge.

Import DataBridge.

(** Appending [xs] one by one to a deque keeps the most recent [maxlen]
    items of everything it has held. *)
Lemma append_all {A B} (f : B -> A) (xs : list B) (d : deque A) :
  (length (items d) <= maxlen d)%nat ->
  fold_left (fun d x => append (f x) d) xs d
  = mkDeque (maxlen d)
      (skipn (length (items d ++ map f xs) - maxlen d)
         (items d ++ map f xs)).
Proof.
  revert d. induction xs as [|x xs IH]; intros d Hd.
  - cbn [fold_left map]. rewrite app_nil_r.
    replace (length (items d) - maxlen d)%nat with 0%nat by lia.
    destruct d; reflexivity.
  - cbn [fold_left map]. rewrite IH.
    + unfold append. cbn [maxlen items]. f_equal.
      set (l := items d ++ [f x]).
      set (k := (length l - maxlen d)%nat).
      assert (Hk : (k <= length l)%nat) by (unfold k; lia).
      replace (skipn k l ++ map f xs) with (skipn k (l ++ map f xs))
        by (rewrite skipn_app;
            replace (k - length l)%nat with 0%nat by lia; reflexivity).
      rewrite skipn_skipn. unfold l. rewrite <- app_assoc. cbn [app].
      f_equal. rewrite length_skipn. unfold k, l.
      rewrite !length_app. cbn [length]. lia.
    + unfold append. cbn [maxlen items].
      rewrite length_skipn. lia.
Qed.

Lemma record_points_series (pts : list point) (b : t) :
  _time_history (record_points pts b)
  = fold_left (fun d pt => append (p_t pt) d) pts (_time_history b)
  /\ _target_history (record_points pts b)
     = fold_left (fun d pt => append (p_target pt) d) pts
         (_target_history b)
  /\ _cold1_history (record_points pts b)
     = fold_left (fun d pt => append (p_cold1 pt) d) pts (_cold1_history b)
  /\ _hot1_history (record_points pts b)
     = fold_left (fun d pt => append (p_hot1 pt) d) pts (_hot1_history b)
  /\ _cold2_history (record_points pts b)
     = fold_left (fun d pt => append (p_cold2 pt) d) pts (_cold2_history b)
  /\ _hot2_history (record_points pts b)
     = fold_left (fun d pt => append (p_hot2 pt) d) pts (_hot2_history b)
  /\ _output_history (record_points pts b)
     = fold_left (fun d pt => append (p_output pt) d) pts
         (_output_history b)
  /\ _command_queue (record_points pts b) = _command_queue b.
Proof.
  revert b. induction pts as [|pt pts IH]; intros b.
  - repeat split; reflexivity.
  - cbn [record_points fold_left]. apply (IH (append_history pt b)).
Qed.

(** X26: the histories keep the latest points, aligned.  After any
    points recorded on a new bridge, [get_history] shows exactly the most
    recent [history_max] of them, oldest first, the same points in all
    seven series, with the values that are not finite shown as [None];
    the command queue is untouched. *)
Theorem history_keeps_latest (history_max : nat) (pts : list point) :
  get_history (record_points pts (init history_max))
  = shown (skipn (length pts - history_max) pts)
  /\ (length (h_time (get_history (record_points pts (init history_max))))
      <= history_max)%nat
  /\ _command_queue (record_points pts (init history_max))
     = _command_queue (init history_max).
Proof.
  destruct (record_points_series pts (init history_max))
    as (E1 & E2 & E3 & E4 & E5 & E6 & E7 & E8).
  assert (Hser : forall f : point -> number,
            items (fold_left (fun d pt => append (f pt) d) pts
                     (mkDeque history_max []))
            = map f (skipn (length pts - history_max) pts)).
  { intros f. rewrite (append_all f pts (mkDeque history_max []))
      by (cbn; lia).
    cbn [items maxlen app]. rewrite length_map. apply skipn_map. }
  split; [|split; [|exact E8]].
  - unfold get_history, shown. rewrite E1, E2, E3, E4, E5, E6, E7.
    cbn [init _time_history _target_history _cold1_history _hot1_history
         _cold2_history _hot2_history _output_history].
    rewrite !Hser. reflexivity.
  - unfold get_history. cbn [h_time]. rewrite E1.
    cbn [init _time_history]. rewrite Hser. unfold _clean.
    rewrite !length_map, length_skipn. lia.
Qed.

Lemma send_all_queue (requests : list request) (b : t) :
  _command_queue (send_all requests b)
  = fold_left (fun d r => append (entry r) d) requests (_command_queue b)
  /\ get_history (send_all requests b) = get_history b.
Proof.
  revert b. induction requests as [|[[now name] args] requests IH];
    intros b.
  - split; reflexivity.
  - cbn [send_all fold_left].
    destruct (IH (send_command now name args b)) as [IH1 IH2].
    split; [exact IH1 | exact IH2].
Qed.

(** X27: the command queue hands over each command once.  After any
    requests sent to a bridge whose queue was empty, [poll_commands]
    returns the most recent 100 of them, oldest first, with a missing
    parameter dictionary replaced by an empty one, and leaves the queue
    empty, so that the next poll returns nothing; the histories are
    untouched. *)
Theorem poll_returns_pending (requests : list request) (b : t) :
  _command_queue b = mkDeque 100 [] ->
  let polled := poll_commands (send_all requests b) in
  fst polled = map entry (skipn (length requests - 100) requests)
  /\ fst (poll_commands (snd polled)) = []
  /\ get_history (snd polled) = get_history b.
Proof.
  intros Hq. cbv zeta.
  destruct (send_all_queue requests b) as [E1 E2].
  split; [|split].
  - unfold poll_commands. cbn [fst]. rewrite E1, Hq.
    rewrite (append_all entry requests (mkDeque 100 [])) by (cbn; lia).
    cbn [items maxlen app]. rewrite length_map. apply skipn_map.
  - reflexivity.
  - exact E2.
Qed.

Lemma poll_returns_pending_witness :
  let b := send_all [(1%Q, "output_on"%string, None);
                     (2%Q, "set_current"%string,
                      Some [("current"%string, "2.5"%string)])]
             (init 300) in
  fst (poll_commands b)
  = [mkCommand "output_on" [] 1;
     mkCommand "set_current" [("current"%string, "2.5"%string)] 2]
  /\ fst (poll_commands (snd (poll_commands b))) = [].
Proof.
  cbv zeta.
  destruct (poll_returns_pending
              [(1%Q, "output_on"%string, None);
               (2%Q, "set_current"%string,
                Some [("current"%string, "2.5"%string)])]
              (init 300) eq_refl) as (H1 & H2 & _).
  split; [exact H1 | exact H2].
Defined.

End Bridge.

(* ===================================================================== *)
(** * The transport below the reset threshold                             *)
(* ===================================================================== *)

Section Transport_liveness.

Import ModbusRTU.

(** Below the threshold an attempt returns, whatever the line does: it
    adds at most one failure and leaves the lock, the port and the retry
    count alone. *)
Lemma attempt_once_returns (frame : list byte) (s : t) :
  0 <= consecutive_failures s ->
  consecutive_failures s + 1 < MAX_CONSECUTIVE_FAILURES ->
  exists r s',
    attempt_once frame s = Returns r s'
    /\ 0 <= consecutive_failures s' <= consecutive_failures s + 1
    /\ io_lock s' = io_lock s /\ retry_count s' = retry_count s
    /\ port_open s' = port_open s.
Proof.
  destruct s as [rc po cf lk ro sc wr]. cbn [port_open script
    consecutive_failures retry_count io_lock reopen_ok written].
  intros H0 Hlt.
  assert (Hth : (MAX_CONSECUTIVE_FAILURES <=? cf + 1) = false)
    by (apply Z.leb_gt; exact Hlt).
  assert (Hfail : forall sc' wr',
            exists r s',
              bind count_failure
                (fun _ => bind reset_if_needed
                            (fun _ => ret (@None ModbusResponse.t)))
                (mk rc po cf lk ro sc' wr')
              = Returns r s'
              /\ 0 <= consecutive_failures s' <= cf + 1
              /\ io_lock s' = lk /\ retry_count s' = rc
              /\ port_open s' = po).
  { intros sc' wr'.
    unfold bind, count_failure, reset_if_needed, modify, get, ret,
      set_failures.
    cbn -[Z.leb Z.add MAX_CONSECUTIVE_FAILURES]. rewrite Hth.
    eexists. eexists. split; [reflexivity|]. cbn. repeat split; lia. }
  unfold attempt_once. unfold bind at 1. unfold _send_frame, is_connected.
  cbn [port_open script]. destruct po; cbn [negb].
  2:{ unfold bind, count_failure, modify, ret, set_failures. cbn.
      eexists. eexists. split; [reflexivity|]. cbn. repeat split; lia. }
  assert (Hrecv : forall sc' wr',
            exists r s',
              bind _receive_frame
                (fun response =>
                   match response with
                   | Some response0 =>
                       if negb (CRC16.verify response0)
                       then bind count_failure
                              (fun _ => bind reset_if_needed
                                 (fun _ => ret None))
                       else parse_response response0
                   | None =>
                       bind count_failure
                         (fun _ => bind reset_if_needed (fun _ => ret None))
                   end) (mk rc true cf lk ro sc' wr')
              = Returns r s'
              /\ 0 <= consecutive_failures s' <= cf + 1
              /\ io_lock s' = lk /\ retry_count s' = rc
              /\ port_open s' = true).
  { intros sc' wr'. unfold bind at 1. unfold _receive_frame, is_connected.
    cbn [port_open script negb].
    destruct sc' as [|[| |arrived] rest]; try apply Hfail.
    destruct (length arrived <? MIN_RESPONSE_LENGTH)%nat; [apply Hfail|].
    unfold set_script. cbn [retry_count port_open consecutive_failures
      io_lock reopen_ok written].
    destruct (negb (CRC16.verify arrived)); [apply Hfail|].
    unfold parse_response.
    destruct arrived as [|a0 [|a1 [|a2 arrived]]];
      try (unfold ret; eexists; eexists; split; [reflexivity|];
           cbn; repeat split; lia).
    destruct (negb _);
      unfold bind, modify, ret, set_failures;
      (eexists; eexists; split; [reflexivity|]; cbn; repeat split; lia). }
  destruct sc as [|[| |arrived] rest]; cbn [negb].
  - apply Hrecv.
  - unfold log_write, set_script. cbn [retry_count port_open
      consecutive_failures io_lock reopen_ok written script].
    unfold bind, count_failure, modify, ret, set_failures. cbn.
    eexists. eexists. split; [reflexivity|]. cbn. repeat split; lia.
  - apply Hrecv.
  - apply Hrecv.
Qed.

Lemma attempts_return (n : nat) (frame : list byte) (s : t) :
  0 <= consecutive_failures s ->
  consecutive_failures s + Z.of_nat n < MAX_CONSECUTIVE_FAILURES ->
  exists r s',
    attempts n frame s = Returns r s'
    /\ 0 <= consecutive_failures s'
       <= consecutive_failures s + Z.of_nat n
    /\ io_lock s' = io_lock s /\ retry_count s' = retry_count s
    /\ port_open s' = port_open s.
Proof.
  revert s. induction n as [|n IH]; intros s H0 Hlt.
  - exists None, s. cbn [attempts]. split; [reflexivity|].
    repeat split; lia.
  - cbn [attempts].
    destruct (attempt_once_returns frame s H0 ltac:(lia))
      as (r & s1 & Ha & Hc & Hl & Hr & Hp).
    rewrite (bind_returns _ _ _ _ _ Ha). destruct r as [resp|].
    + exists (Some resp), s1. split; [reflexivity|].
      repeat split; try lia; assumption.
    + destruct (IH s1 ltac:(lia) ltac:(lia))
        as (r' & s' & Hs & Hc' & Hl' & Hr' & Hp').
      exists r', s'. split; [exact Hs|].
      repeat split; try lia; congruence.
Qed.

(** With the lock free and the failure counter plus the number of
    attempts below the threshold, a transaction returns whatever the
    line does. *)
Lemma transact_returns (request : list byte) (s : t) :
  io_lock s = false -> 0 <= consecutive_failures s ->
  consecutive_failures s + Z.of_nat (retry_count s)
    < MAX_CONSECUTIVE_FAILURES ->
  exists r s',
    _transact request s = Returns r s'
    /\ io_lock s' = false
    /\ port_open s' = port_open s
    /\ retry_count s' = retry_count s
    /\ 0 <= consecutive_failures s'
       <= consecutive_failures s + Z.of_nat (retry_count s).
Proof.
  intros Hl H0 Hlt. unfold _transact.
  destruct (append_total request) as (tail & _ & ->).
  unfold with_io_lock. rewrite Hl, bind_get.
  destruct (attempts_return (retry_count (set_lock true s))
              (request ++ tail) (set_lock true s) H0 Hlt)
    as (r & s' & Ha & Hc & _ & Hr & Hp).
  rewrite Ha. exists r, (set_lock false s'). split; [reflexivity|].
  split; [reflexivity|]. split; [exact Hp|]. split; [exact Hr | exact Hc].
Qed.

(** X28: the transport cannot hang below the reset threshold.  With the
    lock free and the failure counter plus the number of attempts below
    the threshold of 5, a register read (function 3 or 4) and a register
    write with fields in range return whatever the line does (failed
    writes, silence, short or corrupted replies, in any order); they
    release the lock, leave the port as it was and end with a counter of
    at most the old one plus the number of attempts. *)
Theorem transport_returns_below_threshold (address x y : Z) (s : t) :
  io_lock s = false -> 0 <= consecutive_failures s ->
  consecutive_failures s + Z.of_nat (retry_count s)
    < MAX_CONSECUTIVE_FAILURES ->
  0 <= address <= 255 -> 0 <= x <= 65535 -> 0 <= y <= 65535 ->
  (exists r s', read_holding_registers address x y s = Returns r s'
                /\ settled s s')
  /\ (exists r s', read_input_registers address x y s = Returns r s'
                   /\ settled s s')
  /\ (exists b s', write_single_register address x y s = Returns b s'
                   /\ settled s s').
Proof.
  intros Hl H0 Hlt Ha Hx Hy. unfold settled.
  assert (Hread : forall code, 0 <= code <= 255 ->
            exists r s',
              read_registers_with code address x y s = Returns r s'
              /\ io_lock s' = false /\ port_open s' = port_open s
              /\ 0 <= consecutive_failures s'
                 <= consecutive_failures s + Z.of_nat (retry_count s)).
  { intros code Hc. unfold read_registers_with.
    rewrite (pack_BBHH_some address code x y Ha Hc Hx Hy).
    destruct (transact_returns
                [byte_of_Z address; byte_of_Z code;
                 byte_of_Z (Z.shiftr x 8); byte_of_Z x;
                 byte_of_Z (Z.shiftr y 8); byte_of_Z y] s Hl H0 Hlt)
      as (r & s' & Ht & Hl' & Hp' & _ & Hc').
    rewrite (bind_returns _ _ _ _ _ Ht).
    eexists. exists s'. split; [reflexivity|].
    split; [exact Hl'|]. split; [exact Hp' | exact Hc']. }
  split; [|split].
  - apply Hread. unfold READ_HOLDING_REGISTERS. lia.
  - apply Hread. unfold READ_INPUT_REGISTERS. lia.
  - unfold write_single_register.
    rewrite (pack_BBHH_some address WRITE_SINGLE_REGISTER x y Ha)
      by (unfold WRITE_SINGLE_REGISTER; lia).
    destruct (transact_returns
                [byte_of_Z address; byte_of_Z WRITE_SINGLE_REGISTER;
                 byte_of_Z (Z.shiftr x 8); byte_of_Z x;
                 byte_of_Z (Z.shiftr y 8); byte_of_Z y] s Hl H0 Hlt)
      as (r & s' & Ht & Hl' & Hp' & _ & Hc').
    rewrite (bind_returns _ _ _ _ _ Ht).
    eexists. exists s'. split; [reflexivity|].
    split; [exact Hl'|]. split; [exact Hp' | exact Hc'].
Qed.

Lemma transport_returns_below_threshold_witness :
  exists b s',
    write_single_register 1 1281 0
      (connected [NoReply; WriteFault; Reply [x01; x02]; NoReply])
    = Returns b s'
    /\ settled
         (connected [NoReply; WriteFault; Reply [x01; x02]; NoReply]) s'.
Proof.
  destruct (transport_returns_below_threshold 1 1281 0
              (connected [NoReply; WriteFault; Reply [x01; x02]; NoReply]))
    as (_ & _ & H); try lia;
    [reflexivity | vm_compute; discriminate | vm_compute; reflexivity |].
  exact H.
Defined.


End Transport_liveness.

(* ===================================================================== *)
(** * From a safety recovery to a new tuning session                      *)
(* ===================================================================== *)

Section Recovery.

Import Worker.
Local Open Scope Q_scope.

Lemma write_register_returns (register value : Z) (d : Driver.t) :
  calm d -> (0 <= register <= 65535)%Z -> (0 <= value <= 65535)%Z ->
  exists b d', Driver._write_register register value d = Returns b d'.
Proof.
  intros [Ha Hcalm] Hr Hv. unfold Driver._write_register. rewrite bind_get.
  destruct (Driver.is_connected d) eqn:Hc; cbn [negb];
    [|eexists; eexists; reflexivity].
  unfold Driver.is_connected in Hc.
  destruct (Driver.modbus d) as [m|] eqn:Hm; [|discriminate].
  destruct (Hcalm m eq_refl) as (Hl & H0 & Hlt).
  unfold bind at 1, Driver.on_modbus. rewrite Hm.
  unfold ModbusRTU.write_single_register.
  rewrite (pack_BBHH_some _ ModbusRTU.WRITE_SINGLE_REGISTER register value
             Ha) by (unfold ModbusRTU.WRITE_SINGLE_REGISTER; lia).
  destruct (transact_returns
              [byte_of_Z (Driver.slave_address d);
               byte_of_Z ModbusRTU.WRITE_SINGLE_REGISTER;
               byte_of_Z (Z.shiftr register 8); byte_of_Z register;
               byte_of_Z (Z.shiftr value 8); byte_of_Z value] m Hl H0 Hlt)
    as (r & m' & Ht & _).
  rewrite (bind_returns _ _ _ _ _ Ht). unfold ret.
  destruct (negb _); eexists; eexists; reflexivity.
Qed.

Lemma set_voltage_returns (x : Q) (d : Driver.t) :
  calm d -> exists b d', Driver.set_voltage x d = Returns b d'.
Proof.
  intros Hcalm. unfold Driver.set_voltage.
  destruct (PowerSupply.validate_voltage _ x) eqn:Hv; cbn [negb];
    [|eexists; eexists; reflexivity].
  apply write_register_returns;
    [exact Hcalm | unfold Driver.Register.VOLTAGE_SET; lia
    | apply millivolts_fit, validate_voltage_true, Hv].
Qed.

Lemma try_set_voltage_returns (x : Q) (w : t) (d : Driver.t) :
  power w = Some d -> calm d ->
  exists d', try_set_voltage x w = Returns tt (set_power (Some d') w).
Proof.
  intros Hp Hcalm. destruct (set_voltage_returns x d Hcalm) as (b & d' & Hs).
  exists d'. unfold try_set_voltage, try_except, bind, on_power.
  rewrite Hp, Hs. reflexivity.
Qed.

(** X29: from a safety recovery to a new tuning session.  When the
    recovery check reads a fused temperature below [safety_temp - 2.0]
    and the single shot it arms fires, on a worker whose connected supply
    cannot hang (lock free, failure counter plus attempts below the
    threshold), both handlers return and auto-tuning is running again:
    the safety flag and the recovery timer are off, control and
    auto-tuning are enabled with the control timer running, a new
    session has been started from the current configuration, and the
    recovery and the start have been signalled, in this order.  This
    holds whether or not control was running before. *)
Theorem recovery_restarts_tuning (w : t) (now measured : Q) (d : Driver.t) :
  _get_fused_temperature w = Some measured ->
  measured < safety_temp (config w) - 2.0 ->
  power w = Some d -> Driver.is_connected d = true -> calm d ->
  exists w',
    bind (handle recovery_tick) (fun _ => handle (restart_shot now)) w
    = Returns tt w'
    /\ safety_triggered w' = false
    /\ safety_recovery_timer (clock w') = false
    /\ pid_enabled w' = true /\ auto_tuning w' = true
    /\ control_timer (clock w') = true
    /\ auto_tuner w' = Some (new_session now (config w))
    /\ config w' = config w
    /\ restart_shots (clock w') = restart_shots (clock w)
    /\ signals w'
       = auto_tune_start_result true :: safety_recovered_sig measured
           :: signals w.
Proof.
  intros Hf Hm Hp Hc Hcalm. cbn [handle].
  unfold _check_safety_recovery. rewrite bind_assoc, bind_get, Hf.
  replace (Qlt_bool measured (safety_temp (config w) - 2.0)) with true
    by (symmetry; apply Qlt_bool_true; exact Hm).
  repeat (rewrite bind_assoc || rewrite bind_modify).
  set (w1 := set_clock _ _).
  rewrite bind_get.
  change (restart_shots (clock w1)) with (S (restart_shots (clock w))).
  cbv iota. unfold _auto_restart_tune. rewrite bind_modify, bind_get.
  set (w2 := set_clock _ w1).
  unfold start_auto_tune. rewrite bind_get.
  assert (Hpc : power_connected w2 = true).
  { unfold power_connected. change (power w2) with (power w).
    rewrite Hp. exact Hc. }
  rewrite Hpc. cbn [negb].
  change (_get_fused_temperature w2) with (_get_fused_temperature w).
  rewrite Hf. rewrite bind_modify, bind_get, bind_modify.
  set (w3 := set_auto_tuner _ _).
  destruct (try_set_voltage_returns
              (max_voltage (config (_apply_params (_get_current_params w2)
                                      w2))) w3 d Hp Hcalm) as (d' & Hv).
  rewrite (bind_returns _ _ _ _ _ Hv). rewrite !bind_modify.
  eexists. split; [reflexivity|].
  destruct w as [pw c1 c2 d1 d2 pd en tu at_ st sc ct cf am ck sg].
  destruct cf as [tt_ sf p i dd mc mv ci fm cm].
  destruct ck as [pt ctm rt rs ss].
  repeat split; reflexivity.
Qed.

Lemma recovery_restarts_tuning_witness :
  exists w',
    bind (handle recovery_tick) (fun _ => handle (restart_shot 100))
      (store (hot_reading 20)
         (set_power (Some (Driver.connected 1 [])) init))
    = Returns tt w'
    /\ pid_enabled w' = true /\ auto_tuning w' = true
    /\ safety_recovery_timer (clock w') = false.
Proof.
  destruct (recovery_restarts_tuning
              (store (hot_reading 20)
                 (set_power (Some (Driver.connected 1 [])) init))
              100 20 (Driver.connected 1 []))
    as (w' & H & _ & Hr & He & Ht & _).
  - vm_compute. reflexivity.
  - vm_compute. reflexivity.
  - reflexivity.
  - reflexivity.
  - split; [cbn; lia|]. intros m [= <-].
    split; [reflexivity|]. split; [vm_compute; discriminate|].
    vm_compute. reflexivity.
  - exists w'. split; [exact H|]. split; [exact He|].
    split; [exact Ht | exact Hr].
Defined.

End Recovery.
